(** * Buyer lead intake: validation, mutation, CSV import and listing

    A shallow embedding of the request handlers of the lead-intake
    application and of the schemas they share:

    - [lib/validations.ts]            the Zod schemas,
    - [schema.ts]                     the two tables and their foreign key,
    - [lib/rateLimit.ts]              the rate-limit check,
    - [api/buyers/[id]/route.ts]      GET, PUT and DELETE,
    - [api/buyers/import/route.ts]    POST (CSV import),
    - [api/buyers/route.ts]           GET (listing) and POST (create),
    - [api/buyers/export/route.ts]    GET (export).

    Conventions of the embedding.  A string is a sequence of code units
    below 256.  A budget of a JSON body is taken to be a whole number, as
    a budget of a stored row is ([Z]): the [.int()] check of the schemas
    refuses any other with the other violations of the body; a number read
    from a CSV cell, which no schema checks to be whole, is a rational
    ([Q]); the arithmetic of the listing on page and page size is that of
    doubles.  A [Date] is identified by
    its ISO rendering.  A JSON body is taken at its declared types (a field
    of a closed set holds a member of the set), a CSV cell as the text it
    is.  A request is served within one reading of the clock.  The
    relational store is a pair of lists, one per table; a statement fails
    through the key constraints between these two tables, through the
    types of the columns of [buyers] and, in the listing and the fetch,
    through the types [bigint] and [uuid] of what the query is given.  The
    user of a session is a row of [users].  The id in the path of an
    update or a delete is taken in the spelling in which the stored id is
    rendered.
    What belongs to the platform and not to the repository (the format
    checks of the schema library, the pattern matching and ordering of the
    database, its reading of a UUID, the integer parser of the language)
    is a section variable. *)

From stdpp Require Import base option list strings gmap sorting pretty.
From Stdlib Require Import ZArith QArith_base Ascii Lia.

Local Open Scope Z_scope.
Local Open Scope string_scope.
Local Open Scope list_scope.

(* ===================================================================== *)
(** ** Values of the host language *)
(* ===================================================================== *)

(** A [Date]; [toISOString] is the only observation the handlers make. *)
Record Date := mkDate { toISOString : string }.

(** The values that occur as fields of a row or of a request body.  An
    array is an object: it carries the identity [ref] it was allocated
    with, and [===] on two arrays compares identities, not contents. *)
Inductive jsval :=
| JUndefined
| JNull
| JStr (s : string)
| JNum (n : Z)
| JArr (ref : nat) (items : list string)
| JDate (ref : nat) (d : Date).

#[global] Instance Date_eq_dec : EqDecision Date.
Proof. solve_decision. Defined.
#[global] Instance jsval_eq_dec : EqDecision jsval.
Proof. solve_decision. Defined.

(** [a === b] *)
Definition strict_eq (a b : jsval) : bool :=
  match a, b with
  | JUndefined, JUndefined => true
  | JNull, JNull => true
  | JStr s, JStr t => bool_decide (s = t)
  | JNum n, JNum m => bool_decide (n = m)
  | JArr r _, JArr r' _ => bool_decide (r = r')
  | JDate r _, JDate r' _ => bool_decide (r = r')
  | _, _ => false
  end.

(** [a !== b] *)
Definition strict_neq (a b : jsval) : bool := negb (strict_eq a b).

(** Truthiness of a string and of a number. *)
Definition truthy_str (s : string) : bool := negb (bool_decide (s = "")).
Definition truthy_num (n : Z) : bool := negb (bool_decide (n = 0)).

Definition truthy_ostr (o : option string) : bool :=
  match o with Some s => truthy_str s | None => false end.
Definition truthy_onum (o : option Z) : bool :=
  match o with Some n => truthy_num n | None => false end.

(** *** Numbers

    A number of the host language is a double.  The handlers compute on
    doubles whose value is an integer: [double n] is the double nearest to
    the integer [n], ties to even, that is, the result of an addition, a
    subtraction or a product of such doubles whose exact value is [n].
    Every integer up to [2 ^ 53] in absolute value is a double.  (Beyond
    the largest double the result is an infinity; the only use made of so
    large a number here is to hand it to the database, which refuses it as
    it refuses the integer.) *)
Definition double (n : Z) : Z :=
  let m := Z.abs n in
  if bool_decide (m <= 2 ^ 53) then n
  else
    let e := Z.log2 m - 52 in
    let q := m / 2 ^ e in
    let r := m mod 2 ^ e in
    let q' :=
      if bool_decide (2 ^ (e - 1) < r)
         || (bool_decide (r = 2 ^ (e - 1)) && Z.odd q)
      then q + 1 else q in
    Z.sgn n * (q' * 2 ^ e).

(** The largest value of the type [bigint] of the database. *)
Definition max_bigint : Z := 2 ^ 63 - 1.

(** A number read from a CSV cell is a finite number that need not be
    whole: the quotient [Qnum x / Qden x].  Its truthiness, the comparison
    [x < y], and the integer it is when [Number.isInteger(x)]. *)
Definition truthy_Q (x : Q) : bool := negb (bool_decide (Qnum x = 0)).

Definition less_Q (x y : Q) : bool :=
  bool_decide (Qnum x * Z.pos (Qden y) < Qnum y * Z.pos (Qden x)).

Definition whole (x : Q) : option Z :=
  if bool_decide (Qnum x mod Z.pos (Qden x) = 0)
  then Some (Qnum x / Z.pos (Qden x)) else None.

(** *** String primitives *)

Definition chars (s : string) : list ascii := String.list_ascii_of_string s.
Definition unchars (l : list ascii) : string := String.string_of_list_ascii l.

Definition code (c : ascii) : nat := nat_of_ascii c.

Definition is_digit (c : ascii) : bool :=
  (Nat.leb 48 (code c)) && (Nat.leb (code c) 57).

(** White space removed by [trim], among the code units below 256: TAB,
    LF, VT, FF, CR, SPACE and the no-break space U+00A0. *)
Definition is_space (c : ascii) : bool :=
  ((Nat.leb 9 (code c)) && (Nat.leb (code c) 13)) || Nat.eqb (code c) 32
  || Nat.eqb (code c) 160.

Fixpoint drop_spaces (l : list ascii) : list ascii :=
  match l with
  | c :: l' => if is_space c then drop_spaces l' else l
  | [] => []
  end.

(** [s.trim()] *)
Definition trim (s : string) : string :=
  unchars (rev (drop_spaces (rev (drop_spaces (chars s))))).

Definition lower (c : ascii) : ascii :=
  if (Nat.leb 65 (code c)) && (Nat.leb (code c) 90)
  then ascii_of_nat (code c + 32) else c.

(** [s.toLowerCase()] *)
Definition toLowerCase (s : string) : string := unchars (map lower (chars s)).

(** [s.split(sep)] for a one-character separator: the pieces between
    the separators, at least one piece. *)
Fixpoint split_on (sep : ascii) (cur : list ascii) (l : list ascii)
  : list (list ascii) :=
  match l with
  | [] => [rev cur]
  | c :: l' =>
      if bool_decide (c = sep)
      then rev cur :: split_on sep [] l'
      else split_on sep (c :: cur) l'
  end.

(** [s.split(',')] *)
Definition split_comma (s : string) : list string :=
  unchars <$> split_on "," [] (chars s).

(** [String(arr)], that is [arr.join(',')]. *)
Fixpoint join_comma (l : list string) : string :=
  match l with
  | [] => ""
  | [s] => s
  | s :: l' => s +:+ "," +:+ join_comma l'
  end.

(** [s.split(',').map(t => t.trim()).filter(Boolean)] *)
Definition split_tags (s : string) : list string :=
  List.filter truthy_str (map trim (split_comma s)).

(* ===================================================================== *)
(** ** lib/validations.ts *)
(* ===================================================================== *)

(** *** The closed sets *)

Inductive City := Chandigarh | Mohali | Zirakpur | Panchkula | OtherCity.
Inductive PropertyType := Apartment | Villa | Plot | Office | Retail.
Inductive BHK := Bhk1 | Bhk2 | Bhk3 | Bhk4 | Studio.
Inductive Purpose := Buy | Rent.
Inductive Timeline := T0_3m | T3_6m | TOver6m | Exploring.
Inductive Source := Website | Referral | WalkIn | Call | OtherSource.
Inductive Status :=
  New | Qualified | Contacted | Visited | Negotiation | Converted | Dropped.

#[global] Instance City_eq_dec : EqDecision City.
Proof. solve_decision. Defined.
#[global] Instance PropertyType_eq_dec : EqDecision PropertyType.
Proof. solve_decision. Defined.
#[global] Instance BHK_eq_dec : EqDecision BHK.
Proof. solve_decision. Defined.
#[global] Instance Purpose_eq_dec : EqDecision Purpose.
Proof. solve_decision. Defined.
#[global] Instance Timeline_eq_dec : EqDecision Timeline.
Proof. solve_decision. Defined.
#[global] Instance Source_eq_dec : EqDecision Source.
Proof. solve_decision. Defined.
#[global] Instance Status_eq_dec : EqDecision Status.
Proof. solve_decision. Defined.

(** An enum schema is the list of its members with their spelling;
    parsing a string looks the spelling up. *)
Definition enum (A : Type) := list (string * A).

Definition cityEnum : enum City :=
  [("Chandigarh", Chandigarh); ("Mohali", Mohali); ("Zirakpur", Zirakpur);
   ("Panchkula", Panchkula); ("Other", OtherCity)].
Definition propertyTypeEnum : enum PropertyType :=
  [("Apartment", Apartment); ("Villa", Villa); ("Plot", Plot);
   ("Office", Office); ("Retail", Retail)].
Definition bhkEnum : enum BHK :=
  [("1", Bhk1); ("2", Bhk2); ("3", Bhk3); ("4", Bhk4); ("Studio", Studio)].
Definition purposeEnum : enum Purpose := [("Buy", Buy); ("Rent", Rent)].
Definition timelineEnum : enum Timeline :=
  [("0-3m", T0_3m); ("3-6m", T3_6m); (">6m", TOver6m); ("Exploring", Exploring)].
Definition sourceEnum : enum Source :=
  [("Website", Website); ("Referral", Referral); ("Walk-in", WalkIn);
   ("Call", Call); ("Other", OtherSource)].
Definition statusEnum : enum Status :=
  [("New", New); ("Qualified", Qualified); ("Contacted", Contacted);
   ("Visited", Visited); ("Negotiation", Negotiation);
   ("Converted", Converted); ("Dropped", Dropped)].

Fixpoint enum_parse {A} (e : enum A) (s : string) : option A :=
  match e with
  | [] => None
  | (k, v) :: e' => if bool_decide (k = s) then Some v else enum_parse e' s
  end.

Fixpoint enum_show {A} `{EqDecision A} (e : enum A) (a : A) : string :=
  match e with
  | [] => ""
  | (k, v) :: e' => if bool_decide (v = a) then k else enum_show e' a
  end.

(** *** The shape shared by the three buyer schemas

    [Nm] is the type of the budgets: an integer in a JSON body and in a
    stored row, a number that need not be whole in a row of a CSV file.
    [St] and [Tg] are the types of [status] and [tags]: optional in a
    candidate (the schema supplies the defaults), definite in its output. *)
Record BuyerShape (Nm St Tg : Type) := mkBuyer {
  fullName : string;
  email : option string;
  phone : string;
  city : City;
  propertyType : PropertyType;
  bhk : option BHK;
  purpose : Purpose;
  budgetMin : option Nm;
  budgetMax : option Nm;
  timeline : Timeline;
  source : Source;
  status : St;
  notes : option string;
  tags : Tg;
}.
Arguments mkBuyer {Nm St Tg}.
Arguments fullName {Nm St Tg} _.
Arguments email {Nm St Tg} _.
Arguments phone {Nm St Tg} _.
Arguments city {Nm St Tg} _.
Arguments propertyType {Nm St Tg} _.
Arguments bhk {Nm St Tg} _.
Arguments purpose {Nm St Tg} _.
Arguments budgetMin {Nm St Tg} _.
Arguments budgetMax {Nm St Tg} _.
Arguments timeline {Nm St Tg} _.
Arguments source {Nm St Tg} _.
Arguments status {Nm St Tg} _.
Arguments notes {Nm St Tg} _.
Arguments tags {Nm St Tg} _.

(** A candidate record: every field has its declared type, optional
    fields may be absent. *)
Definition BuyerInput := BuyerShape Z (option Status) (option (list string)).
(** A parsed record: [status] and [tags] are always set. *)
Definition BuyerData := BuyerShape Z Status (list string).
(** [CsvBuyer], the output of [csvBuyerSchema]: the budgets are the
    numbers of the row. *)
Definition CsvBuyer := BuyerShape Q Status (list string).

#[global] Instance BuyerShape_eq_dec {Nm St Tg}
  `{EqDecision Nm, EqDecision St, EqDecision Tg} :
  EqDecision (BuyerShape Nm St Tg).
Proof. solve_decision. Defined.

(** One violated constraint: the field it is reported on and its message. *)
Record ZodIssue := mkIssue { path : string; message : string }.

#[global] Instance ZodIssue_eq_dec : EqDecision ZodIssue.
Proof. solve_decision. Defined.

Definition unless (ok : bool) (p m : string) : list ZodIssue :=
  if ok then [] else [mkIssue p m].

(** [/^\d{10,15}$/] *)
Definition phone_regex (s : string) : bool :=
  (Nat.leb 10 (String.length s)) && (Nat.leb (String.length s) 15)
  && forallb is_digit (chars s).

(** [['Apartment', 'Villa'].includes(data.propertyType)] *)
Definition residential (p : PropertyType) : bool :=
  bool_decide (p = Apartment) || bool_decide (p = Villa).

(** The string a bedroom category is spelled with, when there is one. *)
Definition bhk_str (o : option BHK) : option string := enum_show bhkEnum <$> o.

(** First refinement: BHK required for Apartment and Villa. *)
Definition refine_bhk {Nm St Tg} (data : BuyerShape Nm St Tg) : bool :=
  if residential (propertyType data) && negb (truthy_ostr (bhk_str (bhk data)))
  then false else true.

(** Second refinement: budget max must be >= budget min. *)
Definition refine_budget {St Tg} (data : BuyerShape Z St Tg) : bool :=
  match budgetMin data, budgetMax data with
  | Some lo, Some hi =>
      if truthy_num lo && truthy_num hi && bool_decide (hi < lo)
      then false else true
  | _, _ => true
  end.

(** The second refinement of [csvBuyerSchema], on the numbers of a row. *)
Definition csv_refine_budget (data : CsvBuyer) : bool :=
  match budgetMin data, budgetMax data with
  | Some lo, Some hi =>
      if truthy_Q lo && truthy_Q hi && less_Q hi lo
      then false else true
  | _, _ => true
  end.

Definition bhk_required : ZodIssue :=
  mkIssue "bhk" "BHK is required for Apartment and Villa properties".
Definition budget_order : ZodIssue :=
  mkIssue "budgetMax"
    "Maximum budget must be greater than or equal to minimum budget".

Definition refinement_issues {St Tg} (data : BuyerShape Z St Tg) : list ZodIssue :=
  (if refine_bhk data then [] else [bhk_required])
  ++ (if refine_budget data then [] else [budget_order]).

Definition positive_issue (p : string) (o : option Z) : list ZodIssue :=
  match o with
  | Some n => unless (bool_decide (0 < n)) p "Budget must be positive"
  | None => []
  end.

Section Schemas.
(** The format checks of the schema library. *)
Variables isEmail isUuid isDatetime : string -> bool.

(** [z.string().email(m).optional().or(z.literal(''))] *)
Definition email_issue (o : option string) : list ZodIssue :=
  match o with
  | Some e => unless (isEmail e || bool_decide (e = "")) "email" "Invalid email format"
  | None => []
  end.

(** [z.string().max(1000, m).optional().or(z.literal(''))] *)
Definition notes_issue (o : option string) : list ZodIssue :=
  match o with
  | Some n => unless (Nat.leb (String.length n) 1000 || bool_decide (n = ""))
                "notes" "Notes must be at most 1000 characters"
  | None => []
  end.

(** The checks of the object schema, in the order of its keys.  The
    fields of the closed sets and [tags] have nothing to check on a
    candidate of the declared type, nor has [.int()] on a budget, which a
    candidate holds as a whole number. *)
Definition field_issues {St Tg} (data : BuyerShape Z St Tg) : list ZodIssue :=
  unless (Nat.leb 2 (String.length (fullName data)))
    "fullName" "Full name must be at least 2 characters"
  ++ unless (Nat.leb (String.length (fullName data)) 80)
    "fullName" "Full name must be at most 80 characters"
  ++ email_issue (email data)
  ++ unless (phone_regex (phone data)) "phone" "Phone must be 10-15 digits"
  ++ positive_issue "budgetMin" (budgetMin data)
  ++ positive_issue "budgetMax" (budgetMax data)
  ++ notes_issue (notes data).

(** [status: statusEnum.default('New')], [tags: z.array(z.string()).default([])] *)
Definition with_defaults (data : BuyerInput) : BuyerData :=
  mkBuyer (fullName data) (email data) (phone data) (city data)
    (propertyType data) (bhk data) (purpose data) (budgetMin data)
    (budgetMax data) (timeline data) (source data)
    (default New (status data)) (notes data) (default [] (tags data)).

(** Every violation [buyerSchema] reports on a candidate: those of the
    object, then those of the two refinements. *)
Definition buyerSchema_issues (data : BuyerInput) : list ZodIssue :=
  field_issues data ++ refinement_issues (with_defaults data).

(** [buyerSchema.safeParse(data)] *)
Definition buyerSchema (data : BuyerInput) : BuyerData + list ZodIssue :=
  match buyerSchema_issues data with
  | [] => inl (with_defaults data)
  | issues => inr issues
  end.

(** [createBuyerSchema = buyerSchema] *)
Definition createBuyerSchema := buyerSchema.

(** The body of an update: the buyer fields with the record id and the
    concurrency token. *)
Record UpdateInput := mkUpdate {
  body_id : string;
  body_fields : BuyerInput;
  body_updatedAt : string;
}.

(** The output of [updateBuyerSchema]. *)
Record UpdateBuyer := mkValidUpdate {
  upd_id : string;
  upd_fields : BuyerData;
  upd_updatedAt : string;
}.

Definition updateBuyerSchema_issues (body : UpdateInput) : list ZodIssue :=
  unless (isUuid (body_id body)) "id" "Invalid uuid"
  ++ field_issues (body_fields body)
  ++ unless (isDatetime (body_updatedAt body)) "updatedAt" "Invalid datetime"
  ++ refinement_issues (with_defaults (body_fields body)).

(** [updateBuyerSchema.safeParse(body)] *)
Definition updateBuyerSchema (body : UpdateInput) : UpdateBuyer + list ZodIssue :=
  match updateBuyerSchema_issues body with
  | [] => inl (mkValidUpdate (body_id body) (with_defaults (body_fields body))
                 (body_updatedAt body))
  | issues => inr issues
  end.
End Schemas.

(* ===================================================================== *)
(** ** schema.ts: the tables *)
(* ===================================================================== *)

(** A row of [buyers]. *)
Record Buyer := mkRow {
  buyer_id : string;
  fields : BuyerData;
  ownerId : string;
  createdAt : Date;
  updatedAt : Date;
}.

(** The [diff] column of [buyer_history]: a map from field name to
    [{from, to}], or, for an imported row, [{from: {}, to: rowData}]. *)
Inductive Diff :=
| FieldDiff (d : gmap string (jsval * jsval))
| ImportDiff (rowData : BuyerData) (owner : string) (created updated : Date).

(** A row of [buyer_history] (its surrogate key, which nothing reads, is
    left out). *)
Record HistoryEntry := mkHistory {
  buyerId : string;
  changedBy : string;
  changedAt : Date;
  diff : Diff;
}.

Record Store := mkStore {
  buyers : list Buyer;
  buyerHistory : list HistoryEntry;
}.

#[global] Instance Buyer_eq_dec : EqDecision Buyer.
Proof. solve_decision. Defined.
#[global] Instance Diff_eq_dec : EqDecision Diff.
Proof. solve_decision. Defined.
#[global] Instance HistoryEntry_eq_dec : EqDecision HistoryEntry.
Proof. solve_decision. Defined.
#[global] Instance Store_eq_dec : EqDecision Store.
Proof. solve_decision. Defined.

Definition has_id (key : string) (b : Buyer) : bool :=
  bool_decide (buyer_id b = key).
Definition refers_to (key : string) (h : HistoryEntry) : bool :=
  bool_decide (buyerId h = key).

(** [const [row] = await db.select().from(buyers).where(eq(buyers.id, key))] *)
Definition select_buyer (st : Store) (key : string) : option Buyer :=
  List.find (has_id key) (buyers st).

(** The history rows of one buyer. *)
Definition history_of (st : Store) (key : string) : list HistoryEntry :=
  List.filter (refers_to key) (buyerHistory st).

(** Primary key of [buyers]: the new ids are pairwise distinct and none
    is taken. *)
Fixpoint pk_free (taken : list string) (rows : list Buyer) : bool :=
  match rows with
  | [] => true
  | r :: rows' =>
      negb (bool_decide (buyer_id r ∈ taken))
      && pk_free (buyer_id r :: taken) rows'
  end.

(** The type [integer] of the database. *)
Definition int4 (n : Z) : bool :=
  bool_decide (- 2 ^ 31 <= n) && bool_decide (n <= 2 ^ 31 - 1).

(** The type [varchar(n)]: a text of more than [n] characters is refused.
    (One whose excess is white space only would be cut instead; the texts
    that come to these columns are trimmed or have none.) *)
Definition varchar (n : nat) (s : string) : bool := Nat.leb (String.length s) n.

(** The values of a row of [buyers] fit the types of their columns:
    [varchar(80)], [varchar(255)], [varchar(15)] and twice [integer]. *)
Definition fits_columns (b : Buyer) : bool :=
  varchar 80 (fullName (fields b))
  && from_option (varchar 255) true (email (fields b))
  && varchar 15 (phone (fields b))
  && from_option int4 true (budgetMin (fields b))
  && from_option int4 true (budgetMax (fields b)).

(** [db.insert(buyers).values(rows)]; [None] when the statement raises: a
    value that does not fit its column, or an id that is taken. *)
Definition insert_buyers (rows : list Buyer) (st : Store) : option Store :=
  if forallb fits_columns rows && pk_free (buyer_id <$> buyers st) rows
  then Some (mkStore (buyers st ++ rows) (buyerHistory st))
  else None.

(** [db.insert(buyerHistory).values(h)]: [buyer_id] references [buyers.id]. *)
Definition insert_history (h : HistoryEntry) (st : Store) : option Store :=
  if existsb (has_id (buyerId h)) (buyers st)
  then Some (mkStore (buyers st) (buyerHistory st ++ [h]))
  else None.

(** [db.update(buyers).set(..).where(eq(buyers.id, key)).returning()]:
    the rows with id [key] become [set row].  The new values must fit
    their columns.  When the update changes the id, the new id must be
    free and no history row may reference the old one (the foreign key has
    no update action). *)
Definition update_buyer (key : string) (set : Buyer -> Buyer) (st : Store)
  : option (Store * list Buyer) :=
  let hit := List.filter (has_id key) (buyers st) in
  let rest := List.filter (fun b => negb (has_id key b)) (buyers st) in
  let moved := List.filter (fun b => negb (has_id key (set b))) hit in
  if forallb fits_columns (set <$> hit)
     && pk_free (buyer_id <$> rest) (set <$> hit)
     && (bool_decide (moved = []) || bool_decide (history_of st key = []))
  then Some (mkStore
               ((fun b => if has_id key b then set b else b) <$> buyers st)
               (buyerHistory st),
             set <$> hit)
  else None.

(** [db.delete(buyers).where(eq(buyers.id, key))]: the history rows that
    reference a deleted buyer are deleted with it ([onDelete: "cascade"]). *)
Definition delete_buyer (key : string) (st : Store) : Store :=
  mkStore (List.filter (fun b => negb (has_id key b)) (buyers st))
          (List.filter (fun h => negb (refers_to key h)) (buyerHistory st)).

(* ===================================================================== *)
(** ** Requests and responses *)
(* ===================================================================== *)

(** What a handler reads of the incoming request besides its payload. *)
Record NextRequest := mkRequest {
  ip : option string;
  x_forwarded_for : option string;
}.

(** The clock and the random source a request is served with:
    [new Date()], [Date.now()] and the successive results of [uuidv4()]
    (or of the [defaultRandom()] of a primary key). *)
Record Env := mkEnv {
  now : Date;
  now_ms : Z;
  uuidv4 : nat -> string;
}.

(** [session?.user?.id], when there is one. *)
Definition Session := option string.

(** The guard [if (!session?.user?.id)]: the id of the signed-in user. *)
Definition signed_in (session : Session) : option string :=
  match session with
  | Some uid => if truthy_str uid then Some uid else None
  | None => None
  end.

Inductive Body (A : Type) :=
| Json (a : A)
| Error (error : string).
Arguments Json {A} a.
Arguments Error {A} error.

(** [NextResponse.json(body, { status })] *)
Record Response (A : Type) := mkResponse {
  http_status : nat;
  body : Body A;
}.
Arguments mkResponse {A}.
Arguments http_status {A} _.
Arguments body {A} _.

Definition json {A} (st : nat) (a : A) : Response A := mkResponse st (Json a).
Definition fail {A} (st : nat) (e : string) : Response A := mkResponse st (Error e).

(* ===================================================================== *)
(** ** lib/rateLimit.ts *)
(* ===================================================================== *)

Module RateLimit.

Inductive RateLimitKey := CREATE_BUYER | UPDATE_BUYER.

Definition RATE_LIMITS (k : RateLimitKey) : string :=
  match k with
  | CREATE_BUYER => "10 per minute"
  | UPDATE_BUYER => "20 per minute"
  end.

Record LimitConfig := mkLimit { cfg_limit : Z; cfg_window : string }.

Definition limits : gmap string LimitConfig :=
  <["10 per minute" := mkLimit 10 "1m"]>
    (<["20 per minute" := mkLimit 20 "1m"]> ∅).

Record Result := mkResult {
  success : bool;
  limit : Z;
  remaining : Z;
  reset : Z;
}.

(** [a || b] on strings that may be missing. *)
Definition or_str (a b : option string) : option string :=
  if truthy_ostr a then a else b.

Definition rateLimiter (env : Env) (request : NextRequest)
    (limit : Z) (window : string) : Result :=
  let ip := or_str (or_str (ip request) (x_forwarded_for request)) (Some "") in
  let key := "rate-limit:" +:+ default "" ip in
  {| success := true;
     limit := limit;
     remaining := limit - 1;
     reset := now_ms env + 60000 |}.

(** [None]: the configuration has no entry to destructure, the call
    raises. *)
Definition check (env : Env) (request : NextRequest) (limitType : RateLimitKey)
  : option Result :=
  match limits !! RATE_LIMITS limitType with
  | Some cfg => Some (rateLimiter env request (cfg_limit cfg) (cfg_window cfg))
  | None => None
  end.

End RateLimit.

(* ===================================================================== *)
(** ** Objects *)
(* ===================================================================== *)

(** An object with string keys, in the order the keys were set. *)
Definition JsObject := list (string * jsval).

(** [Object.keys(o)] *)
Definition keys (o : JsObject) : list string := fst <$> o.

(** [o[key]] *)
Fixpoint prop (o : JsObject) (key : string) : jsval :=
  match o with
  | [] => JUndefined
  | (k, v) :: o' => if bool_decide (k = key) then v else prop o' key
  end.

Definition nullable {A} (f : A -> jsval) (o : option A) : jsval :=
  match o with Some a => f a | None => JNull end.

(** A key of an object schema's output is set only when it has a value. *)
Definition optional {A} (key : string) (f : A -> jsval) (o : option A) : JsObject :=
  match o with Some a => [(key, f a)] | None => [] end.

Definition show_city := enum_show cityEnum.
Definition show_propertyType := enum_show propertyTypeEnum.
Definition show_bhk := enum_show bhkEnum.
Definition show_purpose := enum_show purposeEnum.
Definition show_timeline := enum_show timelineEnum.
Definition show_source := enum_show sourceEnum.
Definition show_status := enum_show statusEnum.

(** The object the driver builds for a selected row; the array of [tags]
    and the two dates are allocated at [r], [r+1] and [r+2]. *)
Definition row_object (r : nat) (b : Buyer) : JsObject :=
  let d := fields b in
  [("id", JStr (buyer_id b));
   ("fullName", JStr (fullName d));
   ("email", nullable JStr (email d));
   ("phone", JStr (phone d));
   ("city", JStr (show_city (city d)));
   ("propertyType", JStr (show_propertyType (propertyType d)));
   ("bhk", nullable JStr (show_bhk <$> bhk d));
   ("purpose", JStr (show_purpose (purpose d)));
   ("budgetMin", nullable JNum (budgetMin d));
   ("budgetMax", nullable JNum (budgetMax d));
   ("timeline", JStr (show_timeline (timeline d)));
   ("source", JStr (show_source (source d)));
   ("status", JStr (show_status (status d)));
   ("notes", nullable JStr (notes d));
   ("tags", JArr r (tags d));
   ("ownerId", JStr (ownerId b));
   ("createdAt", JDate (r + 1) (createdAt b));
   ("updatedAt", JDate (r + 2) (updatedAt b))].

(** The object [updateBuyerSchema.parse] returns; its [tags] array is
    allocated at [r]. *)
Definition update_object (r : nat) (v : UpdateBuyer) : JsObject :=
  let d := upd_fields v in
  [("id", JStr (upd_id v)); ("fullName", JStr (fullName d))]
  ++ optional "email" JStr (email d)
  ++ [("phone", JStr (phone d));
      ("city", JStr (show_city (city d)));
      ("propertyType", JStr (show_propertyType (propertyType d)))]
  ++ optional "bhk" JStr (show_bhk <$> bhk d)
  ++ [("purpose", JStr (show_purpose (purpose d)))]
  ++ optional "budgetMin" JNum (budgetMin d)
  ++ optional "budgetMax" JNum (budgetMax d)
  ++ [("timeline", JStr (show_timeline (timeline d)));
      ("source", JStr (show_source (source d)));
      ("status", JStr (show_status (status d)))]
  ++ optional "notes" JStr (notes d)
  ++ [("tags", JArr r (tags d)); ("updatedAt", JStr (upd_updatedAt v))].

(* ===================================================================== *)
(** ** api/buyers/[id]/route.ts *)
(* ===================================================================== *)

Module BuyerById.

(** The loop that fills [diff]: one step per key of [validatedData]. *)
Definition diff_step (currentBuyer validatedData : JsObject)
    (diff : gmap string (jsval * jsval)) (key : string)
  : gmap string (jsval * jsval) :=
  if negb (bool_decide (key = "id")) && negb (bool_decide (key = "updatedAt"))
     && strict_neq (prop currentBuyer key) (prop validatedData key)
  then <[key := (prop currentBuyer key, prop validatedData key)]> diff
  else diff.

Definition compute_diff (currentBuyer validatedData : JsObject)
  : gmap string (jsval * jsval) :=
  foldl (diff_step currentBuyer validatedData) ∅ (keys validatedData).

(** A column is written only when its key is set. *)
Definition written {A} (new old : option A) : option A :=
  match new with Some a => Some a | None => old end.

(** [.set({ ...validatedData, updatedAt: new Date() })] *)
Definition set_columns (validatedData : UpdateBuyer) (env : Env) (b : Buyer) : Buyer :=
  let v := upd_fields validatedData in
  let d := fields b in
  mkRow (upd_id validatedData)
    (mkBuyer (fullName v) (written (email v) (email d)) (phone v) (city v)
       (propertyType v) (written (bhk v) (bhk d)) (purpose v)
       (written (budgetMin v) (budgetMin d))
       (written (budgetMax v) (budgetMax d)) (timeline v) (source v)
       (status v) (written (notes v) (notes d)) (tags v))
    (ownerId b) (createdAt b) (now env).

Record PutRequest := mkPut {
  put_session : Session;
  put_request : NextRequest;
  put_params_id : string;
  put_body : UpdateInput;
}.

Definition conflict_message : string :=
  "Record has been modified by another user. Please refresh and try again.".

Section Handlers.
Variables isEmail isUuid isDatetime : string -> bool.

(** PUT /api/buyers/[id] - Update buyer *)
Definition PUT (env : Env) (st : Store) (r : PutRequest)
  : Store * Response (option Buyer) :=
  match signed_in (put_session r) with
  | None => (st, fail 401 "Unauthorized")
  | Some uid =>
  match RateLimit.check env (put_request r) RateLimit.UPDATE_BUYER with
  | None => (st, fail 500 "Internal server error")
  | Some rateLimit =>
  if negb (RateLimit.success rateLimit)
  then (st, fail 429 "Too many requests. Please try again later.")
  else
  match updateBuyerSchema isEmail isUuid isDatetime (put_body r) with
  | inr _ => (st, fail 400 "Validation failed")
  | inl validatedData =>
  match select_buyer st (put_params_id r) with
  | None => (st, fail 404 "Buyer not found")
  | Some currentBuyer =>
  if negb (bool_decide (ownerId currentBuyer = uid))
  then (st, fail 403 "Forbidden")
  else if negb (bool_decide (toISOString (updatedAt currentBuyer)
                             = upd_updatedAt validatedData))
  then (st, fail 409 conflict_message)
  else
    let diff := compute_diff (row_object 1 currentBuyer)
                             (update_object 0 validatedData) in
    match update_buyer (put_params_id r) (set_columns validatedData env) st with
    | None => (st, fail 500 "Internal server error")
    | Some (st1, returning) =>
        if bool_decide (0 < size diff)%nat
        then match insert_history
                     (mkHistory (put_params_id r) uid (now env) (FieldDiff diff))
                     st1 with
             | None => (st1, fail 500 "Internal server error")
             | Some st2 => (st2, json 200 (head returning))
             end
        else (st1, json 200 (head returning))
    end
  end end end end.

(** DELETE /api/buyers/[id] - Delete buyer *)
Definition DELETE (st : Store) (session : Session) (params_id : string)
  : Store * Response bool :=
  match signed_in session with
  | None => (st, fail 401 "Unauthorized")
  | Some uid =>
  match select_buyer st params_id with
  | None => (st, fail 404 "Buyer not found")
  | Some currentBuyer =>
  if negb (bool_decide (ownerId currentBuyer = uid))
  then (st, fail 403 "Forbidden")
  else (delete_buyer params_id st, json 200 true)
  end end.
End Handlers.

Section Read.
(** The rows of a selection of [buyer_history] in the order of
    [ORDER BY changed_at DESC]. *)
Variable newest_first : list HistoryEntry -> list HistoryEntry.
(** The input function of the [uuid] type of the database, applied to the
    text the comparison [eq(buyers.id, params.id)] is given: the canonical
    spelling of the id, in which a stored id is rendered, or [None] when
    the text is no UUID and the statement raises. *)
Variable uuid_in : string -> option string.

(** GET /api/buyers/[id] - Get single buyer, with its history (the
    columns of the selected entries other than the surrogate key).  A
    statement that raises is answered by the [catch] of the handler. *)
Definition GET (st : Store) (session : Session) (params_id : string)
  : Response (Buyer * list HistoryEntry) :=
  match signed_in session with
  | None => fail 401 "Unauthorized"
  | Some _ =>
  match uuid_in params_id with
  | None => fail 500 "Internal server error"
  | Some key =>
  match select_buyer st key with
  | None => fail 404 "Buyer not found"
  | Some buyer =>
      json 200 (buyer, take 5 (newest_first (history_of st key)))
  end end end.
End Read.

End BuyerById.

(* ===================================================================== *)
(** ** api/buyers/import/route.ts *)
(* ===================================================================== *)

Module ImportRoute.

(** A row of [parseResult.data] once the clean-up pass has kept the
    schema fields: text cells are strings, budget cells numbers, the
    tags cell an array; an empty or missing cell is [undefined]. *)
Record CsvRow := mkCsvRow {
  row_fullName : option string;
  row_email : option string;
  row_phone : option string;
  row_city : option string;
  row_propertyType : option string;
  row_bhk : option string;
  row_purpose : option string;
  row_budgetMin : option Q;
  row_budgetMax : option Q;
  row_timeline : option string;
  row_source : option string;
  row_status : option string;
  row_notes : option string;
  row_tags : option (list string);
}.

Record TransformedRow := mkTransformed {
  t_fullName : string;
  t_email : string;
  t_phone : string;
  t_city : string;
  t_propertyType : string;
  t_bhk : option string;
  t_purpose : string;
  t_budgetMin : option Q;
  t_budgetMax : option Q;
  t_timeline : string;
  t_source : string;
  t_status : string;
  t_notes : string;
  t_tags : list string;
}.



(** [String(cell || '').trim()] *)
Definition text (cell : option string) : string := trim (default "" cell).

(** [cell ? String(cell).trim() : otherwise] *)
Definition text_or {A} (f : string -> A) (otherwise : A) (cell : option string) : A :=
  match cell with
  | Some s => if truthy_str s then f (trim s) else otherwise
  | None => otherwise
  end.

(** [cell ? Number(cell) : undefined] *)
Definition number (cell : option Q) : option Q :=
  match cell with
  | Some n => if truthy_Q n then Some n else None
  | None => None
  end.

Definition transform (row : CsvRow) : TransformedRow :=
  {| t_fullName := text (row_fullName row);
     t_email := text_or toLowerCase "" (row_email row);
     t_phone := text (row_phone row);
     t_city := text (row_city row);
     t_propertyType := text (row_propertyType row);
     t_bhk := text_or Some None (row_bhk row);
     t_purpose := text (row_purpose row);
     t_budgetMin := number (row_budgetMin row);
     t_budgetMax := number (row_budgetMax row);
     t_timeline := text (row_timeline row);
     t_source := text (row_source row);
     t_status := text_or (fun s => s) "New" (row_status row);
     t_notes := text_or (fun s => s) "" (row_notes row);
     t_tags := match row_tags row with
               | Some arr => split_tags (join_comma arr)
               | None => []
               end |}.

(** Why a row was not accepted: the error thrown inside the loop body. *)
Inductive RowFailure :=
| DuplicatePhone (rowNumber : nat)
| DuplicateEmail (rowNumber : nat)
| SchemaViolation
| AlreadyExists.

Record ImportError := mkError {
  row : nat;
  message : RowFailure;
  data : CsvRow;
}.

(** A parse error of the CSV reader. *)
Record ParseError := mkParseError { err_type : string; err_code : string }.

(** The uploaded file with what the CSV reader made of its text. *)
Record CsvFile := mkFile {
  file_type : string;
  file_name : string;
  parse_errors : list ParseError;
  parse_data : list CsvRow;
}.

(** The [message] of the result: "Successfully imported n rows", or
    "Imported n rows with m errors". *)
Inductive ImportMessage :=
| SuccessfullyImported (n : nat)
| ImportedWithErrors (n m : nat).

Record ImportResult := mkResult {
  success : bool;
  result_message : ImportMessage;
  imported : nat;
  errors : list ImportError;
  validCount : nat;
  totalCount : nat;
  hasMoreErrors : bool;
}.

(** [name.endsWith(suffix)] *)
Definition endsWith (name suffix : string) : bool :=
  String.prefix (unchars (rev (chars suffix))) (unchars (rev (chars name))).

Definition critical (e : ParseError) : bool :=
  negb (bool_decide (err_type e = "FieldMismatch"))
  || (bool_decide (err_type e = "FieldMismatch")
      && negb (bool_decide (err_code e = "TooManyFields"))).

(** An element of [validRows]: the validated row with the columns the
    loop adds to it. *)
Record ValidRow := mkValid {
  valid_id : string;
  valid_data : CsvBuyer;
  valid_owner : string;
  valid_createdAt : Date;
  valid_updatedAt : Date;
}.

(** What an [integer] column makes of a budget: the driver sends the text
    of the number, and the column reads the text of a whole number only;
    [None] when it raises. *)
Definition integer_column (o : option Q) : option (option Z) :=
  match o with
  | None => Some None
  | Some x => Some <$> whole x
  end.

(** The values the insert statement writes for a validated row; [None]
    when an [integer] column raises. *)
Definition columns (d : CsvBuyer) : option BuyerData :=
  match integer_column (budgetMin d), integer_column (budgetMax d) with
  | Some lo, Some hi =>
      Some (mkBuyer (fullName d) (email d) (phone d) (city d) (propertyType d)
              (bhk d) (purpose d) lo hi (timeline d) (source d) (status d)
              (notes d) (tags d))
  | _, _ => None
  end.

(** The row of [buyers] written for an element of [validRows]. *)
Definition to_row (v : ValidRow) : option Buyer :=
  (fun d => mkRow (valid_id v) d (valid_owner v)
              (valid_createdAt v) (valid_updatedAt v))
    <$> columns (valid_data v).

(** The query for an existing record of the same owner with the phone of
    the row, or with its email when it has one. *)
Definition find_existing (st : Store) (uid : string) (validatedRow : CsvBuyer)
  : option Buyer :=
  List.find
    (fun b =>
       (bool_decide (phone (fields b) = phone validatedRow)
        && bool_decide (ownerId b = uid))
       || match email validatedRow with
          | Some e => truthy_str e
                      && bool_decide (email (fields b) = Some e)
                      && bool_decide (ownerId b = uid)
          | None => false
          end)
    (buyers st).

Section Handler.
Variable isEmail : string -> bool.

(** The bedroom cell: a member of the closed set, or nothing. *)
Definition csv_bhk (cell : option string) : option (option BHK) :=
  match cell with
  | None => Some None
  | Some s =>
      match enum_parse bhkEnum s with
      | Some b => Some (Some b)
      | None => if bool_decide (s = "") then Some None else None
      end
  end.

(** The email cell: an address, or the empty string read as absent. *)
Definition csv_email (e : string) : option (option string) :=
  if isEmail e then Some (Some e)
  else if bool_decide (e = "") then Some None else None.

(** [csvBuyerSchema.parse(transformedRow)]; [None] when it throws.  A
    budget is checked to be a number and nothing more. *)
Definition csvBuyerSchema (t : TransformedRow) : option CsvBuyer :=
  if negb (Nat.leb 2 (String.length (t_fullName t))
           && Nat.leb (String.length (t_fullName t)) 80) then None else
  match csv_email (t_email t) with None => None | Some email =>
  if negb (phone_regex (t_phone t)) then None else
  match enum_parse cityEnum (t_city t) with None => None | Some city =>
  match enum_parse propertyTypeEnum (t_propertyType t) with
  | None => None | Some propertyType =>
  match csv_bhk (t_bhk t) with None => None | Some bhk =>
  match enum_parse purposeEnum (t_purpose t) with None => None | Some purpose =>
  match enum_parse timelineEnum (t_timeline t) with None => None | Some timeline =>
  match enum_parse sourceEnum (t_source t) with None => None | Some source =>
  if negb (Nat.leb (String.length (t_notes t)) 1000
           || bool_decide (t_notes t = "")) then None else
  match enum_parse statusEnum (t_status t) with None => None | Some status =>
  let data : CsvBuyer :=
    mkBuyer (t_fullName t) email (t_phone t) city propertyType bhk purpose
      (t_budgetMin t) (t_budgetMax t) timeline source status
      (Some (t_notes t)) (t_tags t) in
  if refine_bhk data && csv_refine_budget data then Some data else None
  end end end end end end end end.

(** The body of the loop for the row at index [i]: the accepted row, or
    the error that is recorded for it.  [seenPhones] and [seenEmails]
    are the two sets the loop consults. *)
Definition process_row (env : Env) (st : Store) (uid : string)
    (seenPhones seenEmails : gset string) (validRows : list ValidRow)
    (i : nat) (row : CsvRow) : ValidRow + ImportError :=
  let rowNumber := (i + 2)%nat in
  let transformedRow := transform row in
  if truthy_str (t_phone transformedRow)
     && bool_decide (t_phone transformedRow ∈ seenPhones)
  then inr (mkError rowNumber (DuplicatePhone rowNumber) row)
  else if truthy_str (t_email transformedRow)
          && bool_decide (t_email transformedRow ∈ seenEmails)
  then inr (mkError rowNumber (DuplicateEmail rowNumber) row)
  else
    match csvBuyerSchema transformedRow with
    | None => inr (mkError rowNumber SchemaViolation row)
    | Some validatedRow =>
        match find_existing st uid validatedRow with
        | Some _ => inr (mkError rowNumber AlreadyExists row)
        | None =>
            inl (mkValid (uuidv4 env (length validRows)) validatedRow uid
                   (now env) (now env))
        end
    end.

(** [for (let i = 0; i < rows.length; i++)], from index [i] on.  The
    loop body reads the two sets and never adds to them, so they are
    the same at every iteration. *)
Fixpoint validate_rows (env : Env) (st : Store) (uid : string)
    (seenPhones seenEmails : gset string)
    (i : nat) (rows : list CsvRow)
    (validRows : list ValidRow) (errors : list ImportError)
  : list ValidRow * list ImportError :=
  match rows with
  | [] => (validRows, errors)
  | row :: rest =>
      match process_row env st uid seenPhones seenEmails validRows i row with
      | inl valid =>
          validate_rows env st uid seenPhones seenEmails (S i) rest
            (validRows ++ [valid]) errors
      | inr error =>
          validate_rows env st uid seenPhones seenEmails (S i) rest
            validRows (errors ++ [error])
      end
  end.

(** The history entries written inside the transaction, one for each
    row written. *)
Fixpoint insert_histories (env : Env) (uid : string) (validRows : list Buyer)
    (st : Store) : option Store :=
  match validRows with
  | [] => Some st
  | r :: rest =>
      match insert_history
              (mkHistory (buyer_id r) uid (now env)
                 (ImportDiff (fields r) (ownerId r) (createdAt r) (updatedAt r)))
              st with
      | Some st' => insert_histories env uid rest st'
      | None => None
      end
  end.

(** [db.transaction(..)]: all the rows and their history entries, or
    nothing. *)
Definition transaction (env : Env) (uid : string) (validRows : list ValidRow)
    (st : Store) : option Store :=
  match mapM to_row validRows with
  | None => None
  | Some written =>
      match insert_buyers written st with
      | Some st' => insert_histories env uid written st'
      | None => None
      end
  end.

Definition response (rows : list CsvRow) (validRows : list ValidRow)
    (errors : list ImportError) : Response ImportResult :=
  json (if bool_decide (length errors = 0%nat) then 200 else 207)%nat
    {| success := bool_decide (length errors = 0%nat);
       result_message :=
         if bool_decide (length errors = 0%nat)
         then SuccessfullyImported (length validRows)
         else ImportedWithErrors (length validRows) (length errors);
       imported := length validRows;
       errors := take 100 errors;
       validCount := length validRows;
       totalCount := length rows;
       hasMoreErrors := bool_decide (100 < length errors)%nat |}.

(** POST /api/buyers/import - Import buyers from CSV *)
Definition POST (env : Env) (st : Store) (session : Session)
    (file : option CsvFile) : Store * Response ImportResult :=
  match signed_in session with
  | None => (st, fail 401 "Unauthorized")
  | Some uid =>
  match file with
  | None => (st, fail 400 "No file provided")
  | Some file =>
  if negb (bool_decide (file_type file = "text/csv"))
     && negb (endsWith (file_name file) ".csv")
  then (st, fail 400 "File must be a CSV")
  else if bool_decide (0 < length (List.filter critical (parse_errors file)))%nat
  then (st, fail 400 "CSV parsing failed")
  else
    let rows := parse_data file in
    if bool_decide (length rows = 0%nat)
    then (st, fail 400 "CSV file is empty")
    else if bool_decide (200 < length rows)%nat
    then (st, fail 400 "CSV file too large. Maximum 200 rows allowed.")
    else
      let seenPhones : gset string := ∅ in
      let seenEmails : gset string := ∅ in
      let '(validRows, errors) :=
        validate_rows env st uid seenPhones seenEmails 0 rows [] [] in
      if bool_decide (0 < length validRows)%nat
      then match transaction env uid validRows st with
           | Some st' => (st', response rows validRows errors)
           | None => (st, fail 500 "Import failed")
           end
      else (st, response rows validRows errors)
  end end.
End Handler.

End ImportRoute.

(* ===================================================================== *)
(** ** Filters shared by the listing and the export *)
(* ===================================================================== *)

Section Filters.
(** [ilike value pattern]: the case-insensitive pattern match of the
    database. *)
Variable ilike : string -> string -> bool.

(** [or(ilike(fullName, `%q%`), ilike(email, `%q%`), ilike(phone, `%q%`))];
    a missing email matches nothing. *)
Definition matches_query (q : string) (b : Buyer) : bool :=
  let pattern := "%" +:+ q +:+ "%" in
  ilike (fullName (fields b)) pattern
  || match email (fields b) with Some e => ilike e pattern | None => false end
  || ilike (phone (fields b)) pattern.

(** [and(...conditions)], and no condition at all when the list is empty. *)
Definition and_all (conditions : list (Buyer -> bool)) (b : Buyer) : bool :=
  forallb (fun c => c b) conditions.
End Filters.

(** [Math.ceil(a / b)] *)
Definition ceil_div (a b : Z) : Z := - ((- a) / b).

(* ===================================================================== *)
(** ** api/buyers/route.ts *)
(* ===================================================================== *)

Module BuyersRoute.

Inductive SortBy := ByFullName | ByCreatedAt | ByUpdatedAt.
Inductive SortOrder := Asc | Desc.

Definition sortByEnum : enum SortBy :=
  [("fullName", ByFullName); ("createdAt", ByCreatedAt); ("updatedAt", ByUpdatedAt)].
Definition sortOrderEnum : enum SortOrder := [("asc", Asc); ("desc", Desc)].

(** [Object.fromEntries(searchParams.entries())], at the keys the
    schema knows. *)
Record QueryString := mkQuery {
  q_query : option string;
  q_city : option string;
  q_propertyType : option string;
  q_status : option string;
  q_timeline : option string;
  q_page : option string;
  q_limit : option string;
  q_sortBy : option string;
  q_sortOrder : option string;
}.

(** The output of [searchSchema]. *)
Record SearchParams := mkSearch {
  query : option string;
  by_city : option City;
  by_propertyType : option PropertyType;
  by_status : option Status;
  by_timeline : option Timeline;
  page : Z;
  limit : Z;
  sortBy : SortBy;
  sortOrder : SortOrder;
}.

Record Pagination := mkPagination {
  pg_page : Z;
  pg_limit : Z;
  total : Z;
  pages : Z;
}.

Record Listing := mkListing {
  data : list Buyer;
  pagination : Pagination;
}.

(** [schema.optional()] on an enum: nothing, or a member. *)
Definition optional_enum {A} (e : enum A) (p : option string) : option (option A) :=
  match p with
  | None => Some None
  | Some s => match enum_parse e s with Some a => Some (Some a) | None => None end
  end.

(** [schema.default(d)] on an enum. *)
Definition default_enum {A} (e : enum A) (d : A) (p : option string) : option A :=
  match p with
  | None => Some d
  | Some s => enum_parse e s
  end.

(** The equality filter on one column, when the parameter is set. *)
Definition eq_filter {A} `{EqDecision A} (column : Buyer -> A) (p : option A)
  : list (Buyer -> bool) :=
  match p with
  | Some a => [fun b => bool_decide (column b = a)]
  | None => []
  end.

Section Handlers.
Variable isEmail : string -> bool.
Variable ilike : string -> string -> bool.
(** [parseInt(s)]; [None] stands for [NaN]. *)
Variable parseInt : string -> option Z.
(** The rows of a selection in the order of [ORDER BY column direction]. *)
Variable orderBy : SortBy -> SortOrder -> list Buyer -> list Buyer.

(** [p ? parseInt(p) : d] *)
Definition number_param (p : option string) (d : Z) : option Z :=
  match p with
  | Some s => if truthy_str s then parseInt s else Some d
  | None => Some d
  end.

(** [searchSchema.parse(parsedParams)]; [None] when it throws. *)
Definition searchSchema (params : QueryString) : option SearchParams :=
  match optional_enum cityEnum (q_city params) with None => None | Some city =>
  match optional_enum propertyTypeEnum (q_propertyType params) with
  | None => None | Some propertyType =>
  match optional_enum statusEnum (q_status params) with None => None | Some status =>
  match optional_enum timelineEnum (q_timeline params) with
  | None => None | Some timeline =>
  match number_param (q_page params) 1 with None => None | Some page =>
  if negb (bool_decide (0 < page)) then None else
  match number_param (q_limit params) 10 with None => None | Some limit =>
  if negb (bool_decide (0 < limit) && bool_decide (limit <= 50)) then None else
  match default_enum sortByEnum ByUpdatedAt (q_sortBy params) with
  | None => None | Some sortBy =>
  match default_enum sortOrderEnum Desc (q_sortOrder params) with
  | None => None | Some sortOrder =>
  Some (mkSearch (q_query params) city propertyType status timeline
          page limit sortBy sortOrder)
  end end end end end end end end.

(** The list [conditions] the handler builds. *)
Definition conditions (v : SearchParams) : list (Buyer -> bool) :=
  (match query v with
   | Some q => if truthy_str q then [matches_query ilike q] else []
   | None => []
   end)
  ++ eq_filter (fun b => city (fields b)) (by_city v)
  ++ eq_filter (fun b => propertyType (fields b)) (by_propertyType v)
  ++ eq_filter (fun b => status (fields b)) (by_status v)
  ++ eq_filter (fun b => timeline (fields b)) (by_timeline v).

Definition whereClause (v : SearchParams) : Buyer -> bool :=
  and_all (conditions v).

(** [(validatedParams.page - 1) * validatedParams.limit]: a difference and
    a product of doubles. *)
Definition offset_of (v : SearchParams) : Z :=
  double (double (page v - 1) * limit v).

(** GET /api/buyers - List buyers with search/filter.  The count of a
    table is far below [2 ^ 53], where [Number] of the count and its
    quotient by the page size are exact.  The offset is handed to the
    database as the text of the double, which the query refuses, raising
    into the [catch] of the handler, when it is beyond [bigint]. *)
Definition GET (st : Store) (session : Session) (params : QueryString)
  : Response Listing :=
  match signed_in session with
  | None => fail 401 "Unauthorized"
  | Some _ =>
  match searchSchema params with
  | None => fail 400 "Invalid parameters"
  | Some validatedParams =>
      let total := Z.of_nat (length (List.filter (whereClause validatedParams)
                                       (buyers st))) in
      let offset := offset_of validatedParams in
      if bool_decide (max_bigint < offset)
      then fail 500 "Internal server error"
      else
      let results :=
        take (Z.to_nat (limit validatedParams))
          (drop (Z.to_nat offset)
             (orderBy (sortBy validatedParams) (sortOrder validatedParams)
                (List.filter (whereClause validatedParams) (buyers st)))) in
      json 200
        {| data := results;
           pagination :=
             {| pg_page := page validatedParams;
                pg_limit := limit validatedParams;
                total := total;
                pages := ceil_div total (limit validatedParams) |} |}
  end end.

(** POST /api/buyers - Create new buyer *)
Definition POST (env : Env) (st : Store) (session : Session)
    (request : NextRequest) (body : BuyerInput) : Store * Response Buyer :=
  match signed_in session with
  | None => (st, fail 401 "Unauthorized")
  | Some uid =>
  match RateLimit.check env request RateLimit.CREATE_BUYER with
  | None => (st, fail 500 "Internal server error")
  | Some rateLimit =>
  if negb (RateLimit.success rateLimit)
  then (st, fail 429 "Too many requests. Please try again later.")
  else
  match createBuyerSchema isEmail body with
  | inr _ => (st, fail 400 "Validation failed")
  | inl validatedData =>
      let newBuyer := mkRow (uuidv4 env 0) validatedData uid (now env) (now env) in
      match insert_buyers [newBuyer] st with
      | None => (st, fail 500 "Internal server error")
      | Some st1 =>
          match insert_history
                  (mkHistory (buyer_id newBuyer) uid (now env)
                     (FieldDiff {[ "created" := (JNull, JStr "New buyer created") ]}))
                  st1 with
          | None => (st1, fail 500 "Internal server error")
          | Some st2 => (st2, json 201 newBuyer)
          end
      end
  end end end.
End Handlers.

End BuyersRoute.

(* ===================================================================== *)
(** ** api/buyers/export/route.ts *)
(* ===================================================================== *)

Module ExportRoute.

Section Handler.
Variable ilike : string -> string -> bool.

(** The conditions of the export: the owner first. *)
Definition conditions (uid : string) (query : option string)
  : list (Buyer -> bool) :=
  [fun b => bool_decide (ownerId b = uid)]
  ++ (if truthy_ostr query
      then [matches_query ilike (default "" query)] else []).

(** GET /api/buyers/export, up to the selection [buyersData] the CSV
    text is rendered from.  The guard is [!session?.user]. *)
Definition GET (st : Store) (session : Session) (query : option string)
  : Response (list Buyer) :=
  match session with
  | None => fail 401 "Unauthorized"
  | Some uid =>
      json 200 (List.filter (and_all (conditions uid query)) (buyers st))
  end.
End Handler.

(** The columns of the CSV file, in order. *)
Definition headers : list string :=
  ["fullName"; "email"; "phone"; "city"; "propertyType"; "bhk";
   "purpose"; "budgetMin"; "budgetMax"; "timeline"; "source";
   "status"; "notes"; "tags"; "createdAt"; "updatedAt"].

Definition quote : ascii := ascii_of_nat 34.
Definition newline : ascii := ascii_of_nat 10.

(** The characters the test of [strValue] looks for: the double quote, the
    comma and the line feed. *)
Definition special (c : ascii) : bool :=
  bool_decide (c = quote) || bool_decide (c = ","%char) || bool_decide (c = newline).

(** The global [replace] of [strValue]: every double quote is written
    twice. *)
Fixpoint double_quotes (l : list ascii) : list ascii :=
  match l with
  | [] => []
  | c :: l' =>
      if bool_decide (c = quote) then quote :: quote :: double_quotes l'
      else c :: double_quotes l'
  end.

(** The cell of a value rendered as [strValue]: wrapped in quotes, its
    quotes doubled, when it has a quote, a comma or a line feed. *)
Definition csv_cell (strValue : string) : string :=
  if existsb special (chars strValue)
  then unchars (quote :: double_quotes (chars strValue) ++ [quote])
  else strValue.

(** [pieces.join(sep)] *)
Fixpoint join (sep : string) (pieces : list string) : string :=
  match pieces with
  | [] => ""
  | [s] => s
  | s :: rest => s +:+ sep +:+ join sep rest
  end.

Section Render.
(** [String(d)] for a date. *)
Variable dateString : Date -> string.

(** [const value = buyer[header] ?? '';
     Array.isArray(value) ? value.join(',') : String(value)] *)
Definition strValue (value : jsval) : string :=
  match value with
  | JUndefined | JNull => ""
  | JStr s => s
  | JNum n => pretty n
  | JArr _ items => join "," items
  | JDate _ d => dateString d
  end.

(** The cells of one exported record. *)
Definition csv_row (buyer : Buyer) : list string :=
  (fun header => csv_cell (strValue (prop (row_object 0 buyer) header))) <$> headers.

(** [csvRows.unshift(headers); csvRows.map(row => row.join(',')).join('\n')] *)
Definition csvContent (buyersData : list Buyer) : string :=
  join (unchars [newline]) (join "," <$> (headers :: (csv_row <$> buyersData))).
End Render.

End ExportRoute.

(* ===================================================================== *)
(** ** components/buyers/buyers-list.tsx: the page buttons *)
(* ===================================================================== *)

Module BuyersList.

(** The page number of the button at index [i], "with current page in the
    middle when possible". *)
Definition pageNum (page pages : Z) (i : Z) : Z :=
  if bool_decide (pages <= 5) then i + 1
  else if bool_decide (page <= 3) then i + 1
  else if bool_decide (page >= pages - 2) then pages - 4 + i
  else page - 2 + i.

(** The numbered buttons of the pager: the pager is rendered under the
    guard [pagination.pages > 1], and its buttons are
    [Array.from({ length: Math.min(5, pagination.pages) }, (_, i) => pageNum)]. *)
Definition page_buttons (page pages : Z) : list Z :=
  if bool_decide (pages > 1)
  then (fun i => pageNum page pages (Z.of_nat i))
         <$> seq 0 (Z.to_nat (Z.min 5 pages))
  else [].

End BuyersList.

(* ===================================================================== *)
(** ** components/ui/tag-input.tsx *)
(* ===================================================================== *)

Module TagInput.

(** [addTag]: the list handed to [onChange], or the tags as they are when
    nothing is added. *)
Definition addTag (tags : list string) (inputValue : string) : list string :=
  if truthy_str (trim inputValue) && negb (bool_decide (trim inputValue ∈ tags))
  then tags ++ [trim inputValue]
  else tags.

(** [removeTag]: [tags.filter(tag => tag !== tagToRemove)] *)
Definition removeTag (tags : list string) (tagToRemove : string) : list string :=
  List.filter (fun tag => negb (bool_decide (tag = tagToRemove))) tags.

End TagInput.

(* ===================================================================== *)
(** ** lib/rate-limit.ts: the sliding-window limiter *)
(* ===================================================================== *)

Module SlidingWindow.

Record RateLimitConfig := mkConfig {
  interval : Z;
  uniqueTokenPerInterval : Z;
}.

Record Result := mkResult {
  success : bool;
  limit : Z;
  remaining : Z;
  reset : Z;
}.

(** [forwarded ? forwarded.split(',')[0] : request.ip || 'unknown'] *)
Definition getIdentifier (request : NextRequest) : string :=
  if truthy_ostr (x_forwarded_for request)
  then default "" (head (split_comma (default "" (x_forwarded_for request))))
  else if truthy_ostr (ip request) then default "" (ip request) else "unknown".

(** One hour, in milliseconds. *)
Definition hour : Z := 60 * 60 * 1000.

(** [cleanup()] run at time [now]: every list loses its entries older than
    an hour, and a key whose list is left empty is deleted. *)
Definition cleanup (now : Z) (requests : gmap string (list Z)) : gmap string (list Z) :=
  omap (fun times =>
          let validRequests := List.filter (fun time => bool_decide (now - hour < time)) times in
          if bool_decide (length validRequests = 0%nat) then None else Some validRequests)
       requests.

(** [check(request, limit, config)] at time [now] on the map [requests];
    [sweep] is the time of the clean-up when the draw [Math.random() < 0.01]
    asks for one. *)
Definition check (now : Z) (sweep : option Z) (requests : gmap string (list Z))
    (request : NextRequest) (limit : Z) (config : RateLimitConfig)
  : Result * gmap string (list Z) :=
  let identifier := getIdentifier request in
  let windowStart := now - interval config in
  let stored := default [] (requests !! identifier) in
  let requestsInWindow := List.filter (fun time => bool_decide (windowStart < time)) stored in
  let success := bool_decide (Z.of_nat (length requestsInWindow) < limit) in
  let requestsInWindow := if success then requestsInWindow ++ [now] else requestsInWindow in
  let requests := if success then <[identifier := requestsInWindow]> requests else requests in
  let requests := match sweep with Some t => cleanup t requests | None => requests end in
  ({| success := success;
      limit := limit;
      remaining := Z.max 0 (limit - Z.of_nat (length requestsInWindow));
      reset := windowStart + interval config |},
   requests).

End SlidingWindow.

(* ===================================================================== *)
(** ** A reference platform

    Concrete stand-ins for the section variables, used to run the handlers
    on explicit requests: the format checks follow the regular expressions
    of the schema library, [ilike] is the pattern match with [%] and [_],
    [parseInt] reads a decimal numeral, and [orderBy] sorts on the rendering
    of the column. *)
(* ===================================================================== *)

Module Reference.

Definition is_alpha (c : ascii) : bool :=
  (Nat.leb 65 (code c) && Nat.leb (code c) 90)
  || (Nat.leb 97 (code c) && Nat.leb (code c) 122).
Definition is_alnum (c : ascii) : bool := is_alpha c || is_digit c.
Definition is_hex (c : ascii) : bool :=
  is_digit c
  || (Nat.leb 65 (code c) && Nat.leb (code c) 70)
  || (Nat.leb 97 (code c) && Nat.leb (code c) 102).
Definition one_of (s : string) (c : ascii) : bool :=
  bool_decide (c ∈ chars s).

Fixpoint has_dot_dot (l : list ascii) : bool :=
  match l with
  | c :: (d :: _) as l' =>
      (bool_decide (c = "."%char) && bool_decide (d = "."%char)) || has_dot_dot l'
  | _ => false
  end.

Definition label_ok (l : list ascii) : bool :=
  match l with
  | c :: l' => is_alnum c && forallb (fun d => is_alnum d || one_of "-" d) l'
  | [] => false
  end.

Definition tld_ok (l : list ascii) : bool :=
  Nat.leb 2 (length l) && forallb is_alpha l.

Definition local_ok (l : list ascii) : bool :=
  match rev l with
  | c :: _ =>
      (is_alnum c || one_of "_+-" c)
      && forallb (fun d => is_alnum d || one_of "_'+-." d) l
      && negb (bool_decide (head l = Some "."%char))
  | [] => false
  end.

Definition domain_ok (l : list ascii) : bool :=
  match rev (split_on "." [] l) with
  | tld :: (_ :: _) as labels => tld_ok tld && forallb label_ok labels
  | _ => false
  end.

Definition isEmail (s : string) : bool :=
  negb (has_dot_dot (chars s))
  && match split_on "@" [] (chars s) with
     | [l; d] => local_ok l && domain_ok d
     | _ => false
     end.

Definition isUuid (s : string) : bool :=
  match split_on "-" [] (chars s) with
  | [a; b; c; d; e] =>
      forallb (forallb is_hex) [a; b; c; d; e]
      && bool_decide (length <$> [a; b; c; d; e] = [8; 4; 4; 4; 12]%nat)
  | _ => false
  end.

(** The sixteen bytes of a UUID as the database reads them: two
    hexadecimal digits each, a hyphen allowed after every second byte but
    the last.  The digits in lower case, and what is left of the text. *)
Fixpoint uuid_bytes (i n : nat) (l : list ascii)
  : option (list ascii * list ascii) :=
  match n with
  | O => Some ([], l)
  | S n' =>
      match l with
      | a :: b :: l' =>
          if is_hex a && is_hex b
          then
            let l'' :=
              match l' with
              | c :: r =>
                  if bool_decide (c = "-"%char) && Nat.odd i && Nat.ltb i 15
                  then r else l'
              | [] => l'
              end in
            match uuid_bytes (S i) n' l'' with
            | Some (ds, rest) => Some (lower a :: lower b :: ds, rest)
            | None => None
            end
          else None
      | _ => None
      end
  end.

(** [uuid_in]: the text of a UUID, in braces or not, in either case of
    the letters; the canonical spelling has the groups 8-4-4-4-12 in lower
    case. *)
Definition uuid_in (s : string) : option string :=
  let l := chars s in
  let braces := match l with c :: _ => bool_decide (c = "{"%char) | [] => false end in
  match uuid_bytes 0 16 (if braces then tail l else l) with
  | Some (ds, rest) =>
      if bool_decide (rest = if braces then ["}"%char] else [])
      then Some (unchars (take 8 ds ++ "-"%char :: take 4 (drop 8 ds)
                          ++ "-"%char :: take 4 (drop 12 ds)
                          ++ "-"%char :: take 4 (drop 16 ds)
                          ++ "-"%char :: drop 20 ds))
      else None
  | None => None
  end.

(** The longest prefix of [l] the classes of [pat] accept, one character
    per class; what is left of [l]. *)
Fixpoint eat (pat : list (ascii -> bool)) (l : list ascii) : option (list ascii) :=
  match pat, l with
  | [], _ => Some l
  | p :: pat', c :: l' => if p c then eat pat' l' else None
  | _ :: _, [] => None
  end.

Definition isDatetime (s : string) : bool :=
  let D := is_digit in
  let L := one_of in
  match eat [D; D; D; D; L "-"; D; D; L "-"; D; D; L "T";
             D; D; L ":"; D; D; L ":"; D; D] (chars s) with
  | Some rest =>
      match rest with
      | [z] => L "Z" z
      | dot :: frac =>
          L "." dot
          && match rev frac with
             | z :: (_ :: _) as digits => L "Z" z && forallb D digits
             | _ => false
             end
      | [] => false
      end
  | None => false
  end.

Fixpoint like (p : list ascii) : list ascii -> bool :=
  match p with
  | [] => fun s => match s with [] => true | _ :: _ => false end
  | c :: p' =>
      if bool_decide (c = "%"%char)
      then fix skip (s : list ascii) : bool :=
             like p' s || match s with [] => false | _ :: s' => skip s' end
      else fun s =>
             match s with
             | [] => false
             | d :: s' =>
                 (bool_decide (c = "_"%char) || bool_decide (lower c = lower d))
                 && like p' s'
             end
  end.

Definition ilike (value pattern : string) : bool :=
  like (chars pattern) (chars value).

Definition digit_value (c : ascii) : Z := Z.of_nat (code c) - 48.

Fixpoint leading_digits (l : list ascii) : list ascii :=
  match l with
  | c :: l' => if is_digit c then c :: leading_digits l' else []
  | [] => []
  end.

Definition decimal (l : list ascii) : option Z :=
  match leading_digits l with
  | [] => None
  | ds => Some (foldl (fun acc c => 10 * acc + digit_value c) 0 ds)
  end.

Definition parseInt (s : string) : option Z :=
  match drop_spaces (chars s) with
  | c :: l' =>
      if bool_decide (c = "-"%char) then Z.opp <$> decimal l'
      else if bool_decide (c = "+"%char) then decimal l'
      else decimal (c :: l')
  | [] => None
  end.

Definition sort_key (column : BuyersRoute.SortBy) (b : Buyer) : string :=
  match column with
  | BuyersRoute.ByFullName => fullName (fields b)
  | BuyersRoute.ByCreatedAt => toISOString (createdAt b)
  | BuyersRoute.ByUpdatedAt => toISOString (updatedAt b)
  end.

Definition before (column : BuyersRoute.SortBy) (direction : BuyersRoute.SortOrder)
    (a b : Buyer) : Prop :=
  match direction with
  | BuyersRoute.Asc => String.leb (sort_key column a) (sort_key column b)
  | BuyersRoute.Desc => String.leb (sort_key column b) (sort_key column a)
  end.

#[global] Instance before_dec column direction a b :
  Decision (before column direction a b).
Proof. unfold before. destruct direction; apply _. Defined.

Definition orderBy (column : BuyersRoute.SortBy) (direction : BuyersRoute.SortOrder)
    (rows : list Buyer) : list Buyer :=
  merge_sort (before column direction) rows.

End Reference.

(* ===================================================================== *)
(** ** Vocabulary of the properties *)
(* ===================================================================== *)

(** The candidate [data] with its bedroom category replaced. *)
Definition set_bhk {Nm St Tg} (b : option BHK) (data : BuyerShape Nm St Tg)
  : BuyerShape Nm St Tg :=
  mkBuyer (fullName data) (email data) (phone data) (city data)
    (propertyType data) b (purpose data) (budgetMin data) (budgetMax data)
    (timeline data) (source data) (status data) (notes data) (tags data).

(** The row [b] handed to another owner. *)
Definition set_owner (owner : string) (b : Buyer) : Buyer :=
  mkRow (buyer_id b) (fields b) owner (createdAt b) (updatedAt b).

(** A parse result that is a failure listing the violation [i]. *)
Definition fails_with {A} (i : ZodIssue) (result : A + list ZodIssue) : Prop :=
  match result with
  | inr issues => i ∈ issues
  | inl _ => False
  end.

(** Every history row references a buyer of the store. *)
Definition no_orphans (st : Store) : Prop :=
  Forall (fun h => existsb (has_id (buyerId h)) (buyers st) = true) (buyerHistory st).


(** The ids of the buyers are pairwise distinct. *)
Definition unique_ids (st : Store) : Prop := NoDup (buyer_id <$> buyers st).

(** The two key constraints of the store. *)
Definition well_formed (st : Store) : Prop := unique_ids st /\ no_orphans st.

(** The rules a stored record obeys when it came in through a schema:
    the phone is 10 to 15 digits, the name 2 to 80 characters, the bedroom
    category is there for a residential type, and the budget is ordered. *)
Definition obeys_rules (d : BuyerData) : Prop :=
  phone_regex (phone d) = true
  /\ (2 <= String.length (fullName d) <= 80)%nat
  /\ refine_bhk d = true
  /\ refine_budget d = true.


(** What the loop of the import knows of a row it accepts, among the rows
    [rows] of the file. *)
Definition accepted_by (isEmail : string -> bool) (env : Env) (st : Store)
    (uid : string) (rows : list ImportRoute.CsvRow) (v : ImportRoute.ValidRow)
  : Prop :=
  ImportRoute.valid_owner v = uid
  /\ ImportRoute.valid_createdAt v = now env
  /\ ImportRoute.valid_updatedAt v = now env
  /\ (exists r, r ∈ rows
                /\ ImportRoute.csvBuyerSchema isEmail (ImportRoute.transform r)
                   = Some (ImportRoute.valid_data v))
  /\ ImportRoute.find_existing st uid (ImportRoute.valid_data v) = None.

(** The history entry the import writes for the row [r]. *)
Definition import_entry (env : Env) (uid : string) (r : Buyer) : HistoryEntry :=
  mkHistory (buyer_id r) uid (now env)
    (ImportDiff (fields r) (ownerId r) (createdAt r) (updatedAt r)).

(** The record [b] does not repeat the phone, nor the email when it has
    one, of a record that [uid] already owns in [st]. *)
Definition new_for (st : Store) (uid : string) (b : Buyer) : Prop :=
  Forall (fun b' =>
            ownerId b' = uid ->
            phone (fields b') ≠ phone (fields b)
            /\ forall e, email (fields b) = Some e -> e ≠ "" ->
                         email (fields b') ≠ Some e)
    (buyers st).

(** A parsed record read back as a candidate. *)
Definition as_input (d : BuyerData) : BuyerInput :=
  mkBuyer (fullName d) (email d) (phone d) (city d) (propertyType d) (bhk d)
    (purpose d) (budgetMin d) (budgetMax d) (timeline d) (source d)
    (Some (status d)) (notes d) (Some (tags d)).


(** The time stamps later than [start]: the test of the limiter's filters. *)
Definition later_than (start : Z) (time : Z) : bool := bool_decide (start < time).

(** A run of the sliding-window limiter: each call comes with its time, the
    time of the clean-up when the draw asks for one, and its request.  The
    result is the times of the accepted calls of the client [identifier],
    in order. *)
Fixpoint accepted (identifier : string) (calls : list (Z * option Z * NextRequest))
    (requests : gmap string (list Z)) (limit : Z)
    (config : SlidingWindow.RateLimitConfig) : list Z :=
  match calls with
  | [] => []
  | (now, sweep, request) :: rest =>
      let result := SlidingWindow.check now sweep requests request limit config in
      (if SlidingWindow.success result.1
          && bool_decide (SlidingWindow.getIdentifier request = identifier)
       then [now] else [])
      ++ accepted identifier rest result.2 limit config
  end.

(** The clock does not run backwards along a run that starts at [from]. *)
Fixpoint chronological (from : Z) (calls : list (Z * option Z * NextRequest)) : Prop :=
  match calls with
  | [] => True
  | (now, sweep, _) :: rest =>
      from <= now
      /\ match sweep with
         | Some t => now <= t /\ chronological t rest
         | None => chronological now rest
         end
  end.

(** The validated parameters [v] asked for page [p]. *)
Definition with_page (p : Z) (v : BuyersRoute.SearchParams) : BuyersRoute.SearchParams :=
  BuyersRoute.mkSearch (BuyersRoute.query v) (BuyersRoute.by_city v)
    (BuyersRoute.by_propertyType v) (BuyersRoute.by_status v)
    (BuyersRoute.by_timeline v) p (BuyersRoute.limit v)
    (BuyersRoute.sortBy v) (BuyersRoute.sortOrder v).

(** The records of a listing response, none for an error. *)
Definition data_of (r : Response BuyersRoute.Listing) : list Buyer :=
  match body r with Json l => BuyersRoute.data l | Error _ => [] end.


(** A response that reports an error. *)
Definition is_error {A} (r : Response A) : Prop :=
  match body r with Error _ => True | Json _ => False end.

(* ===================================================================== *)
(** ** Sample data

    Two users, one stored buyer with the history entry of its creation,
    and the requests the properties below are exercised on. *)
(* ===================================================================== *)

Module Sample.

Definition owner : string := "11111111-1111-4111-8111-111111111111".
Definition visitor : string := "22222222-2222-4222-8222-222222222222".
Definition john_id : string := "123e4567-e89b-12d3-a456-426614174000".

Definition created : Date := mkDate "2024-03-01T09:00:00.000Z".
Definition stale_token : string := "2024-02-28T08:00:00.000Z".

Definition env : Env :=
  {| now := mkDate "2024-03-02T10:00:00.000Z";
     now_ms := 1709373600000;
     uuidv4 := fun n =>
       default "ffffffff-ffff-4fff-8fff-ffffffffffff"
         (["aaaaaaaa-aaaa-4aaa-8aaa-aaaaaaaaaaaa";
           "bbbbbbbb-bbbb-4bbb-8bbb-bbbbbbbbbbbb";
           "cccccccc-cccc-4ccc-8ccc-cccccccccccc";
           "dddddddd-dddd-4ddd-8ddd-dddddddddddd"] !! n) |}.

Definition request : NextRequest := mkRequest (Some "203.0.113.7") None.

(** The candidate of the end-to-end example. *)
Definition john_input : BuyerInput :=
  mkBuyer "John Doe" None "9876543210" Chandigarh Apartment (Some Bhk3) Buy
    None None T3_6m Website None None None.

Definition john_fields : BuyerData :=
  mkBuyer "John Doe" None "9876543210" Chandigarh Apartment (Some Bhk3) Buy
    None None T3_6m Website New None [].

Definition john : Buyer := mkRow john_id john_fields owner created created.

Definition store : Store :=
  mkStore [john]
    [mkHistory john_id owner created
       (FieldDiff {[ "created" := (JNull, JStr "New buyer created") ]})].

Definition empty_store : Store := mkStore [] [].

Definition fresh_token : string := "2024-03-01T09:00:00.000Z".

(** An update that sends back the stored value of every field, except
    for the status [s]. *)
Definition update_body (s : Status) (token : string) : UpdateInput :=
  mkUpdate john_id
    (mkBuyer "John Doe" None "9876543210" Chandigarh Apartment (Some Bhk3) Buy
       None None T3_6m Website (Some s) None (Some []))
    token.

Definition put (user : string) (s : Status) (token : string)
  : BuyerById.PutRequest :=
  BuyerById.mkPut (Some user) request john_id (update_body s token).

(** A data row of a CSV file with the mandatory columns and an email. *)
Definition csv_row (name mail phone_number : string) : ImportRoute.CsvRow :=
  {| ImportRoute.row_fullName := Some name;
     ImportRoute.row_email := Some mail;
     ImportRoute.row_phone := Some phone_number;
     ImportRoute.row_city := Some "Chandigarh";
     ImportRoute.row_propertyType := Some "Plot";
     ImportRoute.row_bhk := None;
     ImportRoute.row_purpose := Some "Buy";
     ImportRoute.row_budgetMin := None;
     ImportRoute.row_budgetMax := None;
     ImportRoute.row_timeline := Some "3-6m";
     ImportRoute.row_source := Some "Website";
     ImportRoute.row_status := None;
     ImportRoute.row_notes := None;
     ImportRoute.row_tags := None |}.

Definition csv_file (rows : list ImportRoute.CsvRow) : ImportRoute.CsvFile :=
  ImportRoute.mkFile "text/csv" "buyers.csv" [] rows.

(** Two rows with the same phone and the same email. *)
Definition duplicate_rows : list ImportRoute.CsvRow :=
  [csv_row "John Doe" "john@example.com" "9876543210";
   csv_row "Jane Roe" "john@example.com" "9876543210"].

(** Three valid rows and one with an invalid phone. *)
Definition mixed_rows : list ImportRoute.CsvRow :=
  [csv_row "Asha Rao" "asha@example.com" "9876500001";
   csv_row "Bela Sen" "bela@example.com" "123";
   csv_row "Chand Gill" "chand@example.com" "9876500003";
   csv_row "Dev Mehta" "dev@example.com" "9876500004"].

(** A file of 201 data rows. *)
Definition oversized_file : ImportRoute.CsvFile :=
  csv_file (replicate 201 (csv_row "Asha Rao" "asha@example.com" "9876500001")).

(** A candidate for a plot, without bedroom category. *)
Definition plot_input : BuyerInput :=
  mkBuyer "John Doe" None "9876543210" Chandigarh Plot None Buy
    None None T3_6m Website None None None.

Definition query (page_param limit_param : option string)
  : BuyersRoute.QueryString :=
  BuyersRoute.mkQuery None None None None None page_param limit_param None None.

End Sample.

(* ===================================================================== *)
(** ** Further sample data

    A second record owned by the other user, a store of both records, an
    ordering of the history on the rendering of the dates, and the inputs
    the further properties are exercised on. *)
(* ===================================================================== *)

Module Cases.

(** [ORDER BY changedAt DESC], on the rendering of the dates. *)
Definition newer (a b : HistoryEntry) : Prop :=
  String.leb (toISOString (changedAt b)) (toISOString (changedAt a)).

#[global] Instance newer_dec a b : Decision (newer a b).
Proof. unfold newer. apply _. Defined.

Definition newest_first (entries : list HistoryEntry) : list HistoryEntry :=
  merge_sort newer entries.

Definition jane_id : string := "aaaaaaaa-bbbb-4ccc-8ddd-eeeeeeeeeeee".

(** The id of the sample record, spelled in upper case. *)
Definition john_id_upper : string := "123E4567-E89B-12D3-A456-426614174000".

Definition jane_fields : BuyerData :=
  mkBuyer "Jane Roe" (Some "jane@example.com") "9876500002" Mohali Plot None Buy
    (Some 100) (Some 200) T0_3m Referral Qualified (Some "Corner plot") ["vip"].

Definition jane : Buyer :=
  mkRow jane_id jane_fields Sample.visitor Sample.created Sample.created.

Definition creation (key owner : string) : HistoryEntry :=
  mkHistory key owner Sample.created
    (FieldDiff {[ "created" := (JNull, JStr "New buyer created") ]}).

Definition store : Store :=
  mkStore [Sample.john; jane]
    [creation Sample.john_id Sample.owner; creation jane_id Sample.visitor].

(** The listing queries for the pages of one record each, and what the
    schema makes of the first. *)
Definition pages (i : nat) : BuyersRoute.QueryString :=
  Sample.query (Some (match i with O => "1" | S _ => "2" end)) (Some "1").

Definition first_page : BuyersRoute.SearchParams :=
  BuyersRoute.mkSearch None None None None None 1 1
    BuyersRoute.ByUpdatedAt BuyersRoute.Desc.



(** A CSV row with budgets, and the record the CSV schema makes of it. *)
Definition priced_row : ImportRoute.CsvRow :=
  {| ImportRoute.row_fullName := Some "Jane Roe";
     ImportRoute.row_email := Some "jane@example.com";
     ImportRoute.row_phone := Some "9876500002";
     ImportRoute.row_city := Some "Mohali";
     ImportRoute.row_propertyType := Some "Plot";
     ImportRoute.row_bhk := None;
     ImportRoute.row_purpose := Some "Buy";
     ImportRoute.row_budgetMin := Some (inject_Z 100);
     ImportRoute.row_budgetMax := Some (inject_Z 200);
     ImportRoute.row_timeline := Some "0-3m";
     ImportRoute.row_source := Some "Referral";
     ImportRoute.row_status := Some "Qualified";
     ImportRoute.row_notes := Some "Corner plot";
     ImportRoute.row_tags := Some ["vip"] |}.

(** What the CSV schema makes of that row. *)
Definition priced_data : CsvBuyer :=
  mkBuyer "Jane Roe" (Some "jane@example.com") "9876500002" Mohali Plot None Buy
    (Some (inject_Z 100)) (Some (inject_Z 200)) T0_3m Referral Qualified
    (Some "Corner plot") ["vip"].

(** A row with a budget of one and a half, and a row with a budget of
    three thousand million. *)
Definition budget_row (phone_number : string) (budget : Q) : ImportRoute.CsvRow :=
  {| ImportRoute.row_fullName := Some "Kiran Bedi";
     ImportRoute.row_email := None;
     ImportRoute.row_phone := Some phone_number;
     ImportRoute.row_city := Some "Mohali";
     ImportRoute.row_propertyType := Some "Plot";
     ImportRoute.row_bhk := None;
     ImportRoute.row_purpose := Some "Buy";
     ImportRoute.row_budgetMin := None;
     ImportRoute.row_budgetMax := Some budget;
     ImportRoute.row_timeline := Some "0-3m";
     ImportRoute.row_source := Some "Referral";
     ImportRoute.row_status := None;
     ImportRoute.row_notes := None;
     ImportRoute.row_tags := None |}.

Definition fractional_row : ImportRoute.CsvRow := budget_row "9876500005" (Qmake 3 2).
Definition oversized_row : ImportRoute.CsvRow :=
  budget_row "9876500006" (inject_Z 3000000000).


(** Two clients of the limiter, a limit of two calls a minute, and a run
    in which the first client calls three times within the minute. *)
Definition client (address : string) : NextRequest := mkRequest (Some address) None.

Definition per_minute : SlidingWindow.RateLimitConfig :=
  SlidingWindow.mkConfig (60 * 1000) 2.

Definition calls : list (Z * option Z * NextRequest) :=
  [(1000, None, client "198.51.100.1");
   (2000, Some 2500, client "198.51.100.2");
   (3000, None, client "198.51.100.1");
   (4000, None, client "198.51.100.1")].

End Cases.

(* ===================================================================== *)
(** * Properties *)
(* ===================================================================== *)

(** ** The rate limiter *)

Lemma check_result env request limitType :
  RateLimit.check env request limitType
  = Some (RateLimit.mkResult true
            (match limitType with
             | RateLimit.CREATE_BUYER => 10 | RateLimit.UPDATE_BUYER => 20 end)
            (match limitType with
             | RateLimit.CREATE_BUYER => 9 | RateLimit.UPDATE_BUYER => 19 end)
            (now_ms env + 60000)).
Proof. destruct limitType; reflexivity. Qed.

Section RateLimitProperties.
Variables isEmail isUuid isDatetime : string -> bool.

Lemma PUT_not_429 env st r :
  http_status (BuyerById.PUT isEmail isUuid isDatetime env st r).2 ≠ 429%nat.
Proof.
  unfold BuyerById.PUT. rewrite check_result. simpl.
  repeat (case_match; simpl; try discriminate).
Qed.

Lemma POST_not_429 env st session request body :
  http_status (BuyersRoute.POST isEmail env st session request body).2 ≠ 429%nat.
Proof.
  unfold BuyersRoute.POST. rewrite check_result. simpl.
  repeat (case_match; simpl; try discriminate).
Qed.

(** C10. For every request the rate-limit check succeeds with
    [remaining = limit - 1] (the limit being 10 for a create and 20 for
    an update), and neither the update nor the create handler ever
    answers 429: the rate-limit branch is dead code. *)
Theorem rate_limit_branch_unreachable :
  (forall env request limitType,
      exists res,
        RateLimit.check env request limitType = Some res
        /\ RateLimit.success res = true
        /\ RateLimit.remaining res = RateLimit.limit res - 1
        /\ RateLimit.limit res
           = match limitType with
             | RateLimit.CREATE_BUYER => 10
             | RateLimit.UPDATE_BUYER => 20
             end)
  /\ (forall env st r,
        http_status (BuyerById.PUT isEmail isUuid isDatetime env st r).2 ≠ 429%nat)
  /\ (forall env st session request body,
        http_status (BuyersRoute.POST isEmail env st session request body).2
        ≠ 429%nat).
Proof.
  split; [|split].
  - intros env request limitType. eexists. rewrite check_result.
    split; [reflexivity|]. destruct limitType; simpl; auto.
  - apply PUT_not_429.
  - apply POST_not_429.
Qed.
End RateLimitProperties.

(** ** Validation: the bedroom category *)

Lemma truthy_bhk_str (o : option BHK) :
  truthy_ostr (bhk_str o) = bool_decide (o ≠ None).
Proof. destruct o as [[]|]; reflexivity. Qed.

Lemma refine_bhk_false {Nm St Tg} (data : BuyerShape Nm St Tg) :
  refine_bhk data = false
  <-> (propertyType data = Apartment \/ propertyType data = Villa)
      /\ bhk data = None.
Proof.
  unfold refine_bhk, residential. rewrite truthy_bhk_str.
  destruct (propertyType data), (bhk data); simpl; split;
    intros; try discriminate; intuition congruence.
Qed.

Lemma elem_of_unless ok p m (i : ZodIssue) :
  i ∈ unless ok p m -> path i = p.
Proof.
  unfold unless. destruct ok; [by intros ?%elem_of_nil|].
  by intros ->%list_elem_of_singleton.
Qed.

Section ValidationProperties.
Variable isEmail : string -> bool.

Lemma email_issue_path o (i : ZodIssue) :
  i ∈ email_issue isEmail o -> path i = "email".
Proof.
  destruct o; simpl; [apply elem_of_unless|by intros ?%elem_of_nil].
Qed.

Lemma notes_issue_path o (i : ZodIssue) :
  i ∈ notes_issue o -> path i = "notes".
Proof.
  destruct o; simpl; [apply elem_of_unless|by intros ?%elem_of_nil].
Qed.

Lemma positive_issue_path p o (i : ZodIssue) :
  i ∈ positive_issue p o -> path i = p.
Proof.
  destruct o; simpl; [apply elem_of_unless|by intros ?%elem_of_nil].
Qed.

(** No check of the object schema reports on the path [bhk]. *)
Lemma field_issues_path {St Tg} (data : BuyerShape Z St Tg) (i : ZodIssue) :
  i ∈ field_issues isEmail data -> path i ≠ "bhk".
Proof.
  unfold field_issues. rewrite !elem_of_app.
  intros [H|[H|[H|[H|[H|[H|H]]]]]];
    first [apply elem_of_unless in H | apply email_issue_path in H
          | apply positive_issue_path in H | apply notes_issue_path in H];
    rewrite H; discriminate.
Qed.

Lemma field_issues_set_bhk {St Tg} (data : BuyerShape Z St Tg) b :
  field_issues isEmail (set_bhk b data) = field_issues isEmail data.
Proof. reflexivity. Qed.

Lemma bhk_required_elem (data : BuyerInput) :
  bhk_required ∈ buyerSchema_issues isEmail data
  <-> refine_bhk data = false.
Proof.
  unfold buyerSchema_issues, refinement_issues.
  change (refine_bhk (with_defaults data)) with (refine_bhk data).
  rewrite !elem_of_app. split.
  - intros [H|[H|H]].
    + by apply field_issues_path in H.
    + destruct (refine_bhk data); [by apply elem_of_nil in H|done].
    + destruct (refine_budget _); [by apply elem_of_nil in H|].
      apply list_elem_of_singleton in H. discriminate.
  - intros ->. right; left. by apply list_elem_of_singleton.
Qed.

Lemma fails_with_issues (data : BuyerInput) (i : ZodIssue) :
  fails_with i (buyerSchema isEmail data) <-> i ∈ buyerSchema_issues isEmail data.
Proof.
  unfold fails_with, buyerSchema.
  destruct (buyerSchema_issues isEmail data) eqn:E; [|done].
  split; [done|by intros ?%elem_of_nil].
Qed.

Lemma buyerSchema_accepts (data : BuyerInput) :
  buyerSchema isEmail data = inl (with_defaults data)
  <-> buyerSchema_issues isEmail data = [].
Proof.
  unfold buyerSchema.
  destruct (buyerSchema_issues isEmail data) eqn:E; split; done.
Qed.

Lemma buyerSchema_issues_none (data : BuyerInput) :
  buyerSchema_issues isEmail data = []
  <-> field_issues isEmail data = []
      /\ refine_budget data = true /\ refine_bhk data = true.
Proof.
  unfold buyerSchema_issues, refinement_issues.
  change (refine_bhk (with_defaults data)) with (refine_bhk data).
  change (refine_budget (with_defaults data)) with (refine_budget data).
  rewrite app_nil.
  destruct (refine_bhk data), (refine_budget data); simpl;
    split; (by intros (? & ? & ?)) || (by intros [? ?]).
Qed.

(** C6. Validation of a candidate buyer record fails with the
    bedroom-category-required violation exactly when the property type
    is Apartment or Villa and the bedroom category is absent, and it
    succeeds, returning the record with its defaults, exactly when
    moreover the other fields pass their checks and the budgets are in
    order.  For every other property type the bedroom category is not
    looked at: whatever it is, present or absent, the violations reported
    are those reported without it, none of them is on the bedroom
    category, and the candidate is accepted as soon as its other fields
    are in order. *)
Theorem bhk_required_exactly_for_residential (data : BuyerInput) :
  (fails_with bhk_required (buyerSchema isEmail data)
   <-> (propertyType data = Apartment \/ propertyType data = Villa)
       /\ bhk data = None)
  /\ (buyerSchema isEmail data = inl (with_defaults data)
      <-> field_issues isEmail data = []
          /\ refine_budget data = true
          /\ ~ ((propertyType data = Apartment \/ propertyType data = Villa)
                /\ bhk data = None))
  /\ (propertyType data ≠ Apartment -> propertyType data ≠ Villa ->
      forall b,
        buyerSchema_issues isEmail (set_bhk b data)
        = buyerSchema_issues isEmail (set_bhk None data)
        /\ (forall i, i ∈ buyerSchema_issues isEmail (set_bhk b data) ->
                      path i ≠ "bhk")
        /\ (buyerSchema isEmail (set_bhk b data)
            = inl (with_defaults (set_bhk b data))
            <-> field_issues isEmail data = [] /\ refine_budget data = true)).
Proof.
  split; [|split].
  - rewrite fails_with_issues, bhk_required_elem. apply refine_bhk_false.
  - rewrite buyerSchema_accepts, buyerSchema_issues_none.
    rewrite <- (refine_bhk_false data).
    destruct (refine_bhk data); intuition congruence.
  - intros HA HV b.
    assert (Hr : forall b', refine_bhk (set_bhk b' data) = true).
    { intros b'. destruct (refine_bhk (set_bhk b' data)) eqn:E; [done|].
      apply refine_bhk_false in E as [[?|?] _]; simpl in *; congruence. }
    split; [|split].
    + unfold buyerSchema_issues, refinement_issues.
      change (refine_bhk (with_defaults (set_bhk ?x data)))
        with (refine_bhk (set_bhk x data)).
      by rewrite !Hr, !field_issues_set_bhk.
    + unfold buyerSchema_issues, refinement_issues.
      change (refine_bhk (with_defaults (set_bhk ?x data)))
        with (refine_bhk (set_bhk x data)).
      rewrite !Hr, !field_issues_set_bhk.
      intros i. rewrite elem_of_app. intros [H|H].
      * by apply field_issues_path in H.
      * simpl in H. destruct (refine_budget _); [by apply elem_of_nil in H|].
        apply list_elem_of_singleton in H. subst i. discriminate.
    + rewrite buyerSchema_accepts, buyerSchema_issues_none.
      rewrite field_issues_set_bhk, Hr.
      change (refine_budget (set_bhk b data)) with (refine_budget data).
      tauto.
Qed.
End ValidationProperties.

(** ** Deletion *)

Lemma history_of_delete key st : history_of (delete_buyer key st) key = [].
Proof.
  unfold history_of, delete_buyer. simpl.
  induction (buyerHistory st) as [|h l IH]; [done|].
  simpl. destruct (refers_to key h) eqn:E; simpl; [done|].
  by rewrite E.
Qed.

Lemma select_buyer_delete key st : select_buyer (delete_buyer key st) key = None.
Proof.
  unfold select_buyer, delete_buyer. simpl.
  induction (buyers st) as [|b l IH]; [done|].
  simpl. destruct (has_id key b) eqn:E; simpl; [done|].
  by rewrite E.
Qed.

Lemma existsb_has_id_delete key k l :
  k ≠ key ->
  existsb (has_id k) l = true ->
  existsb (has_id k) (List.filter (fun b => negb (has_id key b)) l) = true.
Proof.
  intros Hne. induction l as [|b l IH]; [done|].
  simpl. destruct (has_id k b) eqn:Ek; simpl.
  - intros _. unfold has_id in *. apply bool_decide_eq_true in Ek.
    rewrite bool_decide_eq_false_2 by congruence. simpl.
    by rewrite bool_decide_eq_true_2.
  - intros H. destruct (negb (has_id key b)); simpl; [rewrite Ek|]; auto.
Qed.

Lemma no_orphans_delete key st : no_orphans st -> no_orphans (delete_buyer key st).
Proof.
  unfold no_orphans, delete_buyer. simpl.
  induction 1 as [|h l Hh Hl IH]; simpl; [constructor|].
  destruct (refers_to key h) eqn:E; simpl; [done|].
  constructor; [|done].
  apply existsb_has_id_delete; [|done].
  unfold refers_to in E. by apply bool_decide_eq_false in E.
Qed.

(** C8. When the signed-in owner of a buyer record deletes it, the delete
    succeeds, the record is gone, and no history entry that references it
    remains in the store; a store without orphaned history entries stays
    without them. *)
Theorem delete_removes_history (st : Store) (uid key : string) (b : Buyer) :
  truthy_str uid = true ->
  select_buyer st key = Some b ->
  ownerId b = uid ->
  exists st',
    BuyerById.DELETE st (Some uid) key = (st', json 200 true)
    /\ history_of st' key = []
    /\ Forall (fun h => buyerId h ≠ key) (buyerHistory st')
    /\ select_buyer st' key = None
    /\ (no_orphans st -> no_orphans st').
Proof.
  intros Hu Hb Ho. exists (delete_buyer key st).
  unfold BuyerById.DELETE. simpl. rewrite Hu, Hb.
  rewrite bool_decide_eq_true_2 by done. simpl.
  split; [done|]. split; [apply history_of_delete|].
  split; [|split; [apply select_buyer_delete|apply no_orphans_delete]].
  unfold delete_buyer. simpl. apply Forall_forall. intros h Hin.
  apply list_elem_of_In, filter_In in Hin as [_ Hin].
  unfold refers_to in Hin. apply negb_true_iff, bool_decide_eq_false in Hin. done.
Qed.

(** ** CSV import *)

(** The error [e] is about the data row of [rows] that sits [row e] lines
    into the file, the header being line 1 and the first data row, the one
    at index [i] of the whole batch, line [i + 2]. *)
Definition names_row (rows : list ImportRoute.CsvRow) (i : nat)
    (e : ImportRoute.ImportError) : Prop :=
  (i + 2 <= ImportRoute.row e)%nat
  /\ rows !! (ImportRoute.row e - (i + 2))%nat = Some (ImportRoute.data e).

Lemma names_row_cons r rows i e :
  names_row rows (S i) e -> names_row (r :: rows) i e.
Proof.
  unfold names_row. intros [Hle Hl]. split; [lia|].
  replace (ImportRoute.row e - (i + 2))%nat
    with (S (ImportRoute.row e - (S i + 2)))%nat by lia.
  done.
Qed.

Section ImportProperties.
Variable isEmail : string -> bool.

Lemma process_row_error env st uid sp se validRows i r e :
  ImportRoute.process_row isEmail env st uid sp se validRows i r = inr e ->
  ImportRoute.row e = (i + 2)%nat /\ ImportRoute.data e = r.
Proof.
  unfold ImportRoute.process_row.
  repeat case_match; intros [= <-]; done.
Qed.

Lemma validate_rows_spec env st uid sp se rows :
  forall i validRows errors vs es,
    ImportRoute.validate_rows isEmail env st uid sp se i rows validRows errors
    = (vs, es) ->
    exists newv newe,
      vs = validRows ++ newv /\ es = errors ++ newe
      /\ (length newv + length newe = length rows)%nat
      /\ Forall (names_row rows i) newe.
Proof.
  induction rows as [|r rows IH]; intros i validRows errors vs es; simpl.
  - intros [= <- <-]. exists [], []. rewrite !app_nil_r. by repeat split.
  - destruct (ImportRoute.process_row _ _ _ _ _ _ _ _ _) as [b|e] eqn:E;
      intros H; apply IH in H as (newv & newe & -> & -> & Hlen & Hall).
    + exists (b :: newv), newe. rewrite <- !app_assoc. simpl.
      repeat split; [lia|].
      eapply Forall_impl; [exact Hall|]. intros ?. apply names_row_cons.
    + exists newv, (e :: newe). rewrite <- !app_assoc. simpl.
      repeat split; [lia|].
      apply process_row_error in E as [Hrow Hdata].
      constructor.
      * unfold names_row. rewrite Hrow, Nat.sub_diag. simpl.
        split; [lia|by rewrite Hdata].
      * eapply Forall_impl; [exact Hall|]. intros ?. apply names_row_cons.
Qed.

Lemma insert_histories_buyers env uid validRows :
  forall st st',
    ImportRoute.insert_histories env uid validRows st = Some st' ->
    buyers st' = buyers st
    /\ length (buyerHistory st')
       = (length (buyerHistory st) + length validRows)%nat.
Proof.
  induction validRows as [|r l IH]; intros st st'; simpl.
  - intros [= <-]. split; [done|lia].
  - unfold insert_history.
    destruct (existsb _ _); [|done]. intros H.
    apply IH in H as [-> ->]. simpl. rewrite length_app. simpl. split; [done|lia].
Qed.

Lemma transaction_buyers env uid validRows st st' :
  ImportRoute.transaction env uid validRows st = Some st' ->
  exists written,
    mapM ImportRoute.to_row validRows = Some written
    /\ length written = length validRows
    /\ buyers st' = buyers st ++ written
    /\ length (buyerHistory st')
       = (length (buyerHistory st) + length validRows)%nat.
Proof.
  unfold ImportRoute.transaction, insert_buyers.
  destruct (mapM _ _) as [written|] eqn:Hw; [|done].
  destruct (_ && _); [|done]. intros H.
  apply insert_histories_buyers in H as [-> ->].
  apply length_mapM in Hw.
  exists written. simpl. by rewrite Hw.
Qed.

(** C5. An upload with more than 200 data rows is rejected whole: the
    response is an error, the store is what it was (no row is inserted,
    not even the first 200), and for a signed-in user whose file is a
    CSV that parsed without critical error the answer is the 400
    "too large" response. *)
Theorem oversized_import_rejected env st session (f : ImportRoute.CsvFile) :
  (200 < length (ImportRoute.parse_data f))%nat ->
  (ImportRoute.POST isEmail env st session (Some f)).1 = st
  /\ is_error (ImportRoute.POST isEmail env st session (Some f)).2
  /\ (is_Some (signed_in session) ->
      ImportRoute.file_type f = "text/csv"
      \/ ImportRoute.endsWith (ImportRoute.file_name f) ".csv" = true ->
      List.filter ImportRoute.critical (ImportRoute.parse_errors f) = [] ->
      (ImportRoute.POST isEmail env st session (Some f)).2
      = fail 400 "CSV file too large. Maximum 200 rows allowed.").
Proof.
  intros Hlen. unfold ImportRoute.POST.
  destruct (signed_in session) as [uid|]; simpl;
    [|split; [done|split; [done|by intros [? [=]]]]].
  destruct (negb (bool_decide (ImportRoute.file_type f = "text/csv"))
            && negb (ImportRoute.endsWith (ImportRoute.file_name f) ".csv")) eqn:Ecsv.
  { split; [done|split; [done|]]. intros _ Hcsv _. exfalso.
    apply andb_true_iff in Ecsv as [E1 E2].
    apply negb_true_iff in E1, E2. apply bool_decide_eq_false in E1.
    destruct Hcsv; congruence. }
  clear Ecsv.
  destruct (bool_decide (0 < length (List.filter ImportRoute.critical
                                       (ImportRoute.parse_errors f)))%nat) eqn:Hcrit.
  { split; [done|split; [done|]]. intros _ _ Hnil. rewrite Hnil in Hcrit.
    done. }
  rewrite bool_decide_eq_false_2 by lia.
  rewrite bool_decide_eq_true_2 by done. done.
Qed.

Lemma response_report rows validRows errors status result :
  (length validRows + length errors = length rows)%nat ->
  Forall (names_row rows 0) errors ->
  ImportRoute.response rows validRows errors = mkResponse status (Json result) ->
  let failed := (ImportRoute.totalCount result
                 - ImportRoute.validCount result)%nat in
  ImportRoute.totalCount result = length rows
  /\ ImportRoute.validCount result = ImportRoute.imported result
  /\ ImportRoute.imported result = length validRows
  /\ (ImportRoute.imported result <= ImportRoute.totalCount result)%nat
  /\ length (ImportRoute.errors result) = min 100 failed
  /\ Forall (names_row rows 0) (ImportRoute.errors result)
  /\ ImportRoute.hasMoreErrors result = bool_decide (100 < failed)%nat
  /\ ImportRoute.success result = bool_decide (failed = 0%nat)
  /\ status = (if bool_decide (failed = 0%nat) then 200 else 207)%nat.
Proof.
  intros Hlen Hall. unfold ImportRoute.response, json.
  intros [= <- <-]. simpl.
  replace (length rows - length validRows)%nat with (length errors) by lia.
  rewrite length_take. repeat split; try done; try lia.
  by apply Forall_take.
Qed.

(** C4. A completed import reports the number of data rows
    ([totalCount]), the number of accepted rows ([validCount], which is
    also [imported] and the number of rows added to the store), and the
    first 100 at most of the row errors; every reported error carries
    the line of its row, counting the header as line 1; [hasMoreErrors]
    is set exactly when more than 100 rows failed; the result is a
    success with status 200 exactly when no row failed, and a partial
    success with status 207 otherwise, whatever was imported. *)
Theorem import_report env st session file st' status result :
  ImportRoute.POST isEmail env st session file
  = (st', mkResponse status (Json result)) ->
  exists f, file = Some f /\
    let rows := ImportRoute.parse_data f in
    let failed := (ImportRoute.totalCount result
                   - ImportRoute.validCount result)%nat in
    ImportRoute.totalCount result = length rows
    /\ ImportRoute.validCount result = ImportRoute.imported result
    /\ (ImportRoute.imported result <= ImportRoute.totalCount result)%nat
    /\ length (buyers st')
       = (length (buyers st) + ImportRoute.imported result)%nat
    /\ length (ImportRoute.errors result) = min 100 failed
    /\ Forall (names_row rows 0) (ImportRoute.errors result)
    /\ ImportRoute.hasMoreErrors result = bool_decide (100 < failed)%nat
    /\ ImportRoute.success result = bool_decide (failed = 0%nat)
    /\ status = (if bool_decide (failed = 0%nat) then 200 else 207)%nat.
Proof.
  unfold ImportRoute.POST.
  destruct (signed_in session) as [uid|]; [|done].
  destruct file as [f|]; [|done].
  destruct (negb _ && negb _); [done|].
  destruct (bool_decide (0 < _)%nat); [done|].
  destruct (bool_decide (_ = 0%nat)); [done|].
  destruct (bool_decide (200 < _)%nat); [done|].
  destruct (ImportRoute.validate_rows _ _ _ _ _ _ _ _ _ _)
    as [validRows errors] eqn:E.
  apply validate_rows_spec in E as (newv & newe & -> & -> & Hlen & Hall).
  rewrite !app_nil_l. intros H. exists f. split; [done|].
  destruct (bool_decide (0 < length newv)%nat) eqn:Hv.
  - destruct (ImportRoute.transaction env uid newv st) as [st1|] eqn:Et; [|done].
    apply transaction_buyers in Et as (written & _ & Hw & Hb & _).
    apply pair_equal_spec in H as [<- H].
    apply response_report in H as (? & ? & Hi & ? & ? & ? & ? & ? & ?); try done.
    rewrite Hb, length_app. repeat split; try done; lia.
  - apply bool_decide_eq_false in Hv.
    apply pair_equal_spec in H as [<- H].
    apply response_report in H as (? & ? & Hi & ? & ? & ? & ? & ? & ?); try done.
    repeat split; try done; lia.
Qed.
End ImportProperties.

(** ** Update: the concurrency token *)

Section UpdateProperties.
Variables isEmail isUuid isDatetime : string -> bool.

Lemma updateBuyerSchema_valid body :
  updateBuyerSchema_issues isEmail isUuid isDatetime body = [] ->
  updateBuyerSchema isEmail isUuid isDatetime body
  = inl (mkValidUpdate (body_id body) (with_defaults (body_fields body))
           (body_updatedAt body)).
Proof. unfold updateBuyerSchema. by intros ->. Qed.

Lemma updateBuyerSchema_token body v :
  updateBuyerSchema isEmail isUuid isDatetime body = inl v ->
  upd_updatedAt v = body_updatedAt body.
Proof.
  unfold updateBuyerSchema.
  destruct (updateBuyerSchema_issues _ _ _ _); [|done]. by intros [= <-].
Qed.

(** A request with a stale token never reaches a write. *)
Lemma stale_token_outcome env st r currentBuyer :
  select_buyer st (BuyerById.put_params_id r) = Some currentBuyer ->
  toISOString (updatedAt currentBuyer)
  ≠ body_updatedAt (BuyerById.put_body r) ->
  exists status e,
    BuyerById.PUT isEmail isUuid isDatetime env st r = (st, fail status e)
    /\ status ∈ [401; 400; 403; 409]%nat.
Proof.
  intros Hsel Hstale. unfold BuyerById.PUT. rewrite check_result. simpl.
  destruct (signed_in _) as [uid|]; [|eexists _, _; split; [done|set_solver]].
  destruct (updateBuyerSchema _ _ _ _) as [v|] eqn:Ev;
    [|eexists _, _; split; [done|set_solver]].
  rewrite Hsel.
  destruct (negb (bool_decide (ownerId currentBuyer = uid)));
    [eexists _, _; split; [done|set_solver]|].
  apply updateBuyerSchema_token in Ev. rewrite Ev.
  rewrite (bool_decide_eq_false_2 (toISOString _ = _)) by done. simpl.
  eexists _, _; split; [done|set_solver].
Qed.

(** C2 (as amended). Whoever sends it and whatever the answer, an update
    request whose token differs from the stored [updatedAt] of the record
    is answered with an error and leaves the store untouched: the record
    keeps every field, [updatedAt] included, and no history entry is
    written.  When the request comes from the signed-in owner with a body
    the update schema accepts, the answer is the 409 conflict. *)
Theorem stale_token_conflict env st r currentBuyer :
  select_buyer st (BuyerById.put_params_id r) = Some currentBuyer ->
  toISOString (updatedAt currentBuyer)
  ≠ body_updatedAt (BuyerById.put_body r) ->
  (BuyerById.PUT isEmail isUuid isDatetime env st r).1 = st
  /\ is_error (BuyerById.PUT isEmail isUuid isDatetime env st r).2
  /\ (signed_in (BuyerById.put_session r) = Some (ownerId currentBuyer) ->
      updateBuyerSchema_issues isEmail isUuid isDatetime (BuyerById.put_body r) = [] ->
      (BuyerById.PUT isEmail isUuid isDatetime env st r).2
      = fail 409 BuyerById.conflict_message).
Proof.
  intros Hsel Hstale.
  destruct (stale_token_outcome env st r currentBuyer Hsel Hstale)
    as (status & e & Hput & _).
  rewrite Hput. split; [done|]. split; [done|].
  intros Hin Hvalid. revert Hput. unfold BuyerById.PUT.
  rewrite check_result, Hin, (updateBuyerSchema_valid _ Hvalid), Hsel. simpl.
  rewrite (bool_decide_eq_true_2 (ownerId _ = _)) by done.
  rewrite (bool_decide_eq_false_2 (toISOString _ = _)) by done.
  simpl. by intros [= <- <-].
Qed.
End UpdateProperties.

(** ** Update: the diff *)

Lemma diff_fold_lookup cur val key ks :
  forall acc,
    foldl (BuyerById.diff_step cur val) acc ks !! key
    = if bool_decide (key ∈ ks)
         && negb (bool_decide (key = "id"))
         && negb (bool_decide (key = "updatedAt"))
         && strict_neq (prop cur key) (prop val key)
      then Some (prop cur key, prop val key)
      else acc !! key.
Proof.
  induction ks as [|k ks IH]; intros acc; cbn [foldl].
  - by rewrite (bool_decide_eq_false_2 (key ∈ [])) by apply not_elem_of_nil.
  - rewrite IH. clear IH.
    destruct (decide (key ∈ ks)) as [Hin|Hin].
    + rewrite !(bool_decide_eq_true_2 (key ∈ ks)) by done.
      rewrite (bool_decide_eq_true_2 (key ∈ k :: ks)) by by right.
      simpl. case_match; [done|].
      unfold BuyerById.diff_step. case_match; [|done].
      destruct (decide (k = key)) as [->|Hne];
        [congruence|by rewrite lookup_insert_ne].
    + rewrite !(bool_decide_eq_false_2 (key ∈ ks)) by done. simpl.
      unfold BuyerById.diff_step.
      destruct (decide (k = key)) as [->|Hne].
      * rewrite (bool_decide_eq_true_2 (key ∈ key :: ks)) by by left.
        simpl. case_match; [by rewrite lookup_insert_eq|done].
      * rewrite (bool_decide_eq_false_2 (key ∈ k :: ks))
          by (by intros [?|?]%elem_of_cons).
        simpl. case_match; [by rewrite lookup_insert_ne|done].
Qed.

(** The diff has exactly the keys of [validatedData], other than [id] and
    [updatedAt], at which the two objects are not [===]. *)
Lemma compute_diff_lookup cur val key :
  BuyerById.compute_diff cur val !! key
  = if bool_decide (key ∈ keys val)
       && negb (bool_decide (key = "id"))
       && negb (bool_decide (key = "updatedAt"))
       && strict_neq (prop cur key) (prop val key)
    then Some (prop cur key, prop val key)
    else None.
Proof.
  unfold BuyerById.compute_diff. rewrite diff_fold_lookup.
  by rewrite lookup_empty.
Qed.

(** The stored array and the parsed array are two objects: [tags] is in
    every diff. *)
Lemma tags_always_in_diff (b : Buyer) (v : UpdateBuyer) :
  BuyerById.compute_diff (row_object 1 b) (update_object 0 v) !! "tags"
  = Some (JArr 1 (tags (fields b)), JArr 0 (tags (upd_fields v))).
Proof.
  rewrite compute_diff_lookup.
  destruct v as [i [n e p c t k pu lo hi tl so stt no tg] u]. simpl.
  destruct e, k, lo, hi, no; reflexivity.
Qed.

Lemma diff_never_empty (b : Buyer) (v : UpdateBuyer) :
  (0 < size (BuyerById.compute_diff (row_object 1 b) (update_object 0 v)))%nat.
Proof.
  assert (size (BuyerById.compute_diff (row_object 1 b) (update_object 0 v)) ≠ 0%nat);
    [|lia].
  eapply map_size_ne_0_lookup_2. rewrite tags_always_in_diff. done.
Qed.

Section DiffProperties.
Variables isEmail isUuid isDatetime : string -> bool.

(** Every update that is applied appends one history entry, and the
    entry has the key [tags]. *)
Lemma applied_update_appends_history env st r st' updated :
  BuyerById.PUT isEmail isUuid isDatetime env st r = (st', json 200 updated) ->
  exists h d,
    buyerHistory st' = buyerHistory st ++ [h]
    /\ diff h = FieldDiff d
    /\ is_Some (d !! "tags").
Proof.
  unfold BuyerById.PUT. rewrite check_result. simpl.
  destruct (signed_in _) as [uid|]; [|done].
  destruct (updateBuyerSchema _ _ _ _) as [v|]; [|done].
  destruct (select_buyer _ _) as [b|]; [|done].
  destruct (negb (bool_decide (ownerId b = uid))); [done|].
  destruct (negb (bool_decide (toISOString _ = _))); [done|].
  unfold update_buyer.
  destruct (_ && _); [|done].
  rewrite (bool_decide_eq_true_2 (0 < size _)%nat) by apply diff_never_empty.
  unfold insert_history. simpl. destruct (existsb _ _); [|done].
  intros [= <- _]. simpl. eexists _, _. split; [done|]. split; [done|].
  by rewrite tags_always_in_diff.
Qed.
End DiffProperties.

(** C3 (the code at the failing input). The owner of the sample record
    sends back the stored value of every field with the right token: the
    update is applied, [updatedAt] is bumped, and one history entry is
    appended all the same, whose diff has the single key [tags], from the
    stored array to the equal array of the request.  With only the status
    changed, the diff of the appended entry has two keys, [status] and
    [tags]. *)
Theorem unchanged_update_appends_history :
  let PUT := BuyerById.PUT Reference.isEmail Reference.isUuid Reference.isDatetime in
  let same := PUT Sample.env Sample.store
                (Sample.put Sample.owner New Sample.fresh_token) in
  let qualified := PUT Sample.env Sample.store
                     (Sample.put Sample.owner Qualified Sample.fresh_token) in
  with_defaults (body_fields (Sample.update_body New Sample.fresh_token))
  = fields Sample.john
  /\ same.2
     = json 200 (Some (mkRow Sample.john_id Sample.john_fields Sample.owner
                         Sample.created (now Sample.env)))
  /\ buyerHistory same.1
     = buyerHistory Sample.store
       ++ [mkHistory Sample.john_id Sample.owner (now Sample.env)
             (FieldDiff {[ "tags" := (JArr 1 [], JArr 0 []) ]})]
  /\ http_status qualified.2 = 200%nat
  /\ buyerHistory qualified.1
     = buyerHistory Sample.store
       ++ [mkHistory Sample.john_id Sample.owner (now Sample.env)
             (FieldDiff (<["status" := (JStr "New", JStr "Qualified")]>
                           {[ "tags" := (JArr 1 [], JArr 0 []) ]}))].
Proof. vm_compute. repeat split; reflexivity. Qed.

(** ** CSV import: duplicates within the batch *)

Section DuplicateProperties.
Variable isEmail : string -> bool.

(** With the two sets empty, the loop body never reports a duplicate. *)
Lemma process_row_no_duplicate env st uid validRows i r e :
  ImportRoute.process_row isEmail env st uid ∅ ∅ validRows i r = inr e ->
  ImportRoute.message e = ImportRoute.SchemaViolation
  \/ ImportRoute.message e = ImportRoute.AlreadyExists.
Proof.
  unfold ImportRoute.process_row.
  rewrite !(bool_decide_eq_false_2 (_ ∈ ∅)) by set_solver.
  rewrite !andb_false_r.
  repeat case_match; intros [= <-]; simpl; auto.
Qed.

Lemma validate_rows_no_duplicate env st uid rows :
  forall i validRows errors vs es,
    ImportRoute.validate_rows isEmail env st uid ∅ ∅ i rows validRows errors
    = (vs, es) ->
    Forall (fun e => ImportRoute.message e = ImportRoute.SchemaViolation
                     \/ ImportRoute.message e = ImportRoute.AlreadyExists) errors ->
    Forall (fun e => ImportRoute.message e = ImportRoute.SchemaViolation
                     \/ ImportRoute.message e = ImportRoute.AlreadyExists) es.
Proof.
  induction rows as [|r rows IH]; intros i validRows errors vs es; simpl.
  - by intros [= <- <-].
  - destruct (ImportRoute.process_row _ _ _ _ _ _ _ _ _) as [b|e] eqn:E;
      intros H Hall; eapply IH; try exact H; [done|].
    apply Forall_app. split; [done|].
    constructor; [|constructor]. by eapply process_row_no_duplicate.
Qed.

(** No completed import reports a duplicate within the batch. *)
Lemma import_never_reports_a_duplicate env st session file st' status result :
  ImportRoute.POST isEmail env st session file
  = (st', mkResponse status (Json result)) ->
  Forall (fun e => ImportRoute.message e = ImportRoute.SchemaViolation
                   \/ ImportRoute.message e = ImportRoute.AlreadyExists)
    (ImportRoute.errors result).
Proof.
  unfold ImportRoute.POST.
  destruct (signed_in session) as [uid|]; [|done].
  destruct file as [f|]; [|done].
  destruct (negb _ && negb _); [done|].
  destruct (bool_decide (0 < _)%nat); [done|].
  destruct (bool_decide (_ = 0%nat)); [done|].
  destruct (bool_decide (200 < _)%nat); [done|].
  destruct (ImportRoute.validate_rows _ _ _ _ _ _ _ _ _ _)
    as [validRows errors] eqn:E.
  apply validate_rows_no_duplicate in E; [|constructor].
  assert (forall s, (s, ImportRoute.response (ImportRoute.parse_data f) validRows errors)
                    = (st', mkResponse status (Json result)) ->
                    Forall (fun e => ImportRoute.message e = ImportRoute.SchemaViolation
                                     \/ ImportRoute.message e = ImportRoute.AlreadyExists)
                      (ImportRoute.errors result)) as Hresp.
  { intros s. unfold ImportRoute.response, json. intros [= _ _ <-]. simpl.
    by apply Forall_take. }
  destruct (bool_decide (0 < length validRows)%nat); [|apply Hresp].
  destruct (ImportRoute.transaction _ _ _ _); [apply Hresp|done].
Qed.
End DuplicateProperties.

(** C1 (the code at the failing input). A signed-in user uploads, into an
    empty store, a file of two valid rows that have the same phone and the
    same email: the import answers 200 with no row error, and both rows are
    inserted, each with its history entry. *)
Theorem duplicate_rows_both_inserted :
  let out := ImportRoute.POST Reference.isEmail Sample.env Sample.empty_store
               (Some Sample.owner) (Some (Sample.csv_file Sample.duplicate_rows)) in
  out.2 = json 200 (ImportRoute.mkResult true (ImportRoute.SuccessfullyImported 2)
                      2 [] 2 2 false)
  /\ (phone ∘ fields) <$> buyers out.1 = ["9876543210"; "9876543210"]
  /\ (email ∘ fields) <$> buyers out.1
     = [Some "john@example.com"; Some "john@example.com"]
  /\ (fullName ∘ fields) <$> buyers out.1 = ["John Doe"; "Jane Roe"]
  /\ length (buyerHistory out.1) = 2%nat.
Proof. vm_compute. repeat split; reflexivity. Qed.

(** ** Listing *)


Lemma double_exact (n : Z) : Z.abs n <= 2 ^ 53 -> double n = n.
Proof. intros H. unfold double. by rewrite bool_decide_eq_true_2. Qed.

Lemma double_large (n : Z) : 2 ^ 53 <= n -> 2 ^ 53 <= double n.
Proof.
  intros Hn. unfold double.
  case_bool_decide as Hm; [done|].
  assert (0 < n) as Hpos by lia.
  rewrite Z.abs_eq by lia. rewrite Z.sgn_pos by lia.
  set (e := Z.log2 n - 52).
  assert (53 <= Z.log2 n) as Hlog.
  { change 53 with (Z.log2 (2 ^ 53)). apply Z.log2_le_mono. lia. }
  assert (2 ^ 52 <= n / 2 ^ e) as Hq.
  { apply Z.div_le_lower_bound; [apply Z.pow_pos_nonneg; lia|].
    rewrite <- Z.pow_add_r by lia.
    replace (e + 52) with (Z.log2 n) by lia. by apply Z.log2_spec. }
  assert (2 ^ 1 <= 2 ^ e) as He by (apply Z.pow_le_mono_r; lia).
  set (q := n / 2 ^ e) in *. set (d := 2 ^ e) in *.
  change (2 ^ 1) with 2 in He. change (2 ^ 52) with 4503599627370496 in Hq.
  change (2 ^ 53) with 9007199254740992.
  destruct (_ || _); nia.
Qed.

(** Rounding keeps a number at or beyond a count of records. *)
Lemma double_beyond (n count : Z) :
  0 <= count <= 2 ^ 53 -> count <= n -> count <= double n.
Proof.
  intros Hc Hn. destruct (decide (n <= 2 ^ 53)) as [Hs|Hs].
  - rewrite double_exact; [done|]. rewrite Z.abs_eq; lia.
  - pose proof (double_large n ltac:(lia)). lia.
Qed.

Section ListingProperties.
Variable ilike : string -> string -> bool.
Variable parseInt : string -> option Z.
Variable orderBy :
  BuyersRoute.SortBy -> BuyersRoute.SortOrder -> list Buyer -> list Buyer.



(** The filter does not look at the owner of a row. *)
Lemma whereClause_set_owner v owner b :
  BuyersRoute.whereClause ilike v (set_owner owner b)
  = BuyersRoute.whereClause ilike v b.
Proof.
  unfold BuyersRoute.whereClause, BuyersRoute.conditions, and_all.
  rewrite !forallb_app. unfold BuyersRoute.eq_filter.
  repeat case_match; reflexivity.
Qed.

(** The listing is the same whoever is signed in. *)
Lemma GET_any_user st s1 s2 params :
  is_Some (signed_in s1) -> is_Some (signed_in s2) ->
  BuyersRoute.GET ilike parseInt orderBy st s1 params
  = BuyersRoute.GET ilike parseInt orderBy st s2 params.
Proof.
  intros [u1 H1] [u2 H2]. unfold BuyersRoute.GET. by rewrite H1, H2.
Qed.

Section Page.
Hypothesis orderBy_permutation :
  forall column direction rows, orderBy column direction rows ≡ₚ rows.




End Page.
End ListingProperties.

Section ExportProperties.
Variable ilike : string -> string -> bool.

(** The export selects rows of the requesting user only. *)
Lemma export_own_rows st uid query :
  exists rows,
    ExportRoute.GET ilike st (Some uid) query = json 200 rows
    /\ Forall (fun b => ownerId b = uid) rows.
Proof.
  eexists. split; [reflexivity|].
  apply Forall_forall. intros b Hb.
  apply list_elem_of_In, filter_In in Hb as [_ Hb].
  unfold and_all, ExportRoute.conditions in Hb. simpl in Hb.
  apply andb_true_iff in Hb as [Hb _]. by apply bool_decide_eq_true in Hb.
Qed.
End ExportProperties.

(** C9. The listing does not depend on who is signed in: two signed-in
    users who send the same query parameters against the same store get
    the same response, records, total and pagination alike.  The filter of
    the listing does not read the owner of a record, so a matching record
    is selected whoever owns it; the export, in contrast, selects records
    of the requesting user only. *)
Theorem listing_ignores_requester
    (ilike : string -> string -> bool) (parseInt : string -> option Z)
    (orderBy : BuyersRoute.SortBy -> BuyersRoute.SortOrder -> list Buyer -> list Buyer)
    (st : Store) (s1 s2 : Session) (params : BuyersRoute.QueryString) :
  is_Some (signed_in s1) -> is_Some (signed_in s2) ->
  BuyersRoute.GET ilike parseInt orderBy st s1 params
  = BuyersRoute.GET ilike parseInt orderBy st s2 params
  /\ (forall v owner b,
        BuyersRoute.whereClause ilike v (set_owner owner b)
        = BuyersRoute.whereClause ilike v b)
  /\ (forall uid query,
        exists rows,
          ExportRoute.GET ilike st (Some uid) query = json 200 rows
          /\ Forall (fun b => ownerId b = uid) rows).
Proof.
  intros H1 H2. split; [by apply GET_any_user|].
  split; [apply whereClause_set_owner|apply export_own_rows].
Qed.

(** ** The properties on the sample data *)

Lemma reference_orderBy_permutation column direction rows :
  Reference.orderBy column direction rows ≡ₚ rows.
Proof. apply merge_sort_Permutation. Qed.

(** The bedroom rule on the samples.  A plot is accepted without bedroom
    category and with one; the apartment of the end-to-end example is
    accepted with its category and rejected without it, on the path of the
    category. *)
Lemma bhk_required_exactly_for_residential_witness :
  buyerSchema Reference.isEmail Sample.plot_input
  = inl (with_defaults Sample.plot_input)
  /\ buyerSchema Reference.isEmail (set_bhk (Some Bhk2) Sample.plot_input)
     = inl (with_defaults (set_bhk (Some Bhk2) Sample.plot_input))
  /\ ~ fails_with bhk_required (buyerSchema Reference.isEmail Sample.plot_input)
  /\ buyerSchema Reference.isEmail Sample.john_input
     = inl (with_defaults Sample.john_input)
  /\ fails_with bhk_required
       (buyerSchema Reference.isEmail (set_bhk None Sample.john_input))
  /\ buyerSchema Reference.isEmail (set_bhk None Sample.john_input)
     ≠ inl (with_defaults (set_bhk None Sample.john_input)).
Proof.
  destruct (bhk_required_exactly_for_residential Reference.isEmail Sample.plot_input)
    as (Hplot_fails & Hplot & Hfree).
  destruct (bhk_required_exactly_for_residential Reference.isEmail Sample.john_input)
    as (_ & Hjohn & _).
  destruct (bhk_required_exactly_for_residential Reference.isEmail
              (set_bhk None Sample.john_input))
    as (Hbare_fails & Hbare & _).
  split; [|split; [|split; [|split; [|split]]]].
  - apply Hplot. split; [reflexivity|]. split; [reflexivity|].
    intros [[?|?] _]; discriminate.
  - apply (Hfree ltac:(discriminate) ltac:(discriminate) (Some Bhk2)).
    split; reflexivity.
  - intros H. apply Hplot_fails in H as [[?|?] _]; discriminate.
  - apply Hjohn. split; [reflexivity|]. split; [reflexivity|].
    intros [_ ?]. discriminate.
  - apply Hbare_fails. split; [by left|reflexivity].
  - intros H. apply Hbare in H as (_ & _ & H). apply H.
    split; [by left|reflexivity].
Defined.

(** The owner deletes the sample record. *)
Lemma delete_removes_history_witness :
  exists st',
    BuyerById.DELETE Sample.store (Some Sample.owner) Sample.john_id
    = (st', json 200 true)
    /\ history_of st' Sample.john_id = []
    /\ Forall (fun h => buyerId h ≠ Sample.john_id) (buyerHistory st')
    /\ select_buyer st' Sample.john_id = None
    /\ no_orphans st'.
Proof.
  destruct (delete_removes_history Sample.store Sample.owner Sample.john_id Sample.john)
    as (st' & H1 & H2 & H3 & H4 & H5); [reflexivity|reflexivity|reflexivity|].
  exists st'. split; [exact H1|]. split; [exact H2|]. split; [exact H3|].
  split; [exact H4|]. apply H5. repeat constructor.
Defined.

(** The owner sends a stale token: 409, nothing changes. *)
Lemma stale_token_conflict_witness :
  let out := BuyerById.PUT Reference.isEmail Reference.isUuid Reference.isDatetime
               Sample.env Sample.store
               (Sample.put Sample.owner Qualified Sample.stale_token) in
  out.1 = Sample.store /\ is_error out.2
  /\ out.2 = fail 409 BuyerById.conflict_message.
Proof.
  destruct (stale_token_conflict Reference.isEmail Reference.isUuid Reference.isDatetime
              Sample.env Sample.store
              (Sample.put Sample.owner Qualified Sample.stale_token) Sample.john)
    as (H1 & H2 & H3); [reflexivity|discriminate|].
  split; [exact H1|]. split; [exact H2|]. apply H3; reflexivity.
Defined.

(** C2 (counterexample to the claim as stated). Another signed-in user
    sends a valid update of the sample record with a token that differs
    from the stored [updatedAt]: the answer is 403 Forbidden, not the
    conflict. *)
Lemma stale_token_from_another_user_is_forbidden :
  let r := Sample.put Sample.visitor Qualified Sample.stale_token in
  let out := BuyerById.PUT Reference.isEmail Reference.isUuid Reference.isDatetime
               Sample.env Sample.store r in
  select_buyer Sample.store (BuyerById.put_params_id r) = Some Sample.john
  /\ toISOString (updatedAt Sample.john) ≠ body_updatedAt (BuyerById.put_body r)
  /\ out.2 = fail 403 "Forbidden"
  /\ out.2 ≠ fail 409 BuyerById.conflict_message.
Proof. repeat split; (reflexivity || discriminate). Qed.

(** A file of 201 rows. *)
Lemma oversized_import_rejected_witness :
  let out := ImportRoute.POST Reference.isEmail Sample.env Sample.store
               (Some Sample.owner) (Some Sample.oversized_file) in
  out.1 = Sample.store /\ is_error out.2
  /\ out.2 = fail 400 "CSV file too large. Maximum 200 rows allowed.".
Proof.
  destruct (oversized_import_rejected Reference.isEmail Sample.env Sample.store
              (Some Sample.owner) Sample.oversized_file)
    as (H1 & H2 & H3); [vm_compute; lia|].
  split; [exact H1|]. split; [exact H2|].
  apply H3; [by eexists|by left|reflexivity].
Defined.

(** Three valid rows and one with an invalid phone: 207, three imported,
    one error, on line 3. *)
Lemma import_report_witness :
  exists st' result,
    ImportRoute.POST Reference.isEmail Sample.env Sample.empty_store
      (Some Sample.owner) (Some (Sample.csv_file Sample.mixed_rows))
    = (st', mkResponse 207 (Json result))
    /\ ImportRoute.row <$> ImportRoute.errors result = [3%nat]
    /\ exists f, Some (Sample.csv_file Sample.mixed_rows) = Some f /\
        let rows := ImportRoute.parse_data f in
        let failed := (ImportRoute.totalCount result
                       - ImportRoute.validCount result)%nat in
        ImportRoute.totalCount result = length rows
        /\ ImportRoute.validCount result = ImportRoute.imported result
        /\ (ImportRoute.imported result <= ImportRoute.totalCount result)%nat
        /\ length (buyers st')
           = (length (buyers Sample.empty_store) + ImportRoute.imported result)%nat
        /\ length (ImportRoute.errors result) = min 100 failed
        /\ Forall (names_row rows 0) (ImportRoute.errors result)
        /\ ImportRoute.hasMoreErrors result = bool_decide (100 < failed)%nat
        /\ ImportRoute.success result = bool_decide (failed = 0%nat)
        /\ 207%nat = (if bool_decide (failed = 0%nat) then 200 else 207)%nat.
Proof.
  eexists _, _. split; [reflexivity|]. split; [reflexivity|].
  eapply (import_report Reference.isEmail Sample.env Sample.empty_store
            (Some Sample.owner)).
  reflexivity.
Defined.



(** C7 (a second counterexample to the claim as stated). A signed-in user
    asks for page 10^20 with the default page size of 10: the page is at
    least 1 and the page size at most 50, the schema accepts both, the
    offset is the double 10^21, beyond [bigint], and the listing answers
    500. *)
Example page_beyond_bigint_is_an_error :
  let params := Sample.query (Some "100000000000000000000") None in
  BuyersRoute.number_param Reference.parseInt (BuyersRoute.q_page params) 1
  = Some (10 ^ 20)
  /\ BuyersRoute.number_param Reference.parseInt (BuyersRoute.q_limit params) 10
     = Some 10
  /\ double (double (10 ^ 20 - 1) * 10) = 10 ^ 21
  /\ BuyersRoute.GET Reference.ilike Reference.parseInt Reference.orderBy
       Sample.store (Some Sample.owner) params
     = fail 500 "Internal server error".
Proof. repeat split; vm_compute; reflexivity. Qed.

(** The owner and another user list the sample store: the same answer,
    and the other user is shown the record of the owner. *)
Lemma listing_ignores_requester_witness :
  BuyersRoute.GET Reference.ilike Reference.parseInt Reference.orderBy
    Sample.store (Some Sample.owner) (Sample.query None None)
  = BuyersRoute.GET Reference.ilike Reference.parseInt Reference.orderBy
      Sample.store (Some Sample.visitor) (Sample.query None None)
  /\ (exists listing,
        BuyersRoute.GET Reference.ilike Reference.parseInt Reference.orderBy
          Sample.store (Some Sample.visitor) (Sample.query None None)
        = json 200 listing
        /\ BuyersRoute.data listing = [Sample.john]
        /\ ownerId Sample.john ≠ Sample.visitor)
  /\ (forall v owner b,
        BuyersRoute.whereClause Reference.ilike v (set_owner owner b)
        = BuyersRoute.whereClause Reference.ilike v b)
  /\ (forall uid query,
        exists rows,
          ExportRoute.GET Reference.ilike Sample.store (Some uid) query
          = json 200 rows
          /\ Forall (fun b => ownerId b = uid) rows).
Proof.
  destruct (listing_ignores_requester Reference.ilike Reference.parseInt
              Reference.orderBy Sample.store (Some Sample.owner)
              (Some Sample.visitor) (Sample.query None None))
    as (H1 & H2 & H3); [by eexists|by eexists|].
  split; [exact H1|]. split; [|split; [exact H2|exact H3]].
  eexists. split; [reflexivity|]. split; [reflexivity|discriminate].
Defined.

(** The end-to-end example: creating the sample candidate in an empty store
    answers 201 with a record whose status is the default, and writes the
    history entry of the creation. *)
Example create_defaults_status :
  let out := BuyersRoute.POST Reference.isEmail Sample.env Sample.empty_store
               (Some Sample.owner) Sample.request Sample.john_input in
  http_status out.2 = 201%nat
  /\ (status ∘ fields) <$> buyers out.1 = [New]
  /\ ownerId <$> buyers out.1 = [Sample.owner]
  /\ length (buyerHistory out.1) = 1%nat.
Proof. vm_compute. repeat split; reflexivity. Qed.

(* ===================================================================== *)
(** * Further properties of the handlers *)
(* ===================================================================== *)

(** ** Reading one buyer *)

Section ReadProperties.
Variable newest_first : list HistoryEntry -> list HistoryEntry.
Variable uuid_in : string -> option string.
Hypothesis newest_first_permutation : forall l, newest_first l ≡ₚ l.

(** X1. Any signed-in user, owner or not, can fetch a buyer.  An id that
    is no UUID makes the query raise and is answered 500; a UUID that no
    record has is answered 404; otherwise the answer is the record whose
    id the UUID spells, in whatever spelling it was sent, with the first
    five history entries of the record in the order of the query: at most
    five, each an entry of the store that references the record, and all
    of its entries when it has five or fewer. *)
Theorem fetch_with_recent_history st session key :
  is_Some (signed_in session) ->
  match uuid_in key with
  | None =>
      BuyerById.GET newest_first uuid_in st session key
      = fail 500 "Internal server error"
  | Some id =>
      match select_buyer st id with
      | None =>
          BuyerById.GET newest_first uuid_in st session key
          = fail 404 "Buyer not found"
      | Some b =>
          exists h,
            BuyerById.GET newest_first uuid_in st session key = json 200 (b, h)
            /\ buyer_id b = id
            /\ h = take 5 (newest_first (history_of st id))
            /\ (length h <= 5)%nat
            /\ Forall (fun e => e ∈ buyerHistory st /\ buyerId e = id) h
            /\ ((length (history_of st id) <= 5)%nat -> h ≡ₚ history_of st id)
      end
  end.
Proof.
  intros [uid Hin]. unfold BuyerById.GET. rewrite Hin.
  destruct (uuid_in key) as [id|]; [|done].
  destruct (select_buyer st id) as [b|] eqn:Hsel; [|done].
  eexists. split; [reflexivity|]. split.
  { unfold select_buyer in Hsel. apply find_some in Hsel as [_ Hid].
    unfold has_id in Hid. by apply bool_decide_eq_true in Hid. }
  split; [reflexivity|]. split; [rewrite length_take; lia|]. split.
  - apply Forall_forall. intros e He.
    apply subseteq_take in He. rewrite newest_first_permutation in He.
    apply list_elem_of_In, filter_In in He as [He Hk].
    split; [by apply list_elem_of_In|].
    unfold refers_to in Hk. by apply bool_decide_eq_true in Hk.
  - intros Hlen. rewrite take_ge; [done|].
    rewrite newest_first_permutation. done.
Qed.
End ReadProperties.

(** ** Update and delete: who may write, and what is written *)


Section WriteProperties.
Variables isEmail isUuid isDatetime : string -> bool.

(** X2. An update writes nothing and answers with an error unless the
    record exists, the signed-in requester is its owner, the token is the
    stored [updatedAt] and the body passes the update schema. *)
Theorem update_only_by_owner_with_token env st r st' resp :
  BuyerById.PUT isEmail isUuid isDatetime env st r = (st', resp) ->
  st' ≠ st \/ ~ is_error resp ->
  exists b,
    select_buyer st (BuyerById.put_params_id r) = Some b
    /\ signed_in (BuyerById.put_session r) = Some (ownerId b)
    /\ toISOString (updatedAt b) = body_updatedAt (BuyerById.put_body r)
    /\ updateBuyerSchema_issues isEmail isUuid isDatetime (BuyerById.put_body r) = [].
Proof.
  unfold BuyerById.PUT. rewrite check_result. simpl.
  destruct (signed_in _) as [uid|]; [|intros [= <- <-] [?|H]; [done|by destruct H]].
  unfold updateBuyerSchema.
  destruct (updateBuyerSchema_issues _ _ _ _) eqn:Ei;
    [|intros [= <- <-] [?|H]; [done|by destruct H]].
  destruct (select_buyer _ _) as [b|];
    [|intros [= <- <-] [?|H]; [done|by destruct H]].
  destruct (bool_decide (ownerId b = uid)) eqn:Eo; simpl;
    [|intros [= <- <-] [?|H]; [done|by destruct H]].
  destruct (bool_decide (toISOString (updatedAt b) = _)) eqn:Et; simpl;
    [|intros [= <- <-] [?|H]; [done|by destruct H]].
  intros _ _. exists b.
  apply bool_decide_eq_true in Eo, Et. subst uid. by repeat split.
Qed.

End WriteProperties.


(** ** The key constraints of the store *)

Lemma existsb_has_id k l :
  existsb (has_id k) l = true <-> k ∈ buyer_id <$> l.
Proof.
  rewrite existsb_exists, list_elem_of_fmap. unfold has_id.
  split.
  - intros (b & Hin & Hb). apply bool_decide_eq_true in Hb.
    exists b. split; [done|by apply list_elem_of_In].
  - intros (b & -> & Hin). exists b. split; [by apply list_elem_of_In|].
    by apply bool_decide_eq_true.
Qed.

Lemma pk_free_spec rows :
  forall taken,
    pk_free taken rows = true
    <-> NoDup (buyer_id <$> rows) /\ Forall (fun r => buyer_id r ∉ taken) rows.
Proof.
  induction rows as [|r rows IH]; intros taken; simpl.
  - split; [intros _; split; constructor|done].
  - rewrite andb_true_iff, negb_true_iff, bool_decide_eq_false, IH.
    rewrite NoDup_cons, Forall_cons. split.
    + intros (Hr & Hnd & Hall). split; [split; [|done]|split; [done|]].
      * intros Hin. apply list_elem_of_fmap in Hin as (r' & Heq & Hin).
        rewrite Forall_forall in Hall. destruct (Hall r' Hin). rewrite <- Heq. by left.
      * eapply Forall_impl; [exact Hall|]. intros r' Hr' ?. apply Hr'. by right.
    + intros ((Hr & Hnd) & (Ht & Hall)). split; [done|]. split; [done|].
      apply Forall_forall. intros r' Hin [Heq|?]%elem_of_cons.
      * apply Hr. rewrite <- Heq. apply list_elem_of_fmap. by exists r'.
      * rewrite Forall_forall in Hall. by apply (Hall r' Hin).
Qed.

Lemma no_orphans_more_buyers bs bs' hs :
  (forall k, k ∈ buyer_id <$> bs -> k ∈ buyer_id <$> bs') ->
  no_orphans (mkStore bs hs) -> no_orphans (mkStore bs' hs).
Proof.
  intros Hsub. unfold no_orphans. simpl. intros H.
  eapply Forall_impl; [exact H|].
  intros h. rewrite !existsb_has_id. apply Hsub.
Qed.

Lemma insert_buyers_well_formed rows st st' :
  insert_buyers rows st = Some st' ->
  well_formed st ->
  st' = mkStore (buyers st ++ rows) (buyerHistory st) /\ well_formed st'.
Proof.
  unfold insert_buyers. destruct (forallb _ _); [|done].
  destruct (pk_free _ _) eqn:Hpk; [|done].
  intros [= <-] [Hu Ho]. split; [done|].
  apply pk_free_spec in Hpk as [Hnd Hfresh]. split.
  - unfold unique_ids. simpl. rewrite fmap_app. apply NoDup_app.
    split; [done|]. split; [|done].
    intros k Hk Hin. apply list_elem_of_fmap in Hin as (r & -> & Hin).
    rewrite Forall_forall in Hfresh. by apply (Hfresh r Hin).
  - destruct st as [bs hs]. eapply no_orphans_more_buyers; [|exact Ho].
    simpl. intros k Hk. rewrite fmap_app. apply elem_of_app. by left.
Qed.

Lemma insert_history_well_formed h st st' :
  insert_history h st = Some st' ->
  well_formed st ->
  st' = mkStore (buyers st) (buyerHistory st ++ [h]) /\ well_formed st'.
Proof.
  unfold insert_history. destruct (existsb _ _) eqn:He; [|done].
  intros [= <-] [Hu Ho]. split; [done|]. split; [done|].
  unfold no_orphans. simpl. apply Forall_app. split; [done|].
  by constructor.
Qed.

Lemma NoDup_fmap_filter {A B} (f : A -> B) (p : A -> bool) (l : list A) :
  NoDup (f <$> l) -> NoDup (f <$> List.filter p l).
Proof.
  induction l as [|a l IH]; simpl; [done|].
  rewrite NoDup_cons. intros [Ha Hl]. destruct (p a); simpl; [|auto].
  apply NoDup_cons. split; [|auto].
  intros Hin. apply Ha. apply list_elem_of_fmap in Hin as (b & -> & Hin).
  apply list_elem_of_fmap. exists b. split; [done|].
  apply list_elem_of_In, filter_In in Hin as [Hin _]. by apply list_elem_of_In.
Qed.

Lemma delete_buyer_well_formed key st :
  well_formed st -> well_formed (delete_buyer key st).
Proof.
  intros [Hu Ho]. split; [|by apply no_orphans_delete].
  unfold unique_ids, delete_buyer. simpl. by apply NoDup_fmap_filter.
Qed.

Lemma update_split key (set : Buyer -> Buyer) (l : list Buyer) :
  (fun b => if has_id key b then set b else b) <$> l
  ≡ₚ List.filter (fun b => negb (has_id key b)) l
     ++ (set <$> List.filter (has_id key) l).
Proof.
  induction l as [|a l IH]; simpl; [done|].
  destruct (has_id key a); simpl.
  - rewrite IH. apply Permutation_middle.
  - by rewrite IH.
Qed.

Lemma update_buyer_well_formed key set st st1 returning :
  update_buyer key set st = Some (st1, returning) ->
  well_formed st ->
  buyerHistory st1 = buyerHistory st /\ well_formed st1.
Proof.
  unfold update_buyer.
  destruct (forallb _ _); simpl; [|done].
  destruct (pk_free _ _) eqn:Hpk; simpl; [|done].
  destruct (bool_decide (_ = []) || bool_decide (_ = [])) eqn:Hfk; [|done].
  intros [= <- _] [Hu Ho]. split; [done|].
  apply pk_free_spec in Hpk as [Hnd Hfresh]. split.
  - unfold unique_ids. simpl.
    rewrite (update_split key set (buyers st)), fmap_app.
    apply NoDup_app. split; [by apply NoDup_fmap_filter|]. split; [|done].
    intros k Hk Hin. apply list_elem_of_fmap in Hin as (r & -> & Hin).
    rewrite Forall_forall in Hfresh. by apply (Hfresh r Hin).
  - unfold no_orphans in *. simpl. rewrite Forall_forall in Ho.
    apply Forall_forall. intros h Hh. specialize (Ho h Hh).
    apply existsb_has_id. apply existsb_has_id in Ho.
    apply list_elem_of_fmap in Ho as (b & Hid & Hb).
    apply list_elem_of_fmap.
    destruct (has_id key b) eqn:Eb.
    + exists (set b). split.
      * apply orb_true_iff in Hfk as [Hm|Hm]; apply bool_decide_eq_true in Hm.
        -- assert (Hin : b ∈ List.filter (has_id key) (buyers st)).
           { apply list_elem_of_In, filter_In. split; [by apply list_elem_of_In|done]. }
           destruct (has_id key (set b)) eqn:Es.
           ++ unfold has_id in Eb, Es. apply bool_decide_eq_true in Eb, Es. congruence.
           ++ assert (set b ∈ @nil Buyer) as Hnil; [|by apply elem_of_nil in Hnil].
              assert (b ∈ List.filter (fun b0 => negb (has_id key (set b0)))
                        (List.filter (has_id key) (buyers st))) as Hmoved.
              { apply list_elem_of_In, filter_In. split; [by apply list_elem_of_In|].
                by rewrite Es. }
              rewrite Hm in Hmoved. by apply elem_of_nil in Hmoved.
        -- exfalso. unfold has_id in Eb. apply bool_decide_eq_true in Eb.
           assert (h ∈ history_of st key) as Hin.
           { apply list_elem_of_In, filter_In. split; [by apply list_elem_of_In|].
             unfold refers_to. apply bool_decide_eq_true. congruence. }
           rewrite Hm in Hin. by apply elem_of_nil in Hin.
      * apply list_elem_of_fmap. exists b. by rewrite Eb.
    + exists b. split; [done|]. apply list_elem_of_fmap. exists b. by rewrite Eb.
Qed.

(** ** CSV import: what is inserted *)

Lemma whole_multiple (x : Q) (n : Z) :
  whole x = Some n -> Qnum x = Z.pos (Qden x) * n.
Proof.
  unfold whole. case_bool_decide as Hm; [|done]. intros [= <-].
  pose proof (Z_div_mod_eq_full (Qnum x) (Z.pos (Qden x))). lia.
Qed.

(** On whole numbers, truthiness and order are those of the integers. *)
Lemma whole_truthy (x : Q) (n : Z) :
  whole x = Some n -> truthy_Q x = truthy_num n.
Proof.
  intros H. apply whole_multiple in H.
  unfold truthy_Q, truthy_num. f_equal. apply bool_decide_ext. nia.
Qed.

Lemma whole_less (x y : Q) (n m : Z) :
  whole x = Some n -> whole y = Some m -> less_Q x y = bool_decide (n < m).
Proof.
  intros Hx Hy. apply whole_multiple in Hx, Hy.
  unfold less_Q. apply bool_decide_ext. rewrite Hx, Hy.
  replace (Z.pos (Qden x) * n * Z.pos (Qden y))
    with (Z.pos (Qden x) * Z.pos (Qden y) * n) by lia.
  replace (Z.pos (Qden y) * m * Z.pos (Qden x))
    with (Z.pos (Qden x) * Z.pos (Qden y) * m) by lia.
  symmetry. apply Z.mul_lt_mono_pos_l. lia.
Qed.

(** What is written for a validated row is the row, its budgets read as
    the integers they are. *)
Lemma columns_fields (d : CsvBuyer) (written : BuyerData) :
  ImportRoute.columns d = Some written ->
  fullName written = fullName d /\ email written = email d
  /\ phone written = phone d /\ city written = city d
  /\ propertyType written = propertyType d /\ bhk written = bhk d
  /\ purpose written = purpose d /\ timeline written = timeline d
  /\ source written = source d /\ status written = status d
  /\ notes written = notes d /\ tags written = tags d
  /\ ImportRoute.integer_column (budgetMin d) = Some (budgetMin written)
  /\ ImportRoute.integer_column (budgetMax d) = Some (budgetMax written)
  /\ refine_bhk written = refine_bhk d
  /\ refine_budget written = csv_refine_budget d.
Proof.
  unfold ImportRoute.columns.
  destruct (ImportRoute.integer_column (budgetMin d)) as [lo|] eqn:Hlo; [|done].
  destruct (ImportRoute.integer_column (budgetMax d)) as [hi|] eqn:Hhi; [|done].
  intros [= <-]. simpl. do 14 (split; [done|]). split; [done|].
  unfold refine_budget, csv_refine_budget. simpl.
  unfold ImportRoute.integer_column in Hlo, Hhi.
  destruct (budgetMin d) as [x|], (budgetMax d) as [y|]; simpl in *.
  - destruct (whole x) as [n|] eqn:Hx; [|done].
    destruct (whole y) as [m|] eqn:Hy; [|done].
    injection Hlo as <-. injection Hhi as <-.
    by rewrite (whole_truthy _ _ Hx), (whole_truthy _ _ Hy), (whole_less _ _ _ _ Hy Hx).
  - destruct (whole x); [|done]. injection Hlo as <-. by injection Hhi as <-.
  - injection Hlo as <-. by destruct (whole y); [injection Hhi as <-|].
  - injection Hlo as <-. by injection Hhi as <-.
Qed.

Lemma to_row_some (v : ImportRoute.ValidRow) (b : Buyer) :
  ImportRoute.to_row v = Some b ->
  buyer_id b = ImportRoute.valid_id v
  /\ ownerId b = ImportRoute.valid_owner v
  /\ createdAt b = ImportRoute.valid_createdAt v
  /\ updatedAt b = ImportRoute.valid_updatedAt v
  /\ ImportRoute.columns (ImportRoute.valid_data v) = Some (fields b).
Proof.
  unfold ImportRoute.to_row.
  destruct (ImportRoute.columns _) as [d|]; [|done]. by intros [= <-].
Qed.

Section ImportEffect.
Variable isEmail : string -> bool.

Lemma csvBuyerSchema_rules t d :
  ImportRoute.csvBuyerSchema isEmail t = Some d ->
  phone_regex (phone d) = true
  /\ (2 <= String.length (fullName d) <= 80)%nat
  /\ refine_bhk d = true
  /\ csv_refine_budget d = true.
Proof.
  unfold ImportRoute.csvBuyerSchema.
  repeat (case_match; try done). intros [= <-]. simpl.
  repeat match goal with
         | H : negb _ = false |- _ => apply negb_false_iff in H
         | H : _ && _ = true |- _ => apply andb_true_iff in H as [? ?]
         | H : Nat.leb _ _ = true |- _ => apply Nat.leb_le in H
         end.
  repeat split; done.
Qed.

Lemma csvBuyerSchema_obeys t d written :
  ImportRoute.csvBuyerSchema isEmail t = Some d ->
  ImportRoute.columns d = Some written ->
  obeys_rules written.
Proof.
  intros Hd Hw. apply csvBuyerSchema_rules in Hd as (Hp & Hn & Hb & Hg).
  apply columns_fields in Hw
    as (En & _ & Ep & _ & _ & _ & _ & _ & _ & _ & _ & _ & _ & _ & Eb & Eg).
  unfold obeys_rules. rewrite En, Ep, Eb, Eg.
  split; [done|]. split; [done|]. by split.
Qed.

Lemma find_existing_none st uid d :
  ImportRoute.find_existing st uid d = None ->
  Forall (fun b' =>
            ownerId b' = uid ->
            phone (fields b') ≠ phone d
            /\ forall e, email d = Some e -> e ≠ "" -> email (fields b') ≠ Some e)
    (buyers st).
Proof.
  unfold ImportRoute.find_existing. intros Hnone.
  apply Forall_forall. intros b' Hin Ho.
  apply list_elem_of_In in Hin.
  pose proof (find_none _ _ Hnone b' Hin) as Hb. simpl in Hb.
  apply orb_false_iff in Hb as [Hp He].
  rewrite (bool_decide_eq_true_2 (ownerId b' = uid)) in Hp, He by done.
  rewrite andb_true_r in Hp. apply bool_decide_eq_false in Hp.
  split; [done|]. intros e Hemail Hne Heq. rewrite Hemail in He.
  rewrite andb_true_r in He. apply andb_false_iff in He as [He|He].
  - unfold truthy_str in He. apply negb_false_iff, bool_decide_eq_true in He. done.
  - apply bool_decide_eq_false in He. done.
Qed.

Lemma process_row_accepts env st uid sp se validRows i r v :
  ImportRoute.process_row isEmail env st uid sp se validRows i r = inl v ->
  ImportRoute.valid_id v = uuidv4 env (length validRows)
  /\ accepted_by isEmail env st uid [r] v.
Proof.
  unfold ImportRoute.process_row.
  destruct (_ && _); [done|]. destruct (_ && _); [done|].
  destruct (ImportRoute.csvBuyerSchema _ _) as [d|] eqn:Ed; [|done].
  destruct (ImportRoute.find_existing _ _ _) eqn:Ef; [done|].
  intros [= <-]. unfold accepted_by. simpl. do 4 (split; [done|]).
  split; [|done]. exists r. split; [by left|done].
Qed.

Lemma validate_rows_accepts env st uid sp se rows :
  forall i validRows errors vs es,
    ImportRoute.validate_rows isEmail env st uid sp se i rows validRows errors
    = (vs, es) ->
    exists newv,
      vs = validRows ++ newv
      /\ ImportRoute.valid_id <$> newv
         = uuidv4 env <$> seq (length validRows) (length newv)
      /\ Forall (accepted_by isEmail env st uid rows) newv.
Proof.
  induction rows as [|r rows IH]; intros i validRows errors vs es; simpl.
  - intros [= <- <-]. exists []. rewrite app_nil_r. by repeat split.
  - destruct (ImportRoute.process_row _ _ _ _ _ _ _ _ _) as [b|e] eqn:E;
      intros H; apply IH in H as (newv & -> & Hids & Hall).
    + exists (b :: newv). rewrite <- app_assoc. split; [done|].
      apply process_row_accepts in E as (Hid & Ho & Hc & Hu & (r' & Hr' & Hd) & Hf).
      split.
      * rewrite fmap_cons, Hid, Hids, length_app. simpl.
        by rewrite Nat.add_1_r.
      * constructor.
        -- do 3 (split; [done|]). split; [|done].
           exists r'. split; [|done].
           apply list_elem_of_singleton in Hr' as ->. by left.
        -- eapply Forall_impl; [exact Hall|].
           intros v (? & ? & ? & (r0 & ? & ?) & ?).
           do 3 (split; [done|]). split; [|done]. exists r0. split; [by right|done].
    + exists newv. split; [done|]. split; [done|].
      eapply Forall_impl; [exact Hall|].
      intros v (? & ? & ? & (r0 & ? & ?) & ?).
      do 3 (split; [done|]). split; [|done]. exists r0. split; [by right|done].
Qed.

(** The rows written for the accepted rows. *)
Lemma written_rows env st uid rows valid written :
  Forall (accepted_by isEmail env st uid rows) valid ->
  mapM ImportRoute.to_row valid = Some written ->
  buyer_id <$> written = ImportRoute.valid_id <$> valid
  /\ Forall (fun b => ownerId b = uid /\ createdAt b = now env
                      /\ updatedAt b = now env
                      /\ obeys_rules (fields b) /\ new_for st uid b) written.
Proof.
  intros Hall Hw. apply mapM_Some_1 in Hw.
  induction Hw as [|v b valid written Hv Hw IH]; [by split|].
  apply Forall_cons in Hall as [(Ho & Hc & Hu & (r & _ & Hd) & Hf) Hall].
  destruct (IH Hall) as [Hids Hrest].
  apply to_row_some in Hv as (Hid & Ho' & Hc' & Hu' & Hcol).
  split; [by rewrite !fmap_cons, Hid, Hids|].
  constructor; [|done].
  split; [congruence|]. split; [congruence|]. split; [congruence|].
  split; [by eapply csvBuyerSchema_obeys|].
  unfold new_for. apply find_existing_none in Hf.
  apply columns_fields in Hcol as (_ & He & Hp & _).
  eapply Forall_impl; [exact Hf|]. intros b' Hb' Hown.
  rewrite Hp, He. by apply Hb'.
Qed.

Lemma insert_histories_exact env uid rows :
  forall st,
    Forall (fun r => buyer_id r ∈ buyer_id <$> buyers st) rows ->
    ImportRoute.insert_histories env uid rows st
    = Some (mkStore (buyers st) (buyerHistory st ++ (import_entry env uid <$> rows))).
Proof.
  induction rows as [|r rows IH]; intros st Hall; simpl.
  - rewrite app_nil_r. by destruct st.
  - apply Forall_cons in Hall as [Hr Hall].
    unfold insert_history. simpl.
    apply existsb_has_id in Hr. rewrite Hr.
    rewrite IH by done. simpl. by rewrite <- app_assoc.
Qed.

Lemma transaction_exact env uid valid st :
  ImportRoute.transaction env uid valid st
  = match mapM ImportRoute.to_row valid with
    | None => None
    | Some written =>
        if forallb fits_columns written
           && pk_free (buyer_id <$> buyers st) written
        then Some (mkStore (buyers st ++ written)
                     (buyerHistory st ++ (import_entry env uid <$> written)))
        else None
    end.
Proof.
  unfold ImportRoute.transaction, insert_buyers.
  destruct (mapM _ _) as [written|]; [|done].
  destruct (_ && _); [|done].
  rewrite insert_histories_exact; [done|]. simpl.
  apply Forall_forall. intros r Hr. rewrite fmap_app. apply elem_of_app. right.
  apply list_elem_of_fmap. by exists r.
Qed.

(** The import as a whole: what the loop accepted, what was written for
    it, and the outcome. *)
Lemma import_outcome env st session file :
  (ImportRoute.POST isEmail env st session file).1 = st
  /\ is_error (ImportRoute.POST isEmail env st session file).2
  \/ exists uid f valid errors new,
       signed_in session = Some uid /\ file = Some f
       /\ ImportRoute.validate_rows isEmail env st uid ∅ ∅ 0
            (ImportRoute.parse_data f) [] [] = (valid, errors)
       /\ mapM ImportRoute.to_row valid = Some new
       /\ (new = [] \/ pk_free (buyer_id <$> buyers st) new = true)
       /\ ImportRoute.POST isEmail env st session file
          = (mkStore (buyers st ++ new)
               (buyerHistory st ++ (import_entry env uid <$> new)),
             ImportRoute.response (ImportRoute.parse_data f) valid errors).
Proof.
  unfold ImportRoute.POST.
  destruct (signed_in session) as [uid|]; [|by left].
  destruct file as [f|]; [|by left].
  destruct (negb _ && negb _); [by left|].
  destruct (bool_decide (0 < _)%nat); [by left|].
  destruct (bool_decide (_ = 0%nat)); [by left|].
  destruct (bool_decide (200 < _)%nat); [by left|].
  destruct (ImportRoute.validate_rows _ _ _ _ _ _ _ _ _ _) as [valid errors] eqn:E.
  destruct (bool_decide (0 < length valid)%nat) eqn:Hn.
  - rewrite transaction_exact.
    destruct (mapM ImportRoute.to_row valid) as [new|] eqn:Hw; [|by left].
    destruct (forallb _ _); [|by left].
    destruct (pk_free _ _) eqn:Hpk; [|by left].
    right. exists uid, f, valid, errors, new. repeat split; try done. by right.
  - apply bool_decide_eq_false in Hn. destruct valid; [|simpl in Hn; lia].
    right. exists uid, f, [], errors, []. simpl. rewrite !app_nil_r.
    repeat split; try done; [by left|by destruct st].
Qed.
End ImportEffect.

Section ImportGuarantees.
Variable isEmail : string -> bool.

(** X5. Every record a completed import adds to the store is owned by the
    uploader, obeys the rules of the CSV schema (phone of 10 to 15 digits,
    name of 2 to 80 characters, bedroom category for a residential type,
    ordered budget) and repeats neither the phone nor the non-empty email
    of a record the uploader already had; the records added are as many as
    the result reports imported. *)
Theorem imported_rows_are_valid_and_new env st session file st' status result :
  ImportRoute.POST isEmail env st session file
  = (st', mkResponse status (Json result)) ->
  exists uid new,
    signed_in session = Some uid
    /\ buyers st' = buyers st ++ new
    /\ length new = ImportRoute.imported result
    /\ Forall (fun b => ownerId b = uid /\ obeys_rules (fields b)
                        /\ new_for st uid b) new.
Proof.
  intros Hpost.
  destruct (import_outcome isEmail env st session file)
    as [[_ Herr]|(uid & f & valid & errors & new & Hin & -> & Hval & Hw & _ & Hout)].
  { rewrite Hpost in Herr. done. }
  rewrite Hpost in Hout. apply pair_equal_spec in Hout as [-> Hresp].
  exists uid, new. split; [done|]. split; [done|].
  unfold ImportRoute.response, json in Hresp. injection Hresp as _ ->. simpl.
  split; [symmetry; by eapply length_mapM|].
  apply validate_rows_accepts in Hval as (newv & Heq & _ & Hall).
  simpl in Heq. subst newv.
  destruct (written_rows isEmail env st uid _ valid new Hall Hw) as [_ Hnew].
  eapply Forall_impl; [exact Hnew|]. intros b (? & _ & _ & ? & ?). done.
Qed.

(** X6. An import writes all or nothing: either the answer is an error and
    the store is what it was, or every accepted row is appended to the
    buyers and, in the same order, one history entry per row to the
    history, signed by the uploader. *)
Theorem import_all_or_nothing env st session file :
  (ImportRoute.POST isEmail env st session file).1 = st
  /\ is_error (ImportRoute.POST isEmail env st session file).2
  \/ exists uid new status result,
       signed_in session = Some uid
       /\ (ImportRoute.POST isEmail env st session file).2
          = mkResponse status (Json result)
       /\ ImportRoute.imported result = length new
       /\ buyers (ImportRoute.POST isEmail env st session file).1
          = buyers st ++ new
       /\ buyerHistory (ImportRoute.POST isEmail env st session file).1
          = buyerHistory st ++ (import_entry env uid <$> new).
Proof.
  destruct (import_outcome isEmail env st session file)
    as [?|(uid & f & valid & errors & new & Hin & -> & Hval & Hw & _ & Hout)];
    [by left|].
  right. rewrite Hout. exists uid, new. eexists _, _.
  split; [done|]. split; [reflexivity|]. simpl.
  split; [by eapply length_mapM|done].
Qed.

End ImportGuarantees.

(** ** Create *)

Lemma unless_nil ok p m : unless ok p m = [] <-> ok = true.
Proof. unfold unless. destruct ok; split; done. Qed.

Lemma refinement_issues_nil {St Tg} (data : BuyerShape Z St Tg) :
  refinement_issues data = [] <-> refine_bhk data = true /\ refine_budget data = true.
Proof.
  unfold refinement_issues.
  destruct (refine_bhk data), (refine_budget data); simpl; split;
    (done || by intros [? ?]).
Qed.

Section CreateProperties.
Variable isEmail : string -> bool.

Lemma buyerSchema_obeys (data : BuyerInput) :
  buyerSchema_issues isEmail data = [] -> obeys_rules (with_defaults data).
Proof.
  unfold buyerSchema_issues, field_issues. intros H.
  repeat match goal with
         | H : _ ++ _ = [] |- _ => apply app_eq_nil in H as [? H]
         end.
  repeat match goal with
         | H : unless _ _ _ = [] |- _ => apply unless_nil in H
         end.
  apply refinement_issues_nil in H as [Hb Hg].
  unfold obeys_rules. simpl.
  repeat match goal with
         | H : Nat.leb _ _ = true |- _ => apply Nat.leb_le in H
         end.
  repeat split; done.
Qed.

(** X8. A create either answers with an error and leaves the store as it
    was, or answers 201 and appends exactly one record and one history
    entry: the record has the id drawn for it, which was free, the
    signed-in requester as owner, the time of the request as both dates,
    the fields of the body with status New and no tags when these are
    left out, and it obeys the validation rules. *)
Theorem create_appends_one_valid_record env st session request body :
  (BuyersRoute.POST isEmail env st session request body).1 = st
  /\ is_error (BuyersRoute.POST isEmail env st session request body).2
  \/ exists uid,
       signed_in session = Some uid
       /\ let newBuyer := mkRow (uuidv4 env 0) (with_defaults body) uid
                            (now env) (now env) in
          BuyersRoute.POST isEmail env st session request body
          = (mkStore (buyers st ++ [newBuyer])
               (buyerHistory st
                ++ [mkHistory (uuidv4 env 0) uid (now env)
                      (FieldDiff {[ "created" := (JNull, JStr "New buyer created") ]})]),
             json 201 newBuyer)
          /\ (uuidv4 env 0 ∉ buyer_id <$> buyers st)
          /\ status (fields newBuyer) = default New (status body)
          /\ tags (fields newBuyer) = default [] (tags body)
          /\ obeys_rules (fields newBuyer).
Proof.
  unfold BuyersRoute.POST. rewrite check_result. simpl.
  destruct (signed_in session) as [uid|]; [|by left].
  unfold createBuyerSchema, buyerSchema.
  destruct (buyerSchema_issues isEmail body) eqn:Ei; [|by left].
  unfold insert_buyers. cbn [forallb].
  destruct (fits_columns _); [|by left]. simpl.
  destruct (bool_decide (uuidv4 env 0 ∈ buyer_id <$> buyers st)) eqn:Hfree;
    simpl; [by left|].
  unfold insert_history. simpl.
  assert (existsb (has_id (uuidv4 env 0))
            (buyers st ++ [mkRow (uuidv4 env 0) (with_defaults body) uid
                             (now env) (now env)]) = true) as ->.
  { apply existsb_has_id. rewrite fmap_app. apply elem_of_app. right.
    simpl. by left. }
  right. exists uid. split; [done|]. simpl. split; [done|].
  split; [by apply bool_decide_eq_false in Hfree|].
  split; [done|]. split; [done|]. by apply buyerSchema_obeys.
Qed.
End CreateProperties.

(** ** The key constraints are kept *)

Lemma import_store_well_formed env uid new st :
  well_formed st ->
  new = [] \/ pk_free (buyer_id <$> buyers st) new = true ->
  well_formed (mkStore (buyers st ++ new)
                 (buyerHistory st ++ (import_entry env uid <$> new))).
Proof.
  intros [Hu Ho] Hnew.
  assert (NoDup (buyer_id <$> (buyers st ++ new))) as Hnd.
  { destruct Hnew as [->|Hpk]; [by rewrite app_nil_r|].
    apply pk_free_spec in Hpk as [Hnd Hfresh].
    rewrite fmap_app. apply NoDup_app. split; [done|]. split; [|done].
    intros k Hk Hin. apply list_elem_of_fmap in Hin as (r & -> & Hin).
    rewrite Forall_forall in Hfresh. by apply (Hfresh r Hin). }
  split; [done|].
  unfold no_orphans in *. simpl. apply Forall_app. split.
  - eapply Forall_impl; [exact Ho|]. intros h. rewrite !existsb_has_id.
    rewrite fmap_app, elem_of_app. by left.
  - apply Forall_fmap, Forall_forall. intros r Hr. simpl.
    apply existsb_has_id. rewrite fmap_app, elem_of_app. right.
    apply list_elem_of_fmap. by exists r.
Qed.

Section Integrity.
Variables isEmail isUuid isDatetime : string -> bool.

(** X9. The four handlers that write keep the two key constraints of the
    store: from a store whose buyer ids are pairwise distinct and whose
    history entries all reference a buyer, an update, a delete, a create
    and an import each lead to such a store, whatever the request and
    whatever the answer. *)
Theorem writes_keep_key_constraints env st :
  well_formed st ->
  (forall r, well_formed (BuyerById.PUT isEmail isUuid isDatetime env st r).1)
  /\ (forall session key, well_formed (BuyerById.DELETE st session key).1)
  /\ (forall session request body,
        well_formed (BuyersRoute.POST isEmail env st session request body).1)
  /\ (forall session file,
        well_formed (ImportRoute.POST isEmail env st session file).1).
Proof.
  intros Hwf. split; [|split; [|split]].
  - intros r. unfold BuyerById.PUT. rewrite check_result. simpl.
    destruct (signed_in _) as [uid|]; [|done].
    destruct (updateBuyerSchema _ _ _ _) as [v|]; [|done].
    destruct (select_buyer _ _) as [b|]; [|done].
    destruct (negb (bool_decide (ownerId b = uid))); [done|].
    destruct (negb (bool_decide (toISOString _ = _))); [done|].
    destruct (update_buyer _ _ _) as [[st1 returning]|] eqn:Eu; [|done].
    apply update_buyer_well_formed in Eu as [_ Hwf1]; [|done].
    destruct (bool_decide (0 < size _)%nat); [|done].
    destruct (insert_history _ _) as [st2|] eqn:Eh; [|done].
    by apply insert_history_well_formed in Eh as [_ ?].
  - intros session key. unfold BuyerById.DELETE.
    destruct (signed_in session); [|done].
    destruct (select_buyer st key); [|done].
    destruct (negb _); [done|]. by apply delete_buyer_well_formed.
  - intros session request body.
    unfold BuyersRoute.POST. rewrite check_result. simpl.
    destruct (signed_in session) as [uid|]; [|done].
    destruct (createBuyerSchema _ _) as [v|]; [|done].
    destruct (insert_buyers _ _) as [st1|] eqn:Eb; [|done].
    apply insert_buyers_well_formed in Eb as [_ Hwf1]; [|done].
    destruct (insert_history _ _) as [st2|] eqn:Eh; [|done].
    by apply insert_history_well_formed in Eh as [_ ?].
  - intros session file.
    destruct (import_outcome isEmail env st session file)
      as [[-> _]|(uid & f & valid & errors & new & _ & _ & _ & _ & Hnew & ->)];
      [done|].
    by apply import_store_well_formed.
Qed.
End Integrity.

(** ** The schemas against each other *)

Lemma elem_of_unless_eq ok p m (i : ZodIssue) :
  i ∈ unless ok p m -> i = mkIssue p m.
Proof.
  unfold unless. destruct ok; [by intros ?%elem_of_nil|].
  by intros ->%list_elem_of_singleton.
Qed.

Lemma refine_budget_false {St Tg} (data : BuyerShape Z St Tg) :
  refine_budget data = false
  <-> exists lo hi,
        budgetMin data = Some lo /\ budgetMax data = Some hi
        /\ lo ≠ 0 /\ hi ≠ 0 /\ hi < lo.
Proof.
  unfold refine_budget, truthy_num.
  destruct (budgetMin data) as [lo|], (budgetMax data) as [hi|];
    try (split; [done|by intros (? & ? & ? & ? & _)]).
  repeat case_bool_decide; simpl; split; try done;
    try (intros _; exists lo, hi; by repeat split);
    intros (? & ? & [= <-] & [= <-] & ? & ? & ?); lia.
Qed.

Section SchemaProperties.
Variables isEmail isUuid isDatetime : string -> bool.

Lemma field_issues_not_budget_order {St Tg} (data : BuyerShape Z St Tg) :
  budget_order ∉ field_issues isEmail data.
Proof.
  unfold field_issues, email_issue, notes_issue, positive_issue.
  rewrite !elem_of_app.
  intros [H|[H|[H|[H|[H|[H|H]]]]]];
    repeat match type of H with
           | _ ∈ match ?o with _ => _ end => destruct o
           end;
    try (by apply elem_of_nil in H);
    apply elem_of_unless_eq in H; discriminate.
Qed.

(** X10. Validation of a candidate fails with the budget-order violation,
    reported on the maximum, exactly when both budgets are present and not
    zero and the maximum is below the minimum. *)
Theorem budget_order_exactly_when_reversed (data : BuyerInput) :
  fails_with budget_order (buyerSchema isEmail data)
  <-> exists lo hi,
        budgetMin data = Some lo /\ budgetMax data = Some hi
        /\ lo ≠ 0 /\ hi ≠ 0 /\ hi < lo.
Proof.
  rewrite fails_with_issues.
  rewrite <- (refine_budget_false data).
  unfold buyerSchema_issues, refinement_issues.
  change (refine_bhk (with_defaults data)) with (refine_bhk data).
  change (refine_budget (with_defaults data)) with (refine_budget data).
  rewrite !elem_of_app. split.
  - intros [H|[H|H]].
    + by apply field_issues_not_budget_order in H.
    + destruct (refine_bhk data); [by apply elem_of_nil in H|].
      apply list_elem_of_singleton in H. discriminate.
    + destruct (refine_budget data); [by apply elem_of_nil in H|done].
  - intros ->. right; right. by apply list_elem_of_singleton.
Qed.

(** X11. The update schema asks of the buyer fields exactly what the
    create schema asks, and of the body two things more, an id that is a
    uuid and a token that is a datetime; what it returns for the fields is
    what the create schema returns. *)
Theorem update_schema_is_create_schema_with_id_and_token (body : UpdateInput) d :
  (exists v, updateBuyerSchema isEmail isUuid isDatetime body = inl v
             /\ upd_id v = body_id body
             /\ upd_updatedAt v = body_updatedAt body
             /\ upd_fields v = d)
  <-> isUuid (body_id body) = true
      /\ isDatetime (body_updatedAt body) = true
      /\ createBuyerSchema isEmail (body_fields body) = inl d.
Proof.
  unfold updateBuyerSchema, createBuyerSchema, buyerSchema,
    updateBuyerSchema_issues, buyerSchema_issues.
  destruct (isUuid (body_id body)), (isDatetime (body_updatedAt body));
    simpl; rewrite ?app_nil_r.
  - destruct (field_issues _ _ ++ refinement_issues _).
    + split.
      * intros (v & [= <-] & _ & _ & <-). done.
      * intros (_ & _ & [= <-]). eexists. by repeat split.
    + split; [by intros (v & [=] & _)|by intros (_ & _ & [=])].
  - split; [|by intros (_ & [=] & _)].
    intros (v & H & _). revert H.
    destruct (field_issues _ _ ++ _ :: _) eqn:E; [|done].
    by apply app_eq_nil in E as [_ [=]].
  - split; [by intros (v & [=] & _)|by intros ([=] & _)].
  - split; [by intros (v & [=] & _)|by intros ([=] & _)].
Qed.

Lemma field_issues_nil {St Tg} (data : BuyerShape Z St Tg) :
  field_issues isEmail data = []
  <-> Nat.leb 2 (String.length (fullName data)) = true
      /\ Nat.leb (String.length (fullName data)) 80 = true
      /\ (forall e, email data = Some e -> isEmail e || bool_decide (e = "") = true)
      /\ phone_regex (phone data) = true
      /\ (forall n, budgetMin data = Some n -> 0 < n)
      /\ (forall n, budgetMax data = Some n -> 0 < n)
      /\ (forall n, notes data = Some n ->
                    Nat.leb (String.length n) 1000 || bool_decide (n = "") = true).
Proof.
  unfold field_issues. rewrite !app_nil, !unless_nil.
  assert (email_issue isEmail (email data) = []
          <-> forall e, email data = Some e -> isEmail e || bool_decide (e = "") = true)
    as ->.
  { destruct (email data) as [e|]; simpl; [|by split].
    rewrite unless_nil. split; [by intros ? ? [= <-]|by intros H; apply H]. }
  assert (forall p o, positive_issue p o = [] <-> forall n, o = Some n -> 0 < n) as Hpos.
  { intros p o. destruct o as [n|]; simpl; [|by split].
    rewrite unless_nil, bool_decide_eq_true.
    split; [by intros ? ? [= <-]|by intros H; apply H]. }
  rewrite !Hpos.
  assert (notes_issue (notes data) = []
          <-> forall n, notes data = Some n ->
                        Nat.leb (String.length n) 1000 || bool_decide (n = "") = true)
    as ->.
  { destruct (notes data) as [n|]; simpl; [|by split].
    rewrite unless_nil. split; [by intros ? ? [= <-]|by intros H; apply H]. }
  done.
Qed.

Lemma csvBuyerSchema_checks t d :
  ImportRoute.csvBuyerSchema isEmail t = Some d ->
  Nat.leb 2 (String.length (fullName d)) = true
  /\ Nat.leb (String.length (fullName d)) 80 = true
  /\ (forall e, email d = Some e -> isEmail e = true)
  /\ phone_regex (phone d) = true
  /\ (forall n, notes d = Some n ->
                Nat.leb (String.length n) 1000 || bool_decide (n = "") = true)
  /\ refine_bhk d = true /\ csv_refine_budget d = true.
Proof.
  unfold ImportRoute.csvBuyerSchema.
  destruct (negb (_ && _)) eqn:Hname; [done|].
  destruct (ImportRoute.csv_email _ _) as [mail|] eqn:Hmail; [|done].
  destruct (negb (phone_regex _)) eqn:Hphone; [done|].
  repeat (case_match; try done). intros [= <-]. simpl.
  apply negb_false_iff, andb_true_iff in Hname as [? ?].
  apply negb_false_iff in Hphone.
  repeat match goal with
         | H : negb _ = false |- _ => apply negb_false_iff in H
         | H : _ && _ = true |- _ => apply andb_true_iff in H as [? ?]
         end.
  repeat split; try done.
  - intros e ->. unfold ImportRoute.csv_email in Hmail.
    destruct (isEmail (ImportRoute.t_email t)) eqn:He.
    + by injection Hmail as <-.
    + by destruct (bool_decide _).
  - by intros n [= <-].
Qed.

(** X12. The CSV schema against the create schema.  The CSV schema asks
    of a budget that it be a number and nothing more, where the create
    schema asks for a whole and positive number; on everything else the
    two agree.  So a row the CSV schema accepts whose budgets are whole
    (the record written for it is then the row itself) passes the create
    schema, unchanged, exactly when its budgets, when present, are
    positive. *)
Theorem csv_schema_agrees_with_create_schema t d written :
  ImportRoute.csvBuyerSchema isEmail t = Some d ->
  ImportRoute.columns d = Some written ->
  createBuyerSchema isEmail (as_input written) = inl written
  <-> (forall n, budgetMin written = Some n -> 0 < n)
      /\ (forall n, budgetMax written = Some n -> 0 < n).
Proof.
  intros Hcsv Hcol.
  apply csvBuyerSchema_checks in Hcsv as (Hlo & Hhi & Hmail & Hphone & Hnotes & Hb & Hg).
  apply columns_fields in Hcol
    as (En & Ee & Ep & _ & _ & _ & _ & _ & _ & _ & Eno & _ & _ & _ & Eb & Eg).
  assert (with_defaults (as_input written) = written) as Hself by by destruct written.
  assert (buyerSchema_issues isEmail (as_input written) = []
          <-> (forall n, budgetMin written = Some n -> 0 < n)
              /\ (forall n, budgetMax written = Some n -> 0 < n)) as Hnil.
  { unfold buyerSchema_issues. rewrite app_nil, field_issues_nil, refinement_issues_nil.
    rewrite Hself, Eb, Eg. simpl. rewrite En, Ee, Ep, Eno.
    split.
    - intros [(_ & _ & _ & _ & ? & ? & _) _]. done.
    - intros [Hmin Hmax]. split; [|done].
      repeat split; try done.
      intros e He. by rewrite (Hmail e He). }
  rewrite <- Hnil. unfold createBuyerSchema, buyerSchema.
  destruct (buyerSchema_issues isEmail (as_input written)) eqn:Ei.
  - rewrite Hself. done.
  - split; done.
Qed.
End SchemaProperties.

(** ** Listing: filters and pages *)


Lemma concat_chunks {A} (size : nat) :
  forall (n : nat) (l : list A),
    (0 < size)%nat -> (length l <= n * size)%nat ->
    concat ((fun i => take size (drop (i * size) l)) <$> seq 0 n) = l.
Proof.
  induction n as [|n IH]; intros l Hsize Hlen; simpl.
  - destruct l; [done|simpl in Hlen; lia].
  - rewrite drop_0. rewrite <- fmap_S_seq, <- list_fmap_compose.
    transitivity (take size l ++ drop size l); [|apply take_drop]. f_equal.
    transitivity
      (concat ((fun i => take size (drop (i * size) (drop size l))) <$> seq 0 n));
      [|apply IH; [done|rewrite length_drop; lia]].
    f_equal. apply list_fmap_ext. intros _ i _. simpl.
    by rewrite drop_drop.
Qed.

Section FilterProperties.
Variable ilike : string -> string -> bool.
Variable parseInt : string -> option Z.
Variable orderBy :
  BuyersRoute.SortBy -> BuyersRoute.SortOrder -> list Buyer -> list Buyer.




Section Ordered.
Hypothesis orderBy_permutation :
  forall column direction rows, orderBy column direction rows ≡ₚ rows.

End Ordered.

(** X14. The pages of a listing cut the selection without loss or
    repetition: for requests that differ only in the page, from 1 up to a
    number of pages under which the page size covers the matching records
    (the [pages] of the pagination is such a number), the pages put end to
    end are the matching records, each once, in the requested order.  The
    matching records are at most [2 ^ 53], as the rows of a table are, so
    that every offset that falls among them is computed exactly; a page
    past them is empty, whether its query is answered or raises. *)
Theorem pages_partition_the_selection st session v (ps : nat -> BuyersRoute.QueryString)
    (n : nat) :
  is_Some (signed_in session) ->
  0 < BuyersRoute.limit v ->
  (forall i, (i < n)%nat ->
             BuyersRoute.searchSchema parseInt (ps i)
             = Some (with_page (Z.of_nat i + 1) v)) ->
  Z.of_nat (length (List.filter (BuyersRoute.whereClause ilike v) (buyers st)))
  <= Z.of_nat n * BuyersRoute.limit v ->
  Z.of_nat (length (List.filter (BuyersRoute.whereClause ilike v) (buyers st)))
  <= 2 ^ 53 ->
  (forall rows, length (orderBy (BuyersRoute.sortBy v) (BuyersRoute.sortOrder v) rows)
                = length rows) ->
  concat ((fun i => data_of (BuyersRoute.GET ilike parseInt orderBy st session (ps i)))
            <$> seq 0 n)
  = orderBy (BuyersRoute.sortBy v) (BuyersRoute.sortOrder v)
      (List.filter (BuyersRoute.whereClause ilike v) (buyers st)).
Proof.
  intros [uid Hin] Hlimit Hps Hcover Hsafe Hlen.
  set (sorted := orderBy _ _ _).
  assert (length sorted
          = length (List.filter (BuyersRoute.whereClause ilike v) (buyers st)))
    as Hsorted by apply Hlen.
  rewrite <- (concat_chunks (Z.to_nat (BuyersRoute.limit v)) n sorted);
    [|lia|rewrite Hsorted; lia].
  f_equal. apply list_fmap_ext. intros i ? Hi.
  apply lookup_seq in Hi as [-> Hi]. simpl.
  unfold BuyersRoute.GET, data_of. rewrite Hin, (Hps i Hi).
  change (BuyersRoute.whereClause ilike (with_page (Z.of_nat i + 1) v))
    with (BuyersRoute.whereClause ilike v).
  change (BuyersRoute.limit (with_page (Z.of_nat i + 1) v))
    with (BuyersRoute.limit v).
  change (BuyersRoute.sortBy (with_page (Z.of_nat i + 1) v))
    with (BuyersRoute.sortBy v).
  change (BuyersRoute.sortOrder (with_page (Z.of_nat i + 1) v))
    with (BuyersRoute.sortOrder v).
  fold sorted.
  set (offset := BuyersRoute.offset_of (with_page (Z.of_nat i + 1) v)).
  assert (offset = double (double (Z.of_nat i) * BuyersRoute.limit v)) as Hoffset.
  { unfold offset, BuyersRoute.offset_of.
    change (BuyersRoute.page (with_page (Z.of_nat i + 1) v)) with (Z.of_nat i + 1).
    change (BuyersRoute.limit (with_page (Z.of_nat i + 1) v))
      with (BuyersRoute.limit v).
    by replace (Z.of_nat i + 1 - 1) with (Z.of_nat i) by lia. }
  destruct (decide (Z.of_nat i * BuyersRoute.limit v < Z.of_nat (length sorted)))
    as [Hin_data|Hpast].
  - assert (offset = Z.of_nat i * BuyersRoute.limit v) as ->.
    { rewrite Hoffset.
      rewrite (double_exact (Z.of_nat i)) by (rewrite Z.abs_eq; nia).
      apply double_exact. rewrite Z.abs_eq; nia. }
    rewrite bool_decide_eq_false_2 by (unfold max_bigint; nia).
    simpl. do 2 f_equal. nia.
  - assert (Z.of_nat (length sorted) <= offset) as Hbeyond.
    { rewrite Hoffset. apply double_beyond; [lia|].
      destruct (decide (Z.of_nat i <= 2 ^ 53)).
      - rewrite double_exact; [lia|]. rewrite Z.abs_eq; lia.
      - pose proof (double_large (Z.of_nat i) ltac:(lia)). nia. }
    rewrite (drop_ge sorted (i * Z.to_nat (BuyersRoute.limit v))) by nia.
    rewrite take_nil.
    case_bool_decide; [done|]. simpl.
    rewrite drop_ge by lia. by rewrite take_nil.
Qed.
End FilterProperties.

(** ** Strings: trimming, splitting and joining *)

Lemma chars_unchars l : chars (unchars l) = l.
Proof. apply String.list_ascii_of_string_of_list_ascii. Qed.

Lemma unchars_chars s : unchars (chars s) = s.
Proof. apply String.string_of_list_ascii_of_string. Qed.


Lemma chars_inj s t : chars s = chars t -> s = t.
Proof. intros H. by rewrite <- (unchars_chars s), H, unchars_chars. Qed.














(** ** The cells of the exported file *)

Lemma double_quotes_inj l : forall l',
  ExportRoute.double_quotes l = ExportRoute.double_quotes l' -> l = l'.
Proof.
  induction l as [|c l IH]; intros [|c' l'] H; simpl in H.
  - done.
  - by destruct (bool_decide (c' = ExportRoute.quote)).
  - by destruct (bool_decide (c = ExportRoute.quote)).
  - destruct (bool_decide (c = ExportRoute.quote)) eqn:Hc;
      destruct (bool_decide (c' = ExportRoute.quote)) eqn:Hc'.
    + apply bool_decide_eq_true in Hc, Hc'. subst.
      injection H as H. f_equal. by apply IH.
    + apply bool_decide_eq_true in Hc. apply bool_decide_eq_false in Hc'.
      injection H as H1 H2. congruence.
    + apply bool_decide_eq_false in Hc. apply bool_decide_eq_true in Hc'.
      injection H as H1 H2. congruence.
    + injection H as -> H. f_equal. by apply IH.
Qed.

Lemma wrapped_is_special l :
  existsb ExportRoute.special (ExportRoute.quote :: l) = true.
Proof. done. Qed.

Lemma csv_cell_text_injective (s t : string) :
  ExportRoute.csv_cell s = ExportRoute.csv_cell t -> s = t.
Proof.
  unfold ExportRoute.csv_cell.
  destruct (existsb ExportRoute.special (chars s)) eqn:Hs;
    destruct (existsb ExportRoute.special (chars t)) eqn:Ht; intros H.
  - apply (f_equal chars) in H. rewrite !chars_unchars in H.
    injection H as H. apply app_inj_tail in H as [H _].
    by apply chars_inj, double_quotes_inj.
  - rewrite <- H, chars_unchars in Ht. by rewrite wrapped_is_special in Ht.
  - rewrite H, chars_unchars in Hs. by rewrite wrapped_is_special in Hs.
  - done.
Qed.

Section ExportCells.
Variable dateString : Date -> string.

(** X16. What a cell of the export keeps of a value.  The cell is the
    quoted text of the value ([String(value)], the joined items for an
    array, the empty text for [null] and [undefined]), and the quoting is
    injective: two values give the same cell exactly when they have the
    same text.  The value itself is not kept: [null], [undefined] and the
    empty string give the same cell, and an array of the one item [s,t]
    gives the same cell as the array of the two items [s] and [t]. *)
Theorem csv_cell_keeps_the_text (v w : jsval) :
  (ExportRoute.csv_cell (ExportRoute.strValue dateString v)
   = ExportRoute.csv_cell (ExportRoute.strValue dateString w)
   <-> ExportRoute.strValue dateString v = ExportRoute.strValue dateString w)
  /\ ExportRoute.csv_cell (ExportRoute.strValue dateString JNull)
     = ExportRoute.csv_cell (ExportRoute.strValue dateString (JStr ""))
  /\ ExportRoute.csv_cell (ExportRoute.strValue dateString JUndefined)
     = ExportRoute.csv_cell (ExportRoute.strValue dateString (JStr ""))
  /\ (forall r r' s t,
        ExportRoute.csv_cell
          (ExportRoute.strValue dateString (JArr r [s +:+ "," +:+ t]))
        = ExportRoute.csv_cell
            (ExportRoute.strValue dateString (JArr r' [s; t]))).
Proof.
  split; [|by repeat split].
  split; [apply csv_cell_text_injective|by intros ->].
Qed.
End ExportCells.

(** ** The page buttons *)

Lemma pageNum_offset page pages i :
  BuyersList.pageNum page pages i = BuyersList.pageNum page pages 0 + i.
Proof. unfold BuyersList.pageNum. repeat case_bool_decide; lia. Qed.

(** X17. The page buttons of a listing on page [page] of [pages].  With a
    single page, or none, the pager is not rendered and there is no
    button.  With more than one page there are [min 5 pages] buttons, they
    are consecutive page numbers, all of them between 1 and [pages], and
    the current page is one of them. *)
Theorem page_buttons_cover_current_page (page pages : Z) :
  1 <= page <= pages ->
  (pages <= 1 -> BuyersList.page_buttons page pages = [])
  /\ (1 < pages ->
      length (BuyersList.page_buttons page pages) = Z.to_nat (Z.min 5 pages)
      /\ (forall i, (i < Z.to_nat (Z.min 5 pages))%nat ->
            BuyersList.page_buttons page pages !! i
            = Some (BuyersList.pageNum page pages 0 + Z.of_nat i))
      /\ Forall (fun n => 1 <= n <= pages) (BuyersList.page_buttons page pages)
      /\ page ∈ BuyersList.page_buttons page pages).
Proof.
  intros Hpage. unfold BuyersList.page_buttons. split.
  { intros Hone. by rewrite bool_decide_eq_false_2 by lia. }
  intros Hmany. rewrite bool_decide_eq_true_2 by lia.
  split; [by rewrite length_fmap, length_seq|].
  assert (forall i, (i < Z.to_nat (Z.min 5 pages))%nat ->
            ((fun i => BuyersList.pageNum page pages (Z.of_nat i))
               <$> seq 0 (Z.to_nat (Z.min 5 pages))) !! i
            = Some (BuyersList.pageNum page pages 0 + Z.of_nat i)) as Hlookup.
  { intros i Hi. rewrite list_lookup_fmap, lookup_seq_lt by done. simpl.
    by rewrite pageNum_offset. }
  split; [done|]. split.
  - apply Forall_forall. intros n Hn.
    apply list_elem_of_fmap in Hn as (i & -> & Hi).
    apply elem_of_seq in Hi.
    unfold BuyersList.pageNum. repeat case_bool_decide; lia.
  - apply list_elem_of_lookup.
    exists (Z.to_nat (page - BuyersList.pageNum page pages 0)).
    assert (0 <= page - BuyersList.pageNum page pages 0 < Z.min 5 pages) as Hrange.
    { unfold BuyersList.pageNum. repeat case_bool_decide; lia. }
    rewrite Hlookup by lia. f_equal. lia.
Qed.

(** ** The tag input *)

Lemma removeTag_elem t x l : x ∈ TagInput.removeTag l t <-> x ∈ l /\ x ≠ t.
Proof.
  unfold TagInput.removeTag.
  rewrite list_elem_of_In, filter_In, <- list_elem_of_In.
  by rewrite negb_true_iff, bool_decide_eq_false.
Qed.

Lemma removeTag_absent t l : t ∉ l -> TagInput.removeTag l t = l.
Proof.
  unfold TagInput.removeTag. induction l as [|x l IH]; [done|].
  intros Hx. apply not_elem_of_cons in Hx as [Hx Hl]. simpl.
  rewrite bool_decide_eq_false_2 by done. simpl. f_equal. by apply IH.
Qed.

Lemma removeTag_last t l :
  TagInput.removeTag (l ++ [t]) t = TagInput.removeTag l t.
Proof.
  unfold TagInput.removeTag. rewrite List.filter_app. simpl.
  rewrite bool_decide_eq_true_2 by done. simpl. apply app_nil_r.
Qed.

Lemma addTag_cases tags input :
  (TagInput.addTag tags input = tags
   /\ (trim input = "" \/ trim input ∈ tags))
  \/ (TagInput.addTag tags input = tags ++ [trim input]
      /\ trim input ≠ "" /\ trim input ∉ tags).
Proof.
  unfold TagInput.addTag, truthy_str.
  destruct (bool_decide (trim input = "")) eqn:He;
    destruct (bool_decide (trim input ∈ tags)) eqn:Hm; simpl.
  - left. apply bool_decide_eq_true in He. by split; [|left].
  - left. apply bool_decide_eq_true in He. by split; [|left].
  - left. apply bool_decide_eq_true in Hm. by split; [|right].
  - right. apply bool_decide_eq_false in He, Hm. done.
Qed.

(** X18. The tag input keeps a list of tags free of repetitions and of
    empty tags: adding and removing preserve both.  A trimmed, non-empty
    input is a tag after it is added, a removed tag is gone, and removing
    what was just added gives the list without that tag: the list the tag
    was added to, when it was new. *)
Theorem tag_input_keeps_tags_distinct (tags : list string) (input : string) :
  NoDup tags -> "" ∉ tags ->
  NoDup (TagInput.addTag tags input)
  /\ ("" ∉ TagInput.addTag tags input)
  /\ (input ≠ "" -> trim input = input -> input ∈ TagInput.addTag tags input)
  /\ NoDup (TagInput.removeTag tags input)
  /\ ("" ∉ TagInput.removeTag tags input)
  /\ (input ∉ TagInput.removeTag tags input)
  /\ TagInput.removeTag (TagInput.addTag tags input) (trim input)
     = TagInput.removeTag tags (trim input)
  /\ (trim input ∉ tags ->
      TagInput.removeTag (TagInput.addTag tags input) (trim input) = tags).
Proof.
  intros Hnd Hne.
  assert (TagInput.removeTag (TagInput.addTag tags input) (trim input)
          = TagInput.removeTag tags (trim input)) as Hround.
  { destruct (addTag_cases tags input) as [[-> _]|(-> & _ & _)]; [done|].
    apply removeTag_last. }
  split; [|split; [|split; [|split; [|split; [|split; [|split]]]]]].
  - destruct (addTag_cases tags input) as [[-> _]|(-> & _ & Hnew)]; [done|].
    apply NoDup_app. split; [done|]. split; [|apply NoDup_singleton].
    by intros x Hx ->%list_elem_of_singleton.
  - destruct (addTag_cases tags input) as [[-> _]|(-> & Hfull & _)]; [done|].
    intros [?|Hin%list_elem_of_singleton]%elem_of_app; [done|].
    by apply Hfull.
  - intros Hfull Htrim.
    destruct (addTag_cases tags input) as [[-> [He|Hin]]|(-> & _ & _)].
    + congruence.
    + by rewrite <- Htrim.
    + apply elem_of_app. right. apply list_elem_of_singleton. by rewrite Htrim.
  - by apply NoDup_ListNoDup, List.NoDup_filter, NoDup_ListNoDup.
  - rewrite removeTag_elem. tauto.
  - rewrite removeTag_elem. tauto.
  - exact Hround.
  - intros Hnew. rewrite Hround. by apply removeTag_absent.
Qed.

(** ** The sliding-window limiter *)

Lemma later_than_filter (c w : Z) (l : list Z) :
  c <= w ->
  List.filter (later_than w) (List.filter (later_than c) l)
  = List.filter (later_than w) l.
Proof.
  intros Hcw. induction l as [|x l IH]; [done|]. cbn [List.filter].
  destruct (later_than c x) eqn:Hc; cbn [List.filter];
    destruct (later_than w x) eqn:Hw; rewrite ?IH; try done.
  unfold later_than in Hc, Hw.
  apply bool_decide_eq_false in Hc. apply bool_decide_eq_true in Hw. lia.
Qed.

Lemma cleanup_lookup (t : Z) (m : gmap string (list Z)) (k : string) :
  default [] (SlidingWindow.cleanup t m !! k)
  = List.filter (later_than (t - SlidingWindow.hour)) (default [] (m !! k)).
Proof.
  unfold SlidingWindow.cleanup. rewrite lookup_omap.
  destruct (m !! k) as [ts|]; simpl; [|done].
  change (fun time => bool_decide (t - SlidingWindow.hour < time))
    with (later_than (t - SlidingWindow.hour)).
  case_bool_decide as He; simpl; [|done].
  by destruct (List.filter _ ts).
Qed.

Lemma sliding_check_unfold now sweep requests request limit config :
  let stored :=
    default [] (requests !! SlidingWindow.getIdentifier request) in
  let inWindow :=
    List.filter (later_than (now - SlidingWindow.interval config)) stored in
  let ok := bool_decide (Z.of_nat (length inWindow) < limit) in
  let kept := if ok then inWindow ++ [now] else inWindow in
  let written :=
    if ok then <[SlidingWindow.getIdentifier request := kept]> requests
    else requests in
  SlidingWindow.check now sweep requests request limit config
  = (SlidingWindow.mkResult ok limit
       (Z.max 0 (limit - Z.of_nat (length kept)))
       (now - SlidingWindow.interval config + SlidingWindow.interval config),
     match sweep with
     | Some t => SlidingWindow.cleanup t written
     | None => written
     end).
Proof. done. Qed.

(** X19. One call of the sliding-window limiter.  The [reset] it reports
    is the time of the call itself.  A refused call reports nothing
    remaining and, when no clean-up runs, leaves the map as it was; an
    accepted call reports what is left of the limit after it.  Without
    clean-up the lists of the other clients are untouched. *)
Theorem limiter_call now requests request limit config :
  let result := SlidingWindow.check now None requests request limit config in
  let count :=
    Z.of_nat (length (List.filter
                        (later_than (now - SlidingWindow.interval config))
                        (default [] (requests !! SlidingWindow.getIdentifier request)))) in
  SlidingWindow.reset result.1 = now
  /\ (SlidingWindow.success result.1 = true <-> count < limit)
  /\ (SlidingWindow.success result.1 = false ->
      SlidingWindow.remaining result.1 = 0 /\ result.2 = requests)
  /\ (SlidingWindow.success result.1 = true ->
      SlidingWindow.remaining result.1 = limit - count - 1
      /\ 0 <= SlidingWindow.remaining result.1)
  /\ (forall k, k ≠ SlidingWindow.getIdentifier request ->
                result.2 !! k = requests !! k).
Proof.
  intros result count. subst result. rewrite sliding_check_unfold. cbn [fst snd].
  cbn [SlidingWindow.reset SlidingWindow.success SlidingWindow.remaining].
  fold count.
  split; [lia|]. split; [apply bool_decide_eq_true|].
  destruct (bool_decide (count < limit)) eqn:Hok.
  - apply bool_decide_eq_true in Hok.
    split; [done|]. split.
    + intros _. rewrite length_app. simpl. subst count. lia.
    + intros k Hk. by rewrite lookup_insert_ne.
  - apply bool_decide_eq_false in Hok.
    split; [|split; [done|done]].
    intros _. split; [fold count; lia|done].
Qed.

Section LimiterRun.
Variable identifier : string.
Variable limit : Z.
Variable config : SlidingWindow.RateLimitConfig.
Hypothesis interval_within_hour : SlidingWindow.interval config <= SlidingWindow.hour.

(** The stored list of the client agrees with the accepted calls on every
    window that can still be asked about. *)
Lemma limiter_step from now sweep request requests (acc : list Z) :
  (forall w, from - SlidingWindow.interval config <= w ->
     List.filter (later_than w) (default [] (requests !! identifier))
     = List.filter (later_than w) acc) ->
  from <= now ->
  (forall t, sweep = Some t -> now <= t) ->
  let result := SlidingWindow.check now sweep requests request limit config in
  let mine :=
    SlidingWindow.success result.1
    && bool_decide (SlidingWindow.getIdentifier request = identifier) in
  (forall w, default now sweep - SlidingWindow.interval config <= w ->
     List.filter (later_than w) (default [] (result.2 !! identifier))
     = List.filter (later_than w) (acc ++ if mine then [now] else []))
  /\ (mine = true ->
      Z.of_nat (length (List.filter
                          (later_than (now - SlidingWindow.interval config))
                          (acc ++ [now]))) <= limit).
Proof.
  intros Hinv Hfrom Hsweep result mine. subst result mine.
  rewrite sliding_check_unfold. cbn [fst snd SlidingWindow.success].
  set (start := now - SlidingWindow.interval config).
  set (stored := default [] (requests !! SlidingWindow.getIdentifier request)).
  set (ok := bool_decide (Z.of_nat (length (List.filter (later_than start) stored)) < limit)).
  set (written := if ok then _ else requests).
  assert (forall w, start <= w ->
            List.filter (later_than w) (default [] (written !! identifier))
            = List.filter (later_than w)
                (acc ++ if ok && bool_decide (SlidingWindow.getIdentifier request
                                              = identifier)
                        then [now] else [])) as Hwritten.
  { intros w Hw. subst written. destruct ok eqn:Hok; simpl.
    - case_bool_decide as Hid.
      + rewrite Hid, lookup_insert_eq. simpl.
        rewrite !List.filter_app. subst stored. rewrite Hid.
        rewrite later_than_filter by done.
        rewrite Hinv by (subst start; lia). done.
      + rewrite lookup_insert_ne by done.
        rewrite app_nil_r. apply Hinv. subst start. lia.
    - rewrite app_nil_r. apply Hinv. subst start. lia. }
  split.
  - intros w Hw. destruct sweep as [t|]; simpl in Hw.
    + rewrite cleanup_lookup. rewrite later_than_filter by lia.
      apply Hwritten. specialize (Hsweep t eq_refl). subst start. lia.
    + apply Hwritten. subst start. lia.
  - intros Hmine. apply andb_true_iff in Hmine as [Hok Hid].
    apply bool_decide_eq_true in Hid.
    rewrite List.filter_app, length_app.
    rewrite <- Hinv by (subst start; lia).
    subst ok. apply bool_decide_eq_true in Hok.
    subst stored. rewrite Hid in Hok.
    assert (length (List.filter (later_than start) [now]) <= 1)%nat.
    { simpl. destruct (later_than start now); simpl; lia. }
    lia.
Qed.

Lemma limiter_run calls : forall from requests (acc : list Z),
  (forall w, from - SlidingWindow.interval config <= w ->
     List.filter (later_than w) (default [] (requests !! identifier))
     = List.filter (later_than w) acc) ->
  chronological from calls ->
  forall pre a post,
    accepted identifier calls requests limit config = pre ++ a :: post ->
    Z.of_nat (length (List.filter
                        (later_than (a - SlidingWindow.interval config))
                        (acc ++ pre ++ [a]))) <= limit.
Proof.
  induction calls as [|[[now sweep] request] rest IH];
    intros from requests acc Hinv Hchron pre a post Hrun.
  - by destruct pre.
  - simpl in Hchron. destruct Hchron as [Hfrom Hrest].
    assert (forall t, sweep = Some t -> now <= t) as Hsweep.
    { intros t ->. tauto. }
    assert (chronological (default now sweep) rest) as Hrest'.
    { destruct sweep; simpl; tauto. }
    destruct (limiter_step from now sweep request requests acc Hinv Hfrom Hsweep)
      as [Hinv' Hmine].
    cbn [accepted] in Hrun.
    destruct (SlidingWindow.success _ && bool_decide _) eqn:Hm.
    + destruct pre as [|b pre]; simpl in Hrun.
      * injection Hrun as <- _. simpl. by apply Hmine.
      * injection Hrun as <- Hrun.
        specialize (IH _ _ _ Hinv' Hrest' pre a post Hrun).
        by rewrite <- app_assoc in IH.
    + simpl in Hrun. rewrite app_nil_r in Hinv'.
      exact (IH _ _ _ Hinv' Hrest' pre a post Hrun).
Qed.

(** X20. The sliding-window limiter limits.  On a limiter that starts
    empty, with a window of at most one hour and a clock that does not run
    backwards, whenever a call of a client is accepted, the accepted calls
    of that client within the window that ends at this call, this one
    included, number at most [limit].  Calls of other clients and clean-ups
    in between do not change this. *)
Theorem limiter_never_exceeds_limit from calls pre a post :
  chronological from calls ->
  accepted identifier calls ∅ limit config = pre ++ a :: post ->
  Z.of_nat (length (List.filter
                      (later_than (a - SlidingWindow.interval config))
                      (pre ++ [a]))) <= limit.
Proof.
  intros Hchron Hrun.
  assert (forall w, from - SlidingWindow.interval config <= w ->
            List.filter (later_than w)
              (default [] ((∅ : gmap string (list Z)) !! identifier))
            = List.filter (later_than w) []) as Hinv.
  { intros w _. by rewrite lookup_empty. }
  exact (limiter_run calls from ∅ [] Hinv Hchron pre a post Hrun).
Qed.
End LimiterRun.

(** ** The further properties on the sample data *)

Lemma reference_newest_first_permutation entries : Cases.newest_first entries ≡ₚ entries.
Proof. apply merge_sort_Permutation. Qed.

(** A user who does not own the sample record fetches it, spelling its
    id in upper case, with its one history entry. *)
Lemma fetch_with_recent_history_witness :
  is_Some (signed_in (Some Sample.visitor))
  /\ Reference.uuid_in Cases.john_id_upper = Some Sample.john_id
  /\ exists h,
       BuyerById.GET Cases.newest_first Reference.uuid_in Sample.store
         (Some Sample.visitor) Cases.john_id_upper
       = json 200 (Sample.john, h)
       /\ length h = 1%nat.
Proof.
  assert (is_Some (signed_in (Some Sample.visitor))) as Hin by (by eexists).
  split; [exact Hin|]. split; [reflexivity|].
  pose proof (fetch_with_recent_history Cases.newest_first Reference.uuid_in
                reference_newest_first_permutation
                Sample.store (Some Sample.visitor) Cases.john_id_upper Hin) as H.
  change (Reference.uuid_in Cases.john_id_upper) with (Some Sample.john_id) in H.
  change (select_buyer Sample.store Sample.john_id) with (Some Sample.john) in H.
  destruct H as (h & Hget & _ & _ & _ & _ & Hall).
  exists h. split; [exact Hget|].
  rewrite (Permutation_length (Hall ltac:(simpl; lia))). reflexivity.
Defined.

(** An id that is no UUID is answered 500, and a UUID no record has 404. *)
Example fetch_of_a_malformed_id :
  BuyerById.GET Cases.newest_first Reference.uuid_in Sample.store
    (Some Sample.visitor) "not-a-uuid"
  = fail 500 "Internal server error"
  /\ BuyerById.GET Cases.newest_first Reference.uuid_in Sample.store
       (Some Sample.visitor) Cases.jane_id
     = fail 404 "Buyer not found".
Proof. split; reflexivity. Qed.

(** The owner updates the status of the sample record with the current
    token: the update is applied, so the guards held. *)
Lemma update_only_by_owner_with_token_witness :
  let r := Sample.put Sample.owner Qualified Sample.fresh_token in
  let out := BuyerById.PUT Reference.isEmail Reference.isUuid Reference.isDatetime
               Sample.env Sample.store r in
  ~ is_error out.2
  /\ exists b,
       select_buyer Sample.store Sample.john_id = Some b
       /\ signed_in (Some Sample.owner) = Some (ownerId b)
       /\ toISOString (updatedAt b) = Sample.fresh_token.
Proof.
  intros r out.
  assert (~ is_error out.2) as Hok by (vm_compute; tauto).
  split; [exact Hok|].
  destruct (update_only_by_owner_with_token Reference.isEmail Reference.isUuid
              Reference.isDatetime Sample.env Sample.store r out.1 out.2)
    as (b & Hb & Hsession & Htoken & _); [reflexivity|by right|].
  exists b. split; [exact Hb|]. split; [exact Hsession|exact Htoken].
Defined.


(** The import of three valid rows and one invalid row into an empty
    store: the three records belong to the importer and obey the rules. *)
Lemma imported_rows_are_valid_and_new_witness :
  let out := ImportRoute.POST Reference.isEmail Sample.env Sample.empty_store
               (Some Sample.owner) (Some (Sample.csv_file Sample.mixed_rows)) in
  length (buyers out.1) = 3%nat
  /\ Forall (fun b => ownerId b = Sample.owner /\ obeys_rules (fields b)) (buyers out.1).
Proof.
  intros out.
  destruct out as [st' [status [result|message]]] eqn:Hout; subst out.
  - destruct (imported_rows_are_valid_and_new Reference.isEmail Sample.env
                Sample.empty_store (Some Sample.owner)
                (Some (Sample.csv_file Sample.mixed_rows)) st' status result Hout)
      as (uid & new & Huid & Hnew & Hlen & Hall).
    injection Huid as <-. simpl in Hnew. cbn [fst]. rewrite Hnew. split.
    + rewrite Hlen. vm_compute in Hout. by injection Hout as _ _ <-.
    + eapply Forall_impl; [exact Hall|]. simpl. tauto.
  - vm_compute in Hout. discriminate.
Defined.


(** A file of one row in order and one row with a budget of one and a
    half, and a file with a budget of three thousand million: the CSV
    schema accepts each row, no row error is recorded, and the import
    answers 500 and writes nothing. *)
Example import_of_a_budget_the_table_refuses :
  let import rows :=
    ImportRoute.POST Reference.isEmail Sample.env Sample.empty_store
      (Some Sample.owner) (Some (Sample.csv_file rows)) in
  is_Some (ImportRoute.csvBuyerSchema Reference.isEmail
             (ImportRoute.transform Cases.fractional_row))
  /\ is_Some (ImportRoute.csvBuyerSchema Reference.isEmail
                (ImportRoute.transform Cases.oversized_row))
  /\ import [Cases.priced_row; Cases.fractional_row]
     = (Sample.empty_store, fail 500 "Import failed")
  /\ import [Cases.oversized_row] = (Sample.empty_store, fail 500 "Import failed").
Proof. repeat split; by eexists. Qed.

(** The sample store satisfies the key constraints, and so does what the
    four handlers make of it. *)
Lemma writes_keep_key_constraints_witness :
  well_formed Sample.store
  /\ well_formed (BuyerById.PUT Reference.isEmail Reference.isUuid Reference.isDatetime
                    Sample.env Sample.store
                    (Sample.put Sample.owner Qualified Sample.fresh_token)).1
  /\ well_formed (BuyerById.DELETE Sample.store (Some Sample.owner) Sample.john_id).1
  /\ well_formed (BuyersRoute.POST Reference.isEmail Sample.env Sample.store
                    (Some Sample.owner) Sample.request Sample.john_input).1
  /\ well_formed (ImportRoute.POST Reference.isEmail Sample.env Sample.store
                    (Some Sample.owner) (Some (Sample.csv_file Sample.mixed_rows))).1.
Proof.
  assert (well_formed Sample.store) as Hwf.
  { split; [apply NoDup_singleton|]. by repeat constructor. }
  destruct (writes_keep_key_constraints Reference.isEmail Reference.isUuid
              Reference.isDatetime Sample.env Sample.store Hwf)
    as (Hput & Hdelete & Hcreate & Himport).
  split; [exact Hwf|]. split; [apply Hput|]. split; [apply Hdelete|].
  split; [apply Hcreate|apply Himport].
Defined.

(** A CSV row with budgets 100 and 200 passes the CSV schema, and the
    record written for it passes the create schema unchanged. *)
Lemma csv_schema_agrees_with_create_schema_witness :
  ImportRoute.csvBuyerSchema Reference.isEmail (ImportRoute.transform Cases.priced_row)
  = Some Cases.priced_data
  /\ ImportRoute.columns Cases.priced_data = Some Cases.jane_fields
  /\ createBuyerSchema Reference.isEmail (as_input Cases.jane_fields)
     = inl Cases.jane_fields.
Proof.
  assert (ImportRoute.csvBuyerSchema Reference.isEmail
            (ImportRoute.transform Cases.priced_row)
          = Some Cases.priced_data) as Hcsv by reflexivity.
  assert (ImportRoute.columns Cases.priced_data = Some Cases.jane_fields)
    as Hcol by reflexivity.
  split; [exact Hcsv|]. split; [exact Hcol|].
  apply (csv_schema_agrees_with_create_schema Reference.isEmail
           (ImportRoute.transform Cases.priced_row) Cases.priced_data
           Cases.jane_fields Hcsv Hcol).
  split; simpl; intros n [= <-]; lia.
Defined.


(** The two pages of one record each of the store of two records. *)
Lemma pages_partition_the_selection_witness :
  data_of (BuyersRoute.GET Reference.ilike Reference.parseInt Reference.orderBy
             Cases.store (Some Sample.owner) (Cases.pages 0))
  ++ data_of (BuyersRoute.GET Reference.ilike Reference.parseInt Reference.orderBy
                Cases.store (Some Sample.owner) (Cases.pages 1))
  = Reference.orderBy BuyersRoute.ByUpdatedAt BuyersRoute.Desc (buyers Cases.store).
Proof.
  transitivity
    (concat ((fun i => data_of (BuyersRoute.GET Reference.ilike Reference.parseInt
                                  Reference.orderBy Cases.store (Some Sample.owner)
                                  (Cases.pages i)))
               <$> seq 0 2)).
  { cbn [seq fmap list_fmap concat]. by rewrite app_nil_r. }
  apply (pages_partition_the_selection Reference.ilike Reference.parseInt
           Reference.orderBy Cases.store (Some Sample.owner) Cases.first_page
           Cases.pages 2).
  - by eexists.
  - simpl. lia.
  - intros i Hi. destruct i as [|[|i]]; [reflexivity|reflexivity|lia].
  - simpl. lia.
  - simpl. lia.
  - intros rows. apply Permutation_length, reference_orderBy_permutation.
Defined.


(** Page 5 of 10: five buttons, the current page among them. *)
Lemma page_buttons_cover_current_page_witness :
  1 <= 5 <= 10
  /\ length (BuyersList.page_buttons 5 10) = 5%nat
  /\ 5 ∈ BuyersList.page_buttons 5 10.
Proof.
  assert (1 <= 5 <= 10) as H by lia.
  destruct (page_buttons_cover_current_page 5 10 H) as (_ & Hmany).
  destruct Hmany as (Hlen & _ & _ & Hin); [lia|].
  split; [exact H|]. split; [exact Hlen|exact Hin].
Defined.

(** Page 1 of 1: the pager is not rendered. *)
Example single_page_has_no_button : BuyersList.page_buttons 1 1 = [].
Proof. reflexivity. Qed.

(** A padded tag added to a list of one tag, and removed again. *)
Lemma tag_input_keeps_tags_distinct_witness :
  NoDup (TagInput.addTag ["vip"] " hot ")
  /\ TagInput.removeTag (TagInput.addTag ["vip"] " hot ") (trim " hot ") = ["vip"].
Proof.
  destruct (tag_input_keeps_tags_distinct ["vip"] " hot ")
    as (Hnd & _ & _ & _ & _ & _ & _ & Hround).
  - apply NoDup_singleton.
  - by intros ?%list_elem_of_singleton.
  - split; [exact Hnd|]. apply Hround. by intros ?%list_elem_of_singleton.
Defined.

(** The run of the sample: the first client is accepted twice and refused
    the third time within the minute. *)
Lemma limiter_never_exceeds_limit_witness :
  accepted "198.51.100.1" Cases.calls ∅ 2 Cases.per_minute = [1000; 3000]
  /\ Z.of_nat (length (List.filter
                         (later_than (3000 - SlidingWindow.interval Cases.per_minute))
                         [1000; 3000])) <= 2.
Proof.
  assert (accepted "198.51.100.1" Cases.calls ∅ 2 Cases.per_minute = [1000; 3000])
    as Hrun by reflexivity.
  split; [exact Hrun|].
  apply (limiter_never_exceeds_limit "198.51.100.1" 2 Cases.per_minute
           ltac:(vm_compute; discriminate) 0 Cases.calls [1000] 3000 [] ).
  - simpl. lia.
  - exact Hrun.
Defined.
